(** * Agent-Dzeck-Ai: plan scheduler, dispatcher, reviser and self-correction loop

A shallow embedding of [sources/orchestrator.py] (the plan-level
retry-and-recovery engine) and of the self-correction loop of
[sources/agents/code_agent.py], with the properties that the
specification states about them.

Conventions of the embedding.
- Python [str] is [string]: the text is taken to be ASCII, so that
  [str.lower] only moves [A-Z] and the regular-expression class [\w]
  is [[A-Za-z0-9_]].
- Python [int] is [Z]; [str(n)] is the decimal numeral of [n].
- Objects that the source mutates in place (a [TaskStep] inside
  [plan.steps]) are addressed by their position in the list and
  written back with list insertion.
- Workers, the language model, the sandbox and the package installer
  are external: they are functions over an abstract world [W], and a
  call that raises is the outcome [Raised]. *)

From Stdlib Require Import ZArith Strings.String Strings.Ascii Numbers.DecimalString Lia.
From Stdlib Require DecimalPos DecimalZ.
From stdpp Require Import base option list strings gmap.

(* ===================================================================== *)
(** ** Python text primitives *)
(* ===================================================================== *)

Module Text.

Definition code (c : ascii) : N := N_of_ascii c.

Definition between (lo hi : N) (c : ascii) : bool :=
  (lo <=? code c)%N && (code c <=? hi)%N.

Definition is_upper : ascii -> bool := between 65 90.
Definition is_lower : ascii -> bool := between 97 122.
Definition is_digit : ascii -> bool := between 48 57.

(** [\w] *)
Definition is_word (c : ascii) : bool :=
  is_upper c || is_lower c || is_digit c || (code c =? 95)%N.

(** [\s]: tab, newline, vertical tab, form feed, carriage return, the
    four separators 28..31 and the space. *)
Definition is_space (c : ascii) : bool :=
  between 9 13 c || between 28 32 c.

(** The single and the double quote (codes 39 and 34). *)
Definition is_quote (c : ascii) : bool :=
  (code c =? 39)%N || (code c =? 34)%N.

Definition lower_char (c : ascii) : ascii :=
  if is_upper c then ascii_of_N (code c + 32) else c.

(** [s.lower()] *)
Fixpoint lower (s : string) : string :=
  match s with
  | EmptyString => EmptyString
  | String c r => String (lower_char c) (lower r)
  end.

(** [sub in s] *)
Fixpoint str_in (sub s : string) : bool :=
  String.prefix sub s ||
  match s with
  | EmptyString => false
  | String _ r => str_in sub r
  end.

(** [s[:n]] *)
Fixpoint take (n : nat) (s : string) : string :=
  match n, s with
  | S k, String c r => String c (take k r)
  | _, _ => EmptyString
  end.

(** [s.startswith(p)] *)
Definition startswith (s p : string) : bool := String.prefix p s.

(** [str(n)] for an [int] *)
Definition str_of_int (n : Z) : string :=
  NilZero.string_of_int (Z.to_int n).

(** [x or default] for a string [x] *)
Definition or_else (x default : string) : string :=
  match x with EmptyString => default | _ => x end.

(** [sep.join(l)] *)
Fixpoint join (sep : string) (l : list string) : string :=
  match l with
  | [] => EmptyString
  | [x] => x
  | x :: r => x +:+ sep +:+ join sep r
  end.

(** The longest prefix of [s] whose characters satisfy [p], and the rest. *)
Fixpoint span (p : ascii -> bool) (s : string) : string * string :=
  match s with
  | String c r =>
      if p c then let '(a, b) := span p r in (String c a, b)
      else (EmptyString, s)
  | EmptyString => (EmptyString, EmptyString)
  end.

(** Removes the literal [lit] from the front of [s]; with [ci] the
    comparison ignores case ([re.IGNORECASE]). *)
Fixpoint strip_prefix (ci : bool) (lit s : string) : option string :=
  match lit, s with
  | EmptyString, _ => Some s
  | String a l, String b r =>
      if (if ci then Ascii.eqb (lower_char a) (lower_char b) else Ascii.eqb a b)
      then strip_prefix ci l r else None
  | String _ _, EmptyString => None
  end.

(** [re.search]: the anchored matcher [m] is tried at every position,
    leftmost first. *)
Fixpoint search {A} (m : string -> option A) (s : string) : option A :=
  match m s with
  | Some a => Some a
  | None =>
      match s with
      | EmptyString => None
      | String _ r => search m r
      end
  end.

(** [re.findall] for a pattern without capturing groups whose matches
    are never empty: [m] returns the matched text and what follows it. *)
Fixpoint findall_from (fuel : nat) (m : string -> option (string * string))
    (s : string) : list string :=
  match fuel, s with
  | S f, String _ r =>
      match m s with
      | Some (x, rest) => x :: findall_from f m rest
      | None => findall_from f m r
      end
  | _, _ => []
  end.

Definition findall (m : string -> option (string * string)) (s : string)
    : list string :=
  findall_from (String.length s) m s.

(** [s.split('.')[0]] *)
Definition before_dot (s : string) : string :=
  fst (span (fun c => negb (code c =? 46)%N) s).

End Text.

(* ===================================================================== *)
(** ** code_agent.py: error indicators *)
(* ===================================================================== *)

Module Coder.

Definition error_indicators : list string :=
  [ "Error"; "Exception"; "Traceback"; "SyntaxError";
    "NameError"; "TypeError"; "ValueError"; "ImportError";
    "ModuleNotFoundError"; "AttributeError"; "KeyError";
    "IndexError"; "FileNotFoundError"; "PermissionError";
    "RuntimeError"; "OSError"; "IOError"; "ZeroDivisionError";
    "IndentationError"; "UnboundLocalError" ].

(** [CoderAgent._has_error_in_output]; [None] is an absent feedback. *)
Definition _has_error_in_output (feedback : option string) : bool :=
  match feedback with
  | None => false
  | Some EmptyString => false
  | Some f => existsb (fun indicator => Text.str_in indicator f) error_indicators
  end.

End Coder.

(* ===================================================================== *)
(** ** orchestrator.py: steps and plans *)
(* ===================================================================== *)

(** The four values that [TaskStep.status] takes. *)
Inductive Status := Pending | Running | Completed | Failed.

#[global] Instance Status_eq_dec : EqDecision Status.
Proof. solve_decision. Defined.

(** The source writes the status as a string. *)
Definition status_text (st : Status) : string :=
  match st with
  | Pending => "pending"
  | Running => "running"
  | Completed => "completed"
  | Failed => "failed"
  end.

(** A dependency identifier. The field is declared [List[str]], but the
    scheduler compares [str(dep_id)], so that an integer is accepted too. *)
Inductive DepId := DepStr (s : string) | DepInt (n : Z).

#[global] Instance DepId_eq_dec : EqDecision DepId.
Proof. solve_decision. Defined.

(** [str(dep_id)] *)
Definition dep_str (d : DepId) : string :=
  match d with
  | DepStr s => s
  | DepInt n => Text.str_of_int n
  end.

Record TaskStep := mkTaskStep {
  id : Z;
  description : string;
  agent_type : string;
  status : Status;
  result : string;
  error : string;
  attempts : Z;
  max_attempts : Z;
  dependencies : list DepId
}.

(** [TaskStep(id, description, agent_type, ...)] with the defaults of the
    dataclass for the fields that are not given. *)
Definition new_step (i : Z) (desc agent : string) (budget : Z)
    (deps : list DepId) : TaskStep :=
  {| id := i; description := desc; agent_type := agent; status := Pending;
     result := EmptyString; error := EmptyString; attempts := 0; max_attempts := budget;
     dependencies := deps |}.

Definition default_max_attempts : Z := 3.

Definition set_status (st : Status) (s : TaskStep) : TaskStep :=
  {| id := id s; description := description s; agent_type := agent_type s;
     status := st; result := result s; error := error s;
     attempts := attempts s; max_attempts := max_attempts s;
     dependencies := dependencies s |}.

Definition set_result (r : string) (s : TaskStep) : TaskStep :=
  {| id := id s; description := description s; agent_type := agent_type s;
     status := status s; result := r; error := error s;
     attempts := attempts s; max_attempts := max_attempts s;
     dependencies := dependencies s |}.

Definition set_error (e : string) (s : TaskStep) : TaskStep :=
  {| id := id s; description := description s; agent_type := agent_type s;
     status := status s; result := result s; error := e;
     attempts := attempts s; max_attempts := max_attempts s;
     dependencies := dependencies s |}.

Definition set_attempts (n : Z) (s : TaskStep) : TaskStep :=
  {| id := id s; description := description s; agent_type := agent_type s;
     status := status s; result := result s; error := error s;
     attempts := n; max_attempts := max_attempts s;
     dependencies := dependencies s |}.

(** [ExecutionPlan]. The field [start_time] is a clock reading that only
    the elapsed-time line of the progress text uses; it is left to the
    clock of the run controller below. *)
Record ExecutionPlan := mkPlan {
  goal : string;
  steps : list TaskStep;
  current_step : Z;
  completed : bool;
  reflection_log : list string
}.

Definition set_steps (l : list TaskStep) (p : ExecutionPlan) : ExecutionPlan :=
  {| goal := goal p; steps := l; current_step := current_step p;
     completed := completed p; reflection_log := reflection_log p |}.

Definition log_reflection (line : string) (p : ExecutionPlan) : ExecutionPlan :=
  {| goal := goal p; steps := steps p; current_step := current_step p;
     completed := completed p; reflection_log := reflection_log p ++ [line] |}.

(** The step object at position [i] is rewritten in place. *)
Definition update_step (i : nat) (f : TaskStep -> TaskStep)
    (p : ExecutionPlan) : ExecutionPlan :=
  match steps p !! i with
  | Some s => set_steps (<[i := f s]> (steps p)) p
  | None => p
  end.

Module Scheduler.

(** [next((s for s in self.steps if str(s.id) == str(dep_id)), None)] *)
Definition dep_step (all : list TaskStep) (dep_id : DepId) : option TaskStep :=
  List.find (fun s => String.eqb (Text.str_of_int (id s)) (dep_str dep_id)) all.

(** The inner loop of [get_next_step]: a dependency blocks the step when
    it resolves to a step whose status is not completed. *)
Definition blocks (all : list TaskStep) (dep_id : DepId) : bool :=
  match dep_step all dep_id with
  | Some d => negb (bool_decide (status d = Completed))
  | None => false
  end.

Definition deps_met (all : list TaskStep) (step : TaskStep) : bool :=
  forallb (fun dep_id => negb (blocks all dep_id)) (dependencies step).

(** The outer loop of [get_next_step], from position [i] on; the result
    carries the position of the step object that is returned. *)
Fixpoint next_from (all : list TaskStep) (i : nat) (l : list TaskStep)
    : option (nat * TaskStep) :=
  match l with
  | [] => None
  | step :: rest =>
      if bool_decide (status step = Pending) && deps_met all step
      then Some (i, step)
      else next_from all (S i) rest
  end.

Definition next_index (p : ExecutionPlan) : option (nat * TaskStep) :=
  next_from (steps p) 0 (steps p).

(** [ExecutionPlan.get_next_step] *)
Definition get_next_step (p : ExecutionPlan) : option TaskStep :=
  snd <$> next_index p.

(** [ExecutionPlan.is_complete] *)
Definition is_complete (p : ExecutionPlan) : bool :=
  forallb (fun s => bool_decide (status s = Completed)
                    || bool_decide (status s = Failed)) (steps p).

(** [ExecutionPlan.get_success_rate] is a float; its numerator and
    denominator are kept apart. *)
Definition count_status (st : Status) (p : ExecutionPlan) : nat :=
  length (filter (fun s => status s = st) (steps p)).

End Scheduler.

(** The two methods of [ExecutionPlan] that set the outcome of a step
    found by its identifier. *)
Module PlanOps.

(** [for step in self.steps: if step.id == step_id: ...; return]: the
    first step with the identifier is rewritten, a missing identifier
    is passed over in silence. *)
Fixpoint update_first (f : TaskStep -> TaskStep) (step_id : Z)
    (l : list TaskStep) : list TaskStep :=
  match l with
  | [] => []
  | step :: rest =>
      if (id step =? step_id)%Z then f step :: rest
      else step :: update_first f step_id rest
  end.

(** [ExecutionPlan.mark_step_done] *)
Definition mark_step_done (step_id : Z) (r : string) (p : ExecutionPlan)
    : ExecutionPlan :=
  set_steps
    (update_first (fun step => set_result r (set_status Completed step))
       step_id (steps p)) p.

(** [ExecutionPlan.mark_step_failed] *)
Definition mark_step_failed (step_id : Z) (e : string) (p : ExecutionPlan)
    : ExecutionPlan :=
  set_steps
    (update_first
       (fun step =>
          let step := set_attempts (attempts step + 1) step in
          let step :=
            if (max_attempts step <=? attempts step)%Z
            then set_status Failed step
            else set_status Pending step in
          set_error e step)
       step_id (steps p)) p.

End PlanOps.

(* ===================================================================== *)
(** ** The regular expressions of the two files *)
(* ===================================================================== *)

Module Patterns.

Import Text.

(** One or more characters of the class [p]: the match and the rest. *)
Definition plus (p : ascii -> bool) (s : string) : option (string * string) :=
  match span p s with
  | (EmptyString, _) => None
  | (a, b) => Some (a, b)
  end.

(** The pattern [<lit> [quote]?(\w+)] anchored at the head of [s], where
    [lit] is [No module named ] and [quote] is one of the two quote
    characters; the result is group 1. An optional quote that is not
    followed by a word character cannot be skipped, because the quote
    itself is not a word character. *)
Definition module_after (ci : bool) (lit s : string) : option string :=
  rest ← strip_prefix ci lit s;
  let rest' :=
    match rest with
    | String c r => if is_quote c then r else rest
    | EmptyString => rest
    end in
  fst <$> plus is_word rest'.

(** [re.search(r'no module named [quote]?(\w+)', error_lower)] of
    [revise_plan]. *)
Definition search_module_lower (error_lower : string) : option string :=
  search (module_after false "no module named ") error_lower.

(** [re.search(r'No module named [quote]?(\w+)', error_text, re.IGNORECASE)]
    of [_handle_install_failure_with_browsing]. *)
Definition search_module_nocase (error_text : string) : option string :=
  search (module_after true "No module named ") error_text.

Definition is_dash (c : ascii) : bool := (code c =? 45)%N.

(** [re.search] with [re.IGNORECASE] for [pip install ] followed by
    group 1, a word character and then any run of word characters and
    dashes. *)
Definition pip_install_after (s : string) : option string :=
  rest ← strip_prefix true "pip install " s;
  match rest with
  | String c r =>
      if is_word c
      then Some (String c (fst (span (fun x => is_word x || is_dash x) r)))
      else None
  | EmptyString => None
  end.

Definition search_pip_install (error_text : string) : option string :=
  search pip_install_after error_text.

(** [re.search(r'No module named [quote]([^quote]+)[quote]', text)] of
    [code_agent.py]: case-sensitive, both quotes required. The greedy
    run of non-quote characters must be followed by a quote. *)
Definition quoted_module_after (s : string) : option string :=
  rest ← strip_prefix false "No module named " s;
  match rest with
  | String q r =>
      if is_quote q then
        match span (fun x => negb (is_quote x)) r with
        | (EmptyString, _) => None
        | (name, String _ _) => Some name
        | (_, EmptyString) => None
        end
      else None
  | EmptyString => None
  end.

Definition search_quoted_module (text : string) : option string :=
  search quoted_module_after text.

(** The tail of the two install-command patterns: any number of groups
    made of white space and then a token of the class [tok]. *)
Fixpoint more_tokens (fuel : nat) (tok : ascii -> bool) (s : string)
    : string * string :=
  match fuel with
  | O => (EmptyString, s)
  | S f =>
      match plus is_space s with
      | Some (ws, r1) =>
          match plus tok r1 with
          | Some (t, r2) =>
              let '(m, r3) := more_tokens f tok r2 in (ws +:+ t +:+ m, r3)
          | None => (EmptyString, s)
          end
      | None => (EmptyString, s)
      end
  end.

(** White space, [install], white space, a token and the tail above:
    the part the two patterns share. *)
Definition install_args (tok : ascii -> bool) (s : string)
    : option (string * string) :=
  '(ws1, r1) ← plus is_space s;
  r2 ← strip_prefix false "install" r1;
  '(ws2, r3) ← plus is_space r2;
  '(t, r4) ← plus tok r3;
  let '(m, r5) := more_tokens (String.length r4) tok r4 in
  Some (ws1 +:+ "install" +:+ ws2 +:+ t +:+ m, r5).

(** The class [[\w\-\.\[\]>=<]]. *)
Definition is_pip_token (c : ascii) : bool :=
  is_word c || is_dash c
  || (code c =? 46)%N || (code c =? 91)%N || (code c =? 93)%N
  || (code c =? 62)%N || (code c =? 61)%N || (code c =? 60)%N.

(** The pattern of [pip_patterns]: [pip], an optional [3], then the
    install arguments over the class above. *)
Definition pip_command (s : string) : option (string * string) :=
  r0 ← strip_prefix false "pip" s;
  let '(three, r1) :=
    match strip_prefix false "3" r0 with
    | Some r => ("3", r)
    | None => (EmptyString, r0)
    end in
  '(args, r2) ← install_args is_pip_token r1;
  Some ("pip" +:+ three +:+ args, r2).

(** The pattern of [apt_patterns]: an optional [sudo] with white space,
    [apt], an optional [-get], then the install arguments over word
    characters and dashes. *)
Definition apt_command (s : string) : option (string * string) :=
  let '(sudo, r0) :=
    match strip_prefix false "sudo" s with
    | Some r =>
        match plus is_space r with
        | Some (ws, r') => ("sudo" +:+ ws, r')
        | None => (EmptyString, s)
        end
    | None => (EmptyString, s)
    end in
  r1 ← strip_prefix false "apt" r0;
  let '(get, r2) :=
    match strip_prefix false "-get" r1 with
    | Some r => ("-get", r)
    | None => (EmptyString, r1)
    end in
  '(args, r3) ← install_args (fun c => is_word c || is_dash c) r2;
  Some (sudo +:+ "apt" +:+ get +:+ args, r3).

End Patterns.

(* ===================================================================== *)
(** ** orchestrator.py: the dispatcher *)
(* ===================================================================== *)

Definition nl : string := String "010"%char EmptyString.

(** What [agent.process(prompt, None)] followed by [agent.get_success]
    gives: an answer with the success flag, or an exception with the text
    of [str(e)]. An answer [None] is the empty string. *)
Inductive Outcome :=
  | Returned (answer : string) (success : bool)
  | Raised (msg : string).

(** One entry of [execution_memory]; the time stamp is not kept, and
    [retry_with_browse] is false when the source leaves the key out. *)
Record MemoryEntry := mkEntry {
  step_id : Z;
  agent : string;
  success : bool;
  answer_preview : string;
  retry_with_browse : bool
}.

(** A worker invocation as the ghost log of the orchestrator keeps it:
    the registry key of the worker, the prompt and what came back. *)
Record Invocation := mkInvocation {
  worker_key : string;
  prompt_sent : string;
  outcome : Outcome
}.

(** The exceptions that leave [execute_step]: the lookup
    [self.agents[agent_key]] and the division of [step.id] by the number
    of the steps of the plan are made before the [try] block. *)
Inductive Fault :=
  | KeyError (key : string)
  | ZeroDivisionError.

Module Orchestrator.

Import Text.

Section Engine.

Context {W : Type}.

(** A worker acts on the world; the registry is the dictionary
    [self.agents] in insertion order, with distinct keys. *)
Definition Worker : Type := string -> W -> Outcome * W.

Variable agents : list (string * Worker).

(** The persistent memory, an external collaborator. *)
Variable get_context_for_prompt : string -> W -> string.
Variable store_fact : string -> string -> string -> W -> W.

(** [_gather_rich_context] digests the completed steps into prompt
    text; no property below reads that text. *)
Variable _gather_rich_context : ExecutionPlan -> string.

(** The state of the orchestrator object. [invoked] is a ghost log of
    the worker invocations made so far. *)
Record Orch := mkOrch {
  plan : ExecutionPlan;
  execution_memory : list MemoryEntry;
  invoked : list Invocation;
  world : W
}.

Definition with_plan (f : ExecutionPlan -> ExecutionPlan) (o : Orch) : Orch :=
  {| plan := f (plan o); execution_memory := execution_memory o;
     invoked := invoked o; world := world o |}.

Definition with_world (f : W -> W) (o : Orch) : Orch :=
  {| plan := plan o; execution_memory := execution_memory o;
     invoked := invoked o; world := f (world o) |}.

Definition remember (e : MemoryEntry) (o : Orch) : Orch :=
  {| plan := plan o; execution_memory := execution_memory o ++ [e];
     invoked := invoked o; world := world o |}.

(** [key in self.agents] *)
Definition has_agent (key : string) : bool :=
  existsb (fun kv => String.eqb (fst kv) key) agents.

(** [self.agents[key]], [None] standing for [KeyError]. *)
Definition agent_of (key : string) : option Worker :=
  snd <$> List.find (fun kv => String.eqb (fst kv) key) agents.

(** The head of [execute_step]: the key under which the worker is
    then looked up. *)
Definition resolve_key (agent_type : string) : string :=
  let agent_key := lower agent_type in
  if has_agent agent_key then agent_key
  else
    match List.find (fun kv => startswith (fst kv) (take 3 agent_key)) agents with
    | Some (key, _) => key
    | None => "coder"
    end.

(** [await agent.process(prompt, None)] on the worker found under [key]. *)
Definition call (key : string) (worker : Worker) (prompt : string)
    (o : Orch) : Outcome * Orch :=
  let '(out, w) := worker prompt (world o) in
  (out, {| plan := plan o; execution_memory := execution_memory o;
           invoked := invoked o ++ [mkInvocation key prompt out]; world := w |}).

(** [_coder_browse_for_install] *)
Definition _coder_browse_for_install (package_name error_text : string)
    (o : Orch) : string * Orch :=
  match agent_of "web" with
  | None => (EmptyString, o)
  | Some browser_agent =>
      let search_query :=
        "install " +:+ package_name +:+ " python pip Linux Ubuntu error fix" in
      match call "web" browser_agent search_query o with
      | (Returned answer _, o') =>
          match answer with
          | EmptyString => (EmptyString, o')
          | _ => (take 1500 answer, o')
          end
      | (Raised _, o') => (EmptyString, o')
      end
  end.

(** [_handle_install_failure_with_browsing] *)
Definition _handle_install_failure_with_browsing (step : TaskStep)
    (error_text : string) (o : Orch) : option string * Orch :=
  let error_lower := lower error_text in
  if negb (str_in "no module named" error_lower)
     && negb (str_in "pip install" error_lower)
     && negb (str_in "modulenotfounderror" error_lower)
  then (None, o)
  else
    let module_match :=
      match Patterns.search_module_nocase error_text with
      | Some m => Some m
      | None => Patterns.search_pip_install error_text
      end in
    match module_match with
    | None => (None, o)
    | Some package_name =>
        let '(browse_result, o') :=
          _coder_browse_for_install package_name error_text o in
        match browse_result with
        | EmptyString => (None, o')
        | _ =>
            let install_commands :=
              (findall Patterns.pip_command browse_result
               ++ findall Patterns.apt_command browse_result)%list in
            match install_commands with
            | _ :: _ =>
                let retry_prompt :=
                  "Berdasarkan pencarian web, berikut cara install '"
                  +:+ package_name +:+ "':" +:+ nl
                  +:+ "Perintah yang ditemukan:" +:+ nl in
                let retry_prompt :=
                  fold_left
                    (fun acc cmd => acc +:+ "  - " +:+ cmd +:+ nl)
                    (firstn 5 install_commands) retry_prompt in
                (Some (retry_prompt
                       +:+ nl +:+ "Info lengkap dari web:" +:+ nl
                       +:+ take 800 browse_result +:+ nl +:+ nl
                       +:+ "Coba install menggunakan perintah di atas, lalu ulangi tugas asli:"
                       +:+ nl +:+ description step), o')
            | [] =>
                (Some ("Info dari web tentang '" +:+ package_name +:+ "':" +:+ nl
                       +:+ take 800 browse_result +:+ nl +:+ nl
                       +:+ "Gunakan informasi ini untuk memperbaiki instalasi, lalu ulangi tugas:"
                       +:+ nl +:+ description step), o')
            end
        end
    end.

(** The prompt that [execute_step] composes. *)
Definition compose_prompt (step : TaskStep)
    (required_infos : list (string * string)) (o : Orch) : string :=
  let prompt := description step in
  let rich_context := _gather_rich_context (plan o) in
  let prompt :=
    match required_infos with
    | [] => prompt
    | _ =>
        let context_parts :=
          map (fun kv => "- Hasil langkah " +:+ fst kv +:+ ": " +:+ snd kv)
              required_infos in
        "Konteks dari langkah sebelumnya:" +:+ nl
        +:+ join EmptyString context_parts +:+ nl +:+ nl
        +:+ "Tugas kamu sekarang:" +:+ nl +:+ description step +:+ nl +:+ nl
        +:+ "INSTRUKSI: Langsung kerjakan tanpa bertanya. Gunakan informasi dari langkah sebelumnya."
    end in
  let prompt :=
    match rich_context with
    | EmptyString => prompt
    | _ => rich_context +:+ nl +:+ nl +:+ prompt
    end in
  let prompt :=
    match error step with
    | EmptyString => prompt
    | _ =>
        if (0 <? attempts step)%Z then
          prompt +:+ nl +:+ nl
          +:+ "PERINGATAN: Percobaan sebelumnya GAGAL dengan error:" +:+ nl
          +:+ take 500 (error step) +:+ nl
          +:+ "Gunakan PENDEKATAN BERBEDA kali ini. Jangan ulangi cara yang sama."
        else prompt
    end in
  match get_context_for_prompt (description step) (world o) with
  | EmptyString => prompt
  | memory_context => prompt +:+ nl +:+ memory_context
  end.

(** The end of the [try] block of [execute_step]. *)
Definition finish (step : TaskStep) (agent_key answer : string)
    (success : bool) (o : Orch) : (Fault + string * bool) * Orch :=
  (inr (answer, success),
   if success
   then with_world
          (store_fact "execution_success"
             ("Langkah '" +:+ take 100 (description step)
              +:+ "' berhasil dengan agent " +:+ agent_key)
             "orchestrator") o
   else o).

(** [execute_step(step, required_infos)] for the step object at
    position [i] of the plan; an empty [required_infos] is [None]. The
    plan of the orchestrator is set. The progress notice divides
    [step.id] by [len(self.plan.steps)] outside the [try] block, which
    raises when the plan has no step. *)
Definition execute_step (i : nat) (step : TaskStep)
    (required_infos : list (string * string)) (o : Orch)
    : (Fault + string * bool) * Orch :=
  let o := with_plan (update_step i (set_status Running)) o in
  let agent_key := resolve_key (agent_type step) in
  match agent_of agent_key with
  | None => (inl (KeyError agent_key), o)
  | Some agent =>
      let prompt := compose_prompt step required_infos o in
      match steps (plan o) with
      | [] => (inl ZeroDivisionError, o)
      | _ :: _ =>
          match call agent_key agent prompt o with
          | (Raised msg, o) => (inr ("Error: " +:+ msg, false), o)
          | (Returned answer success, o) =>
              let o :=
                remember (mkEntry (id step) agent_key success
                                  (take 200 answer) false) o in
              if negb success && String.eqb agent_key "coder" then
                match _handle_install_failure_with_browsing step answer o with
                | (Some (String _ _ as browse_fix), o) =>
                    match call agent_key agent browse_fix o with
                    | (Raised msg, o) => (inr ("Error: " +:+ msg, false), o)
                    | (Returned answer success, o) =>
                        let o :=
                          remember (mkEntry (id step) agent_key success
                                            (take 200 answer) true) o in
                        finish step agent_key answer success o
                    end
                | (_, o) => finish step agent_key answer success o
                end
              else finish step agent_key answer success o
          end
      end
  end.

End Engine.

End Orchestrator.

(* ===================================================================== *)
(** ** orchestrator.py: reflection and plan revision *)
(* ===================================================================== *)

Module Reviser.

Import Text.

(** The part of [reflect] that acts on the step object; the result is
    the reflection line and the step as it is left. *)
Definition reflect_step (step : TaskStep) (result : string) (success : bool)
    : string * TaskStep :=
  if success then
    ("Langkah " +:+ str_of_int (id step) +:+ " berhasil: " +:+ description step,
     set_result result (set_status Completed step))
  else
    let step := set_attempts (attempts step + 1) step in
    if (max_attempts step <=? attempts step)%Z then
      ("Langkah " +:+ str_of_int (id step) +:+ " gagal setelah "
       +:+ str_of_int (max_attempts step) +:+ " percobaan: " +:+ description step,
       set_error result (set_status Failed step))
    else
      ("Langkah " +:+ str_of_int (id step) +:+ " gagal (percobaan "
       +:+ str_of_int (attempts step) +:+ "/" +:+ str_of_int (max_attempts step)
       +:+ "), akan dicoba lagi",
       set_error result (set_status Pending step)).

(** [reflect(step, result, success)] on the step object at position [i]
    of the plan; the line is appended to the reflection log. *)
Definition reflect (i : nat) (result : string) (success : bool)
    (p : ExecutionPlan) : string * ExecutionPlan :=
  match steps p !! i with
  | Some step =>
      let '(reflection, step') := reflect_step step result success in
      (reflection, log_reflection reflection (set_steps (<[i := step']> (steps p)) p))
  | None => (EmptyString, p)
  end.

(** The first test of [revise_plan]: the missing-dependency category. *)
Definition is_missing_dependency (error_text : string) : bool :=
  let error_lower := lower error_text in
  str_in "no module named" error_lower || str_in "import" error_lower.

Definition is_permission (error_text : string) : bool :=
  let error_lower := lower error_text in
  str_in "permission" error_lower || str_in "access denied" error_lower.

Definition is_syntax (error_text : string) : bool :=
  let error_lower := lower error_text in
  str_in "syntax" error_lower || str_in "syntaxerror" error_lower.

Definition is_connection (error_text : string) : bool :=
  let error_lower := lower error_text in
  str_in "timeout" error_lower || str_in "connection" error_lower.

(** The text that closes the description of every retry step. *)
Definition error_suffix (failed_step : TaskStep) : string :=
  nl +:+ nl +:+ "ERROR SEBELUMNYA:" +:+ nl
  +:+ take 500 (or_else (error failed_step) "Unknown error") +:+ nl
  +:+ "INSTRUKSI: Gunakan pendekatan BERBEDA. Jangan ulangi cara yang sama. "
  +:+ "Kamu dilarang meminta klarifikasi, langsung eksekusi.".

(** [module_name] in the missing-dependency branch. *)
Definition module_name_of (error_text : string) : string :=
  match Patterns.search_module_lower (lower error_text) with
  | Some m => m
  | None => "yang dibutuhkan"
  end.

Definition next_id (p : ExecutionPlan) : Z := Z.of_nat (length (steps p)) + 1.

Definition append_step (s : TaskStep) (p : ExecutionPlan) : ExecutionPlan :=
  set_steps (steps p ++ [s]) p.

Definition browse_step_for (p : ExecutionPlan) (failed_step : TaskStep) : TaskStep :=
  let module_name := module_name_of (error failed_step) in
  new_step (next_id p)
    ("[MULTI-TOOL BROWSE] Cari cara install library '" +:+ module_name
     +:+ "' di Linux/Ubuntu. "
     +:+ "Cari di web: 'how to install " +:+ module_name +:+ " python pip Linux'. "
     +:+ "Catat perintah install yang benar.")
    "web" 2 (dependencies failed_step).

Definition install_retry_description (failed_step : TaskStep) : string :=
  let module_name := module_name_of (error failed_step) in
  "[RECOVERY - INSTALL DEPENDENCY WITH BROWSER INFO] "
  +:+ "Gunakan informasi dari langkah browsing sebelumnya untuk install '"
  +:+ module_name +:+ "'. "
  +:+ "Lalu ulangi tugas asli: " +:+ description failed_step.

(** The fixed table of the generic branch. *)
Definition alternative_agent (agent_type : string) : string :=
  let key := lower agent_type in
  if String.eqb key "coder" then "file"
  else if String.eqb key "file" then "coder"
  else if String.eqb key "web" then "casual"
  else if String.eqb key "casual" then "coder"
  else agent_type.

(** [revise_plan(failed_step)] on the plan of the orchestrator. *)
Definition revise_plan (failed_step : TaskStep) (p : ExecutionPlan)
    : ExecutionPlan :=
  let err := error failed_step in
  if is_missing_dependency err then
    let browse_step := browse_step_for p failed_step in
    let p := append_step browse_step p in
    let retry_step :=
      new_step (next_id p)
        (install_retry_description failed_step +:+ error_suffix failed_step)
        "coder" 2 [DepStr (str_of_int (id browse_step))] in
    append_step retry_step p
  else
    let '(recovery_agent, recovery_description) :=
      if is_permission err then
        ("file",
         "[RECOVERY - FIX PERMISSIONS] "
         +:+ "Perbaiki permission/akses file yang bermasalah, "
         +:+ "lalu ulangi tugas: " +:+ description failed_step)
      else if is_syntax err then
        ("coder",
         "[RECOVERY - FIX SYNTAX] "
         +:+ "Perbaiki syntax error dalam kode. "
         +:+ "Baca file yang bermasalah, identifikasi error syntax, dan perbaiki. "
         +:+ "Tugas asli: " +:+ description failed_step)
      else if is_connection err then
        ("web",
         "[RECOVERY - RETRY CONNECTION] "
         +:+ "Coba lagi dengan query pencarian berbeda atau URL alternatif. "
         +:+ "Tugas asli: " +:+ description failed_step)
      else
        (alternative_agent (agent_type failed_step),
         "[RECOVERY] Coba lagi dengan pendekatan berbeda: "
         +:+ description failed_step) in
    append_step
      (new_step (next_id p)
         (recovery_description +:+ error_suffix failed_step)
         recovery_agent 2 (dependencies failed_step))
      p.

(** [revise_plan] with the guard [if not self.plan: return]. *)
Definition revise_plan_of (self_plan : option ExecutionPlan)
    (failed_step : TaskStep) : option ExecutionPlan :=
  revise_plan failed_step <$> self_plan.

End Reviser.

(* ===================================================================== *)
(** ** orchestrator.py: the run controller *)
(* ===================================================================== *)

(** One element of [agent_tasks]: the dictionary [task_info] with its
    optional keys; [need] is a string or a list. *)
Inductive Need := NeedStr (s : string) | NeedList (l : list DepId).

Record TaskInfo := mkTaskInfo {
  need : option Need;
  task : option string;
  agent_tag : option string
}.

Definition deadlock_error : string :=
  "Dependency deadlock: langkah yang dibutuhkan gagal".

Module Controller.

Import Text.

(** [d[k] = v] on a dictionary kept in insertion order. *)
Fixpoint dict_set (k v : string) (d : list (string * string))
    : list (string * string) :=
  match d with
  | [] => [(k, v)]
  | (k', v') :: r =>
      if String.eqb k' k then (k, v) :: r else (k', v') :: dict_set k v r
  end.

Definition deps_of (n : option Need) : list DepId :=
  match n with
  | None => []
  | Some (NeedStr EmptyString) => []
  | Some (NeedStr s) => [DepStr s]
  | Some (NeedList l) => l
  end.

(** The loop of [create_plan_from_tasks]; [i] is the index of
    [enumerate]. *)
Fixpoint steps_from (i : Z) (agent_tasks : list (string * TaskInfo))
    : list TaskStep :=
  match agent_tasks with
  | [] => []
  | (task_name, task_info) :: rest =>
      new_step (i + 1)
        (default task_name (task task_info))
        (default "coder" (agent_tag task_info))
        default_max_attempts
        (deps_of (need task_info))
      :: steps_from (i + 1) rest
  end.

(** [create_plan_from_tasks] *)
Definition create_plan_from_tasks (goal : string)
    (agent_tasks : list (string * TaskInfo)) : ExecutionPlan :=
  {| goal := goal; steps := steps_from 0 agent_tasks; current_step := 0;
     completed := false; reflection_log := [] |}.

(** The deadlock branch of [run_loop]. *)
Definition mark_deadlocked (p : ExecutionPlan) : ExecutionPlan :=
  set_steps
    (map (fun s => if bool_decide (status s = Pending)
                   then set_error deadlock_error (set_status Failed s)
                   else s)
         (steps p))
    p.

Definition has_pending (p : ExecutionPlan) : bool :=
  existsb (fun s => bool_decide (status s = Pending)) (steps p).

(** [str(prev_step.id) in step.dependencies] *)
Definition names (step : TaskStep) (prev_step : TaskStep) : bool :=
  existsb (fun d => match d with
                    | DepStr s => String.eqb s (str_of_int (id prev_step))
                    | DepInt _ => false
                    end)
          (dependencies step).

Definition collect (keep : TaskStep -> bool) (n : nat) (p : ExecutionPlan)
    : list (string * string) :=
  fold_left
    (fun d prev_step =>
       if keep prev_step && bool_decide (status prev_step = Completed)
       then dict_set (str_of_int (id prev_step)) (take n (result prev_step)) d
       else d)
    (steps p) [].

(** [required_infos] as [run_loop] builds it. *)
Definition required_infos (p : ExecutionPlan) (step : TaskStep)
    : list (string * string) :=
  match collect (names step) 500 p with
  | [] => collect (fun prev_step => (id prev_step <? id step)%Z) 300 p
  | d => d
  end.

Definition icon (st : Status) : string :=
  match st with
  | Pending => "..."
  | Completed => "[OK]"
  | Failed => "[X]"
  | Running => "[~]"
  end.

Definition upper_char (c : ascii) : ascii :=
  if is_lower c then ascii_of_N (code c - 32) else c.

Fixpoint upper (s : string) : string :=
  match s with
  | EmptyString => EmptyString
  | String c r => String (upper_char c) (upper r)
  end.

Section Run.

Context {W : Type}.

Variable agents : list (string * @Orchestrator.Worker W).
Variable get_context_for_prompt : string -> W -> string.
Variable store_fact : string -> string -> string -> W -> W.
Variable store_project : string -> string -> string -> W -> W.
Variable _gather_rich_context : ExecutionPlan -> string.

(** The clock: whether the elapsed time is positive, and its
    rendering with one decimal. *)
Variable elapsed_positive : W -> bool.
Variable elapsed_1f : W -> string.

(** What [_visual_verification] does once its two guards have passed:
    it inspects the files of the work directory and the browser. *)
Variable inspect_site : string -> W -> option string * W.

Abbreviation Orch := (@Orchestrator.Orch W).
Abbreviation execute_step :=
  (Orchestrator.execute_step agents get_context_for_prompt store_fact
     _gather_rich_context).

(** The local variables of [run_loop] with the orchestrator. The last
    three fields are ghost logs: the plan after every mutation, the
    outcome of every dispatch, and the steps handed to [revise_plan]. *)
Record Loop := mkLoop {
  orch : Orch;
  iteration : Z;
  consecutive_failures : Z;
  work_results : list (string * string);
  final_answer : string;
  snapshots : list ExecutionPlan;
  dispatches : list (Z * bool);
  revisions : list Z
}.

Inductive Step :=
  | Continue (st : Loop)
  | Break (st : Loop)
  | Raise (e : Fault) (st : Loop).

Definition plan_of (st : Loop) : ExecutionPlan := Orchestrator.plan (orch st).

(** One pass through the body of the [while] loop. *)
Definition loop_body (st : Loop) : Step :=
  let p := plan_of st in
  match Scheduler.next_index p with
  | None =>
      if has_pending p then
        let o := Orchestrator.with_plan mark_deadlocked (orch st) in
        Break {| orch := o; iteration := iteration st;
                 consecutive_failures := consecutive_failures st;
                 work_results := work_results st;
                 final_answer := final_answer st;
                 snapshots := snapshots st ++ [Orchestrator.plan o];
                 dispatches := dispatches st;
                 revisions := revisions st |}
      else Break st
  | Some (i, step) =>
      let iteration := (iteration st + 1)%Z in
      match execute_step i step (required_infos p step) (orch st) with
      | (inl e, o1) =>
          Raise e {| orch := o1; iteration := iteration;
                     consecutive_failures := consecutive_failures st;
                     work_results := work_results st;
                     final_answer := final_answer st;
                     snapshots := snapshots st ++ [Orchestrator.plan o1];
                     dispatches := dispatches st;
                     revisions := revisions st |}
      | (inr (result, success), o1) =>
          let o2 :=
            Orchestrator.with_plan
              (fun p => snd (Reviser.reflect i result success p)) o1 in
          let step := default step (steps (Orchestrator.plan o2) !! i) in
          let consecutive_failures :=
            if success then 0%Z else (consecutive_failures st + 1)%Z in
          let revise :=
            negb success && bool_decide (status step = Failed)
            && (consecutive_failures <? 3)%Z in
          let o3 :=
            if revise
            then Orchestrator.with_plan (Reviser.revise_plan step) o2
            else o2 in
          Continue
            {| orch := o3; iteration := iteration;
               consecutive_failures := consecutive_failures;
               work_results :=
                 dict_set (str_of_int (id step)) result (work_results st);
               final_answer := if success then result else final_answer st;
               snapshots :=
                 snapshots st
                 ++ [Orchestrator.plan o1; Orchestrator.plan o2;
                     Orchestrator.plan o3];
               dispatches := dispatches st ++ [(id step, success)];
               revisions :=
                 if revise then revisions st ++ [id step] else revisions st |}
      end
  end.

Inductive Ended :=
  | Finished (st : Loop)
  | Faulted (e : Fault) (st : Loop)
  | OutOfFuel.

(** [while not plan.is_complete() and iteration < max_iterations] *)
Fixpoint while_loop (fuel : nat) (max_iterations : Z) (st : Loop) : Ended :=
  if negb (Scheduler.is_complete (plan_of st))
     && (iteration st <? max_iterations)%Z
  then
    match fuel with
    | O => OutOfFuel
    | S fuel' =>
        match loop_body st with
        | Continue st' => while_loop fuel' max_iterations st'
        | Break st' => Finished st'
        | Raise e st' => Faulted e st'
        end
    end
  else Finished st.

(** [ExecutionPlan.get_progress_text] *)
Definition get_progress_text (p : ExecutionPlan) (w : W) : string :=
  let lines :=
    ("**Rencana: " +:+ goal p +:+ "**" +:+ nl)
    :: map (fun step =>
              icon (status step) +:+ " Langkah " +:+ str_of_int (id step)
              +:+ ": [" +:+ upper (agent_type step) +:+ "] "
              +:+ description step +:+ " (" +:+ status_text (status step) +:+ ")")
           (steps p) in
  let lines :=
    if elapsed_positive w
    then (lines ++ [nl +:+ "Waktu: " +:+ elapsed_1f w +:+ "s"])%list
    else lines in
  join nl lines.

Definition website_keywords : list string :=
  [ "website"; "web"; "html"; "landing"; "page"; "dashboard";
    "portfolio"; "blog"; "toko"; "shop"; "e-commerce"; "frontend";
    "halaman"; "situs"; "tampilan" ].

(** [_visual_verification]: the two guards, then the inspection. *)
Definition _visual_verification (goal : string) (w : W) : option string * W :=
  if negb (existsb (fun kw => str_in kw (lower goal)) website_keywords)
  then (None, w)
  else if negb (Orchestrator.has_agent agents "web") then (None, w)
  else inspect_site goal w.

(** The text assembled at the end of [run_loop]. [elapsed] is the
    rendering of the local [elapsed], for which the clock was read
    before the project was stored; [get_progress_text] reads the clock
    again, in the world [w] in which the text is assembled. *)
Definition summary (p : ExecutionPlan) (final_answer elapsed : string) (w : W)
    : string :=
  let done := Scheduler.count_status Completed p in
  let total := length (steps p) in
  let summary_lines :=
    [ get_progress_text p w; nl +:+ "---" +:+ nl;
      "**Hasil:** " +:+ str_of_int (Z.of_nat done) +:+ "/"
      +:+ str_of_int (Z.of_nat total) +:+ " langkah selesai dalam "
      +:+ elapsed +:+ " detik" ] in
  let summary_lines :=
    match reflection_log p with
    | [] => summary_lines
    | log =>
        (summary_lines ++ [nl +:+ "**Log refleksi:**"]
         ++ map (fun log_entry => "  - " +:+ log_entry)
                (skipn (length log - 5) log))%list
    end in
  let summary_lines :=
    match final_answer with
    | EmptyString => summary_lines
    | _ => (summary_lines
            ++ [nl +:+ nl +:+ "**Hasil akhir:**" +:+ nl +:+ final_answer])%list
    end in
  join nl summary_lines.

(** How a run ends: with the summary it returns, with an exception
    that leaves [run_loop], or (for the model only) out of fuel. *)
Inductive RunResult :=
  | Summary (text : string) (st : Loop)
  | Escaped (e : Fault + string) (st : Loop)
  | Unfinished.

(** The state in which [run_loop] enters its loop, on the orchestrator
    [o] as it is when [run_loop] is called: [self.plan] is the plan just
    built and the locals have their first values, but
    [self.execution_memory] is what it was, since it is assigned in
    [__init__] only and [run_loop] does not clear it. The ghost logs
    start with the run. *)
Definition initial (p : ExecutionPlan) (o : Orch) : Loop :=
  {| orch :=
       Orchestrator.mkOrch p (Orchestrator.execution_memory o) []
         (Orchestrator.world o);
     iteration := 0;
     consecutive_failures := 0; work_results := []; final_answer := EmptyString;
     snapshots := [p]; dispatches := []; revisions := [] |}.

Definition max_iterations_of (p : ExecutionPlan) : Z :=
  Z.of_nat (length (steps p)) * 4.

(** What follows the [while] loop. *)
Definition conclude (goal : string) (st : Loop) : RunResult :=
  let o := orch st in
  let '(visual_fix_prompt, w) := _visual_verification goal (Orchestrator.world o) in
  let o := Orchestrator.with_world (fun _ => w) o in
  let fixed :=
    match visual_fix_prompt, Orchestrator.agent_of agents "coder" with
    | Some (String _ _ as prompt), Some coder =>
        match Orchestrator.call "coder" coder prompt o with
        | (Returned fix_answer ok, o') =>
            inr (if ok then fix_answer else final_answer st, o')
        | (Raised msg, o') => inl (msg, o')
        end
    | _, _ => inr (final_answer st, o)
    end in
  match fixed with
  | inl (msg, o') =>
      Escaped (inr msg)
        {| orch := o'; iteration := iteration st;
           consecutive_failures := consecutive_failures st;
           work_results := work_results st; final_answer := final_answer st;
           snapshots := snapshots st; dispatches := dispatches st;
           revisions := revisions st |}
  | inr (answer, o') =>
      let p := Orchestrator.plan o' in
      let done := Scheduler.count_status Completed p in
      let total := length (steps p) in
      let elapsed := elapsed_1f (Orchestrator.world o') in
      let o' :=
        Orchestrator.with_world
          (store_project (take 100 goal)
             (str_of_int (Z.of_nat done) +:+ "/" +:+ str_of_int (Z.of_nat total)
              +:+ " langkah berhasil")
             (if Nat.eqb done total then "completed" else "partial")) o' in
      Summary (summary p answer elapsed (Orchestrator.world o'))
        {| orch := o'; iteration := iteration st;
           consecutive_failures := consecutive_failures st;
           work_results := work_results st; final_answer := answer;
           snapshots := snapshots st; dispatches := dispatches st;
           revisions := revisions st |}
  end.

(** [run_loop(goal, agent_tasks)] on the orchestrator [o] *)
Definition run_loop (fuel : nat) (goal : string)
    (agent_tasks : list (string * TaskInfo)) (o : Orch) : RunResult :=
  let p := create_plan_from_tasks goal agent_tasks in
  match while_loop fuel (max_iterations_of p) (initial p o) with
  | Finished st => conclude goal st
  | Faulted e st => Escaped (inl e) st
  | OutOfFuel => Unfinished
  end.

(** The fuel that the loop of a plan can use at most. *)
Definition enough_fuel (agent_tasks : list (string * TaskInfo)) : nat :=
  4 * length agent_tasks.

End Run.

End Controller.

(* ===================================================================== *)
(** ** code_agent.py: the self-correction loop *)
(* ===================================================================== *)

(** What the loop does to its collaborators, in order (a ghost trace). *)
Inductive Event :=
  | Pip (pkg_name : string) (ok : bool)
      (** [terminal.install_package(pkg_name)] and its [success] field *)
  | AutoInstall (error_text : string) (ok : bool)
      (** [_auto_install_from_error(error_text)] returned [ok] *)
  | Browse (package_name info : string)
      (** [_browse_for_install_help] queried the browser and returned [info] *)
  | Request (answer : string)
      (** [llm_request()] returned [answer] *)
  | Execute (answer : string) (ok : bool) (feedback : string).
      (** the regenerated answer was executed *)

Module SelfCorrection.

Import Text.

Definition pkg_map : list (string * string) :=
  [ ("bs4", "beautifulsoup4"); ("cv2", "opencv-python"); ("PIL", "Pillow");
    ("sklearn", "scikit-learn"); ("yaml", "pyyaml"); ("dotenv", "python-dotenv");
    ("gi", "PyGObject"); ("lxml", "lxml"); ("matplotlib", "matplotlib");
    ("pandas", "pandas"); ("scipy", "scipy"); ("seaborn", "seaborn") ].

(** [pkg_map.get(module_name, module_name)] *)
Definition pkg_name_of (module_name : string) : string :=
  match List.find (fun kv => String.eqb (fst kv) module_name) pkg_map with
  | Some (_, pkg) => pkg
  | None => module_name
  end.

(** [_build_self_correction_prompt] *)
Definition _build_self_correction_prompt (error_log : string)
    (correction_attempt max_corrections : Z) (browser_info : string) : string :=
  let browser_context :=
    match browser_info with
    | EmptyString => EmptyString
    | _ =>
        nl +:+ nl +:+ "🌐 INFORMASI DARI WEB BROWSER:" +:+ nl +:+ browser_info +:+ nl
        +:+ "Gunakan informasi di atas untuk memperbaiki kode." +:+ nl
    end in
  "🔄 SELF-CORRECTION MODE (perbaikan " +:+ str_of_int correction_attempt
  +:+ "/" +:+ str_of_int max_corrections +:+ ")" +:+ nl +:+ nl
  +:+ "Output sebelumnya mengandung ERROR:" +:+ nl
  +:+ "```" +:+ nl +:+ take 1500 error_log +:+ nl +:+ "```" +:+ nl +:+ nl
  +:+ browser_context
  +:+ "INSTRUKSI SELF-CORRECTION:" +:+ nl
  +:+ "1. Analisis error log di atas dengan TELITI" +:+ nl
  +:+ "2. Identifikasi AKAR PENYEBAB error" +:+ nl
  +:+ "3. Tulis ULANG kode yang SUDAH DIPERBAIKI secara LENGKAP" +:+ nl
  +:+ "4. Pastikan SEMUA import, syntax, dan logika benar" +:+ nl
  +:+ "5. Jika error berulang pada percobaan sebelumnya, GANTI PENDEKATAN sepenuhnya" +:+ nl
  +:+ "6. JANGAN jelaskan errornya, LANGSUNG tulis kode perbaikan" +:+ nl
  +:+ "7. INGAT: TANPA app.run(), TANPA Tkinter, TANPA server start" +:+ nl
  +:+ "8. Kamu HARUS menulis kode dalam blok ```bahasa:namafile".

Section Agent.

Context {W : Type}.

(** The language model answers from the conversation memory. *)
Variable llm_request : list (string * string) -> W -> string * W.

(** [execute_modules_with_sandbox] or [execute_modules], whichever
    [use_sandbox] selects: the execution collaborator. It returns the
    success flag and the feedback text. It pushes texts to the
    conversation memory of the agent (the feedback of a block that it
    ran or saved, under the role [user]), and it may install packages
    on its own: it hands back the entries that it pushed, in order, and
    the set of installed packages. *)
Variable execute_modules :
  string -> gset string -> W
  -> (bool * string) * list (string * string) * gset string * W.

(** [self.terminal.install_package(pkg_name)['success']] *)
Variable install_package : string -> W -> bool * W.

(** The fields of the [CoderAgent] that the loop uses, with the ghost
    trace. *)
Record Agent := mkAgent {
  installed_packages : gset string;
  browser_agent : option (string -> W -> Outcome * W);
  self_correction_max : Z;
  memory : list (string * string);
  trace : list Event;
  world : W
}.

Definition emit (e : Event) (a : Agent) : Agent :=
  {| installed_packages := installed_packages a; browser_agent := browser_agent a;
     self_correction_max := self_correction_max a; memory := memory a;
     trace := trace a ++ [e]; world := world a |}.

Definition set_world (w : W) (a : Agent) : Agent :=
  {| installed_packages := installed_packages a; browser_agent := browser_agent a;
     self_correction_max := self_correction_max a; memory := memory a;
     trace := trace a; world := w |}.

Definition set_installed (pk : gset string) (a : Agent) : Agent :=
  {| installed_packages := pk; browser_agent := browser_agent a;
     self_correction_max := self_correction_max a; memory := memory a;
     trace := trace a; world := world a |}.

(** [self.memory.push(role, text)] *)
Definition push (role text : string) (a : Agent) : Agent :=
  {| installed_packages := installed_packages a; browser_agent := browser_agent a;
     self_correction_max := self_correction_max a;
     memory := memory a ++ [(role, text)];
     trace := trace a; world := world a |}.

(** The entries that the executor pushed reach the memory. *)
Definition push_all (entries : list (string * string)) (a : Agent) : Agent :=
  {| installed_packages := installed_packages a; browser_agent := browser_agent a;
     self_correction_max := self_correction_max a;
     memory := memory a ++ entries;
     trace := trace a; world := world a |}.

(** [_auto_install_from_error] *)
Definition _auto_install_from_error (error_text : string) (a : Agent)
    : bool * Agent :=
  let '(ok, a) :=
    match Patterns.search_quoted_module error_text with
    | None => (false, a)
    | Some m =>
        let module_name := before_dot m in
        if bool_decide (module_name ∈ installed_packages a) then (false, a)
        else
          let pkg_name := pkg_name_of module_name in
          let '(ok, w) := install_package pkg_name (world a) in
          let a := emit (Pip pkg_name ok) (set_world w a) in
          if ok
          then (true, set_installed ({[module_name]} ∪ installed_packages a) a)
          else (false, a)
    end in
  (ok, emit (AutoInstall error_text ok) a).

(** [_browse_for_install_help] *)
Definition _browse_for_install_help (package_name error_text : string)
    (a : Agent) : string * Agent :=
  match browser_agent a with
  | None => (EmptyString, a)
  | Some browser =>
      let search_query :=
        "how to install " +:+ package_name +:+ " on Linux Ubuntu pip python" in
      let '(out, w) := browser search_query (world a) in
      let info :=
        match out with
        | Returned (String _ _ as answer) _ => take 1000 answer
        | _ => EmptyString
        end in
      (info, emit (Browse package_name info) (set_world w a))
  end.

(** The remediation block at the head of one attempt: the result is
    [browser_info]. *)
Definition remediate (current_feedback : string) (a : Agent) : string * Agent :=
  let feedback_lower := lower current_feedback in
  if str_in "no module named" feedback_lower
     || str_in "modulenotfounderror" feedback_lower
  then
    match Patterns.search_quoted_module current_feedback with
    | Some m =>
        let pkg_name := before_dot m in
        let '(install_ok, a) := _auto_install_from_error current_feedback a in
        if negb install_ok
           && match browser_agent a with Some _ => true | None => false end
        then _browse_for_install_help pkg_name current_feedback a
        else (EmptyString, a)
    | None => (EmptyString, a)
    end
  else (EmptyString, a).

(** The [while] loop of [_self_correct_execution], entered with the
    counter [correction_attempt]. *)
Fixpoint correct_from (fuel : nat) (correction_attempt : Z)
    (current_feedback last_answer : string) (a : Agent)
    : option ((bool * string * string) * Agent) :=
  if (correction_attempt <? self_correction_max a)%Z then
    match fuel with
    | O => None
    | S fuel =>
        let correction_attempt := (correction_attempt + 1)%Z in
        let '(browser_info, a) := remediate current_feedback a in
        let correction_prompt :=
          _build_self_correction_prompt current_feedback correction_attempt
            (self_correction_max a) browser_info in
        let a := push "user" correction_prompt a in
        let '(answer, w) := llm_request (memory a) (world a) in
        let a := emit (Request answer) (set_world w a) in
        if negb (str_in "```" answer) then
          correct_from fuel correction_attempt current_feedback last_answer a
        else
          let '(exec_success, feedback, pushed, pk, w) :=
            execute_modules answer (installed_packages a) (world a) in
          let a :=
            emit (Execute answer exec_success feedback)
                 (set_installed pk (set_world w (push_all pushed a))) in
          if exec_success && negb (Coder._has_error_in_output (Some feedback))
          then Some ((true, answer, feedback), a)
          else correct_from fuel correction_attempt feedback answer a
    end
  else Some ((false, last_answer, current_feedback), a).

(** [_self_correct_execution(original_answer, error_feedback)] *)
Definition _self_correct_execution (original_answer error_feedback : string)
    (a : Agent) : option ((bool * string * string) * Agent) :=
  correct_from (Z.to_nat (self_correction_max a)) 0
    error_feedback original_answer a.

End Agent.

End SelfCorrection.

(* ===================================================================== *)
(** ** code_agent.py: the attempts of [process] *)
(* ===================================================================== *)

Module Process.

Import Text SelfCorrection.

(** [add_sys_info_prompt]; the data of [platform], the work directory
    and the templates of the scaffolder (key and name) are given. *)
Definition add_sys_info_prompt (system release python_version work_dir : string)
    (templates : list (string * string)) (prompt : string) : string :=
  let templates_info :=
    join ", " (map (fun t => fst t +:+ " (" +:+ snd t +:+ ")") templates) in
  let info :=
    "System Info:" +:+ nl +:+ "OS: " +:+ system +:+ " " +:+ release +:+ nl
    +:+ "Python Version: " +:+ python_version +:+ nl
    +:+ "Environment: Server headless (tanpa display/GUI)" +:+ nl
    +:+ "Direktori kerja: " +:+ work_dir +:+ nl
    +:+ "Library tersedia: flask, requests, beautifulsoup4, numpy, sqlite3, json, csv, dan library standar Python"
    +:+ nl
    +:+ "Package manager: pip install, npm install, yarn add (SEMUA DIIZINKAN)"
    +:+ nl +:+ nl +:+ "MODE AUTONOMOUS FULL-STACK AKTIF:" +:+ nl
    +:+ "- Kamu adalah AI Agent Autonomous Full-Stack Developer. LANGSUNG kerjakan tanpa bertanya."
    +:+ nl
    +:+ "- Kamu BISA install package: pip install, npm install, yarn add - semua diizinkan dan berjalan."
    +:+ nl
    +:+ "- Kamu BISA menjalankan: npx, npm init, git, curl, wget, dan command bash lainnya."
    +:+ nl +:+ "- Simpan file dengan format ```bahasa:namafile" +:+ nl
    +:+ "- JANGAN tulis app.run(), uvicorn.run(), atau menjalankan server"
    +:+ nl +:+ "- Port 5000 SUDAH DIGUNAKAN. JANGAN bind ke port 5000" +:+ nl
    +:+ "- JANGAN gunakan Tkinter/GUI desktop (headless)" +:+ nl
    +:+ "- Untuk website: buat HTML statis lengkap (HTML+CSS+JS) atau full-stack (Flask/FastAPI + Frontend)"
    +:+ nl +:+ "- Untuk backend: simpan file tanpa app.run()" +:+ nl
    +:+ "- SELALU buat kode LENGKAP, FUNGSIONAL, dan SIAP PAKAI" +:+ nl
    +:+ "- JANGAN jelaskan, LANGSUNG tulis kode" +:+ nl
    +:+ "- Template project tersedia: " +:+ templates_info +:+ nl
    +:+ "- Untuk full-stack: buat backend (Flask/FastAPI) + frontend (HTML/CSS/JS) + database (SQLite)" in
  prompt +:+ nl +:+ nl +:+ info.

(** [_build_debug_prompt] *)
Definition _build_debug_prompt (feedback : string) (attempt max_attempts : Z)
    : string :=
  let feedback_lower := lower feedback in
  let hints :=
    if str_in "port" feedback_lower
       && (str_in "in use" feedback_lower || str_in "already" feedback_lower)
    then
      nl +:+ "⛔ HINT: Error 'port in use' karena kamu menjalankan server."
      +:+ nl
      +:+ "SOLUSI: HAPUS app.run() dan semua kode server. Simpan file saja."
      +:+ nl
      +:+ "Untuk website: buat HTML statis lengkap (HTML+CSS+JS dalam satu file)."
      +:+ nl
    else if str_in "no module named" feedback_lower
            || str_in "modulenotfounderror" feedback_lower
    then
      nl +:+ "📦 HINT: Module otomatis diinstall. Jika masih gagal:" +:+ nl
      +:+ "SOLUSI: Gunakan library standar Python atau alternatif yang tersedia."
      +:+ nl
      +:+ "Tersedia: flask, requests, bs4, numpy, sqlite3, json, csv, math, random, datetime, os, sys."
      +:+ nl
    else if str_in "tkinter" feedback_lower || str_in "display" feedback_lower
            || str_in "no display" feedback_lower
    then
      nl +:+ "🖥️ HINT: Lingkungan headless tanpa GUI." +:+ nl
      +:+ "SOLUSI: JANGAN gunakan Tkinter/PyQt/GUI. Buat sebagai website HTML statis."
      +:+ nl
    else if str_in "address already in use" feedback_lower
    then
      nl +:+ "🔌 HINT: Port sudah digunakan." +:+ nl
      +:+ "SOLUSI: JANGAN jalankan server. Buat file HTML statis." +:+ nl
    else if str_in "permission denied" feedback_lower
    then
      nl +:+ "🔒 HINT: Permission denied." +:+ nl
      +:+ "SOLUSI: Pastikan menulis file di direktori kerja, bukan system directories."
      +:+ nl
    else if str_in "syntax" feedback_lower
    then
      nl +:+ "📝 HINT: Syntax error ditemukan." +:+ nl
      +:+ "SOLUSI: Periksa indentasi, tanda kurung, kutip, dan titik koma."
      +:+ nl
    else EmptyString in
  "🔧 AUTONOMOUS DEBUG MODE (percobaan " +:+ str_of_int attempt +:+ "/"
  +:+ str_of_int max_attempts +:+ ")" +:+ nl +:+ "Error yang terjadi:" +:+ nl
  +:+ feedback +:+ nl +:+ nl +:+ hints +:+ "INSTRUKSI MANDIRI:" +:+ nl
  +:+ "1. BACA error message - identifikasi AKAR masalah" +:+ nl
  +:+ "2. TULIS ULANG kode yang SUDAH DIPERBAIKI secara LENGKAP" +:+ nl
  +:+ "3. Pastikan semua import dan syntax benar" +:+ nl
  +:+ "4. Jika error berulang, GANTI PENDEKATAN sepenuhnya" +:+ nl
  +:+ "5. JANGAN jelaskan, LANGSUNG tulis kode yang diperbaiki" +:+ nl
  +:+ "6. INGAT: TANPA app.run(), TANPA Tkinter, TANPA server start".

Definition max_attempts : Z := 7.

Definition clarify_trigger : string := "REQUEST_CLARIFICATION".

(** The words of which one must occur in the lower-case prompt for an
    answer without code to be sent back. *)
Definition code_keywords : list string :=
  [ "buatkan"; "buat "; "create"; "make"; "write"; "build"; "coding";
    "website"; "aplikasi"; "program"; "script"; "game"; "kalkulator";
    "deploy"; "full stack"; "fullstack"; "api"; "server"; "debug";
    "perbaiki"; "fix"; "error"; "todo"; "landing"; "page"; "dashboard";
    "form"; "login"; "register"; "portfolio"; "blog"; "toko"; "shop";
    "e-commerce"; "chat"; "bot" ].

(** The message pushed when an answer holds no code block. *)
Definition code_order : string :=
  "PERINTAH: Kamu BELUM menulis kode. Sebagai AI Autonomous, kamu WAJIB langsung menulis kode LENGKAP sekarang."
  +:+ nl +:+ "Format: ```bahasa:namafile.ext" +:+ nl
  +:+ "Contoh: ```python:app.py atau ```html:index.html" +:+ nl
  +:+ "JANGAN jelaskan. JANGAN bertanya. LANGSUNG tulis seluruh kode yang dibutuhkan.".

Definition apology : string :=
  "Saya sudah mencoba beberapa kali tapi masih ada kendala. Coba berikan detail lebih lanjut agar saya bisa memperbaikinya.".

(** What [process] gives back: the pair [answer, reasoning], or the
    exception raised when the local variable [name] is read before any
    assignment. *)
Inductive Reply :=
  | Answered (answer reasoning : string)
  | UnboundLocalError (name : string).

(** What one pass of the loop of [process] did (a ghost log). *)
Inductive Turn :=
  | Asked (answer : string)
      (** the request to the language model and its answer *)
  | Ordered
      (** the answer held no code and the order to write code was pushed *)
  | Ran (answer : string) (ok : bool) (feedback : string)
      (** the execution of the blocks of the answer *)
  | Corrected (ok : bool)
      (** one call of [_self_correct_execution] and its success flag *)
  | Debugged (attempt : Z).
      (** the debug prompt of a failed attempt was pushed *)

Section Worker.

Context {W : Type}.

(** The language model: the answer and the reasoning. *)
Variable llm_request : list (string * string) -> W -> (string * string) * W.

(** The executor, with the entries that it pushes to the memory. *)
Variable execute_modules :
  string -> gset string -> W
  -> (bool * string) * list (string * string) * gset string * W.
Variable install_package : string -> W -> bool * W.

(** [self.stop], which another task may set while the worker waits. *)
Variable stop : W -> bool.

(** [_verify_saved_files] reads the work directory; [remove_blocks]
    belongs to the base class. *)
Variable _verify_saved_files : string -> W -> string.
Variable remove_blocks : string -> string.

Variables system release python_version work_dir : string.
Variable templates : list (string * string).

(** The worker with [self.last_answer] and the ghost log. *)
Record Proc := mkProc {
  coder : @Agent W;
  last_answer : string;
  turns : list Turn
}.

Definition with_coder (a : @Agent W) (p : Proc) : Proc :=
  {| coder := a; last_answer := last_answer p; turns := turns p |}.

Definition set_last (answer : string) (p : Proc) : Proc :=
  {| coder := coder p; last_answer := answer; turns := turns p |}.

Definition note (t : Turn) (p : Proc) : Proc :=
  {| coder := coder p; last_answer := last_answer p; turns := turns p ++ [t] |}.

(** The request as [_self_correct_execution] makes it: the reasoning
    goes to [self.last_reasoning] only. *)
Definition llm_answer (m : list (string * string)) (w : W) : string * W :=
  let '((answer, _), w') := llm_request m w in (answer, w').

(** The two tests that start [_self_correct_execution] within one
    attempt; the state is [(exec_success, answer, feedback)]. *)
Definition correct_when (trigger : bool) (st : bool * string * string)
    (p : Proc) : option ((bool * string * string) * Proc) :=
  let '(exec_success, answer, feedback) := st in
  if trigger then
    match _self_correct_execution llm_answer execute_modules install_package
            answer feedback (coder p) with
    | Some ((sc_success, sc_answer, sc_feedback), a) =>
        Some ((sc_success, sc_answer, sc_feedback),
              note (Corrected sc_success) (with_coder a p))
    | None => None
    end
  else Some (st, p).

(** What follows the [while] loop. *)
Definition after_loop (attempt : Z) (answer : string)
    (reasoning : option string) (p : Proc) : Reply * Proc :=
  if (attempt =? max_attempts)%Z then
    match reasoning with
    | Some r => (Answered apology r, p)
    | None => (UnboundLocalError "reasoning", p)
    end
  else
    let p := set_last answer p in
    match reasoning with
    | Some r => (Answered answer r, p)
    | None => (UnboundLocalError "reasoning", p)
    end.

(** The [while] loop of [process]. *)
Fixpoint attempts_loop (fuel : nat) (original_prompt : string)
    (attempt no_code_retries : Z) (answer : string)
    (reasoning : option string) (p : Proc) : option (Reply * Proc) :=
  if (attempt <? max_attempts)%Z && negb (stop (world (coder p))) then
    match fuel with
    | O => None
    | S fuel =>
        let '((answer, r), w) :=
          llm_request (memory (coder p)) (world (coder p)) in
        let reasoning := Some r in
        let p := note (Asked answer) (with_coder (set_world w (coder p)) p) in
        if str_in clarify_trigger answer then
          Some (Answered answer r, set_last answer p)
        else if negb (str_in "```" answer) then
          if (no_code_retries <? 3)%Z
             && existsb (fun kw => str_in kw (lower original_prompt)) code_keywords
          then
            let p := note Ordered (with_coder (push "user" code_order (coder p)) p) in
            attempts_loop fuel original_prompt (attempt + 1) (no_code_retries + 1)
              answer reasoning p
          else Some (after_loop attempt answer reasoning (set_last answer p))
        else
          let '(exec_success, feedback, pushed, pk, w) :=
            execute_modules answer (installed_packages (coder p))
              (world (coder p)) in
          let p :=
            note (Ran answer exec_success feedback)
              (with_coder
                 (set_installed pk (set_world w (push_all pushed (coder p))))
                 p) in
          match correct_when
                  (exec_success && Coder._has_error_in_output (Some feedback))
                  (exec_success, answer, feedback) p with
          | None => None
          | Some ((exec_success, answer, feedback), p) =>
              match correct_when
                      (negb exec_success
                       && negb (Coder._has_error_in_output (Some feedback)))
                      (exec_success, answer, feedback) p with
              | None => None
              | Some ((exec_success, answer, feedback), p) =>
                  let verification :=
                    if exec_success
                    then _verify_saved_files answer (world (coder p))
                    else EmptyString in
                  let answer := remove_blocks answer in
                  let answer :=
                    match verification with
                    | EmptyString => answer
                    | _ => answer +:+ nl +:+ verification
                    end in
                  let p := set_last answer p in
                  if exec_success
                  then Some (after_loop attempt answer reasoning p)
                  else
                    let debug_prompt :=
                      _build_debug_prompt feedback (attempt + 1) max_attempts in
                    let p :=
                      note (Debugged (attempt + 1))
                        (with_coder (push "user" debug_prompt (coder p)) p) in
                    attempts_loop fuel original_prompt (attempt + 1) 0
                      answer reasoning p
              end
          end
    end
  else Some (after_loop attempt answer reasoning p).

(** [process(prompt, speech_module)] *)
Definition process (prompt : string) (p : Proc) : option (Reply * Proc) :=
  let prompt :=
    add_sys_info_prompt system release python_version work_dir templates prompt in
  let p := with_coder (push "user" prompt (coder p)) p in
  attempts_loop (Z.to_nat max_attempts) prompt 0 0 EmptyString None p.

End Worker.

End Process.

(* ===================================================================== *)
(** ** code_agent.py: running the blocks of an answer *)
(* ===================================================================== *)

Module Executor.

Import Text SelfCorrection.

(** The keys of [self.tools], in the order in which [__init__] inserts
    them. *)
Definition tool_names : list string :=
  [ "bash"; "python"; "c"; "go"; "java"; "html"; "css"; "javascript";
    "typescript"; "sql"; "file_finder" ].

(** [_is_save_only_language] *)
Definition _is_save_only_language (name : string) : bool :=
  existsb (String.eqb name)
    [ "c"; "go"; "java"; "html"; "css"; "javascript"; "typescript"; "sql" ].

(** [name in ('python', 'bash')] *)
Definition sandboxed (name : string) : bool :=
  existsb (String.eqb name) [ "python"; "bash" ].

(** [executorResult(block, feedback, success, tool_type, save_path)] *)
Record executorResult := mkResult {
  block : string;
  feedback : string;
  success : bool;
  tool_type : string;
  save_path : option string
}.

(** What the routine does to the tools and to the sandbox, in order (a
    ghost log). *)
Inductive Action :=
  | Saved (name path : string)
  | SandboxRun (name code : string) (ok : bool) (text : string)
  | ToolRun (name code : string) (ok : bool) (text : string).

Section Tools.

Context {W : Type}.

(** The tools: [load_exec_block] gives the blocks and the path to save
    them at, each of which may be [None]. *)
Variable load_exec_block : string -> string -> option (list string) * option string.
Variable save_block : string -> list string -> string -> W -> W.
Variable tool_execute : string -> string -> W -> string * W.
Variable interpreter_feedback : string -> string -> string.
Variable execution_failure_check : string -> string -> bool.

(** Whether [self.sandbox] is there, and [self.sandbox.run] followed by
    [format_result]: the success flag and the feedback. *)
Variable has_sandbox : bool.
Variable sandbox_run : string -> string -> W -> (bool * string) * W.

Variable install_package : string -> W -> bool * W.
Variable _verify_saved_files : string -> W -> string.

(** The worker with [self.success], [self.blocks_result] and the ghost
    log. *)
Record Exec := mkExec {
  agent : @Agent W;
  success_flag : bool;
  blocks_result : list executorResult;
  actions : list Action
}.

Definition with_agent (a : @Agent W) (e : Exec) : Exec :=
  {| agent := a; success_flag := success_flag e;
     blocks_result := blocks_result e; actions := actions e |}.

Definition set_flag (b : bool) (e : Exec) : Exec :=
  {| agent := agent e; success_flag := b;
     blocks_result := blocks_result e; actions := actions e |}.

Definition record (r : executorResult) (e : Exec) : Exec :=
  {| agent := agent e; success_flag := success_flag e;
     blocks_result := blocks_result e ++ [r]; actions := actions e |}.

Definition act (x : Action) (e : Exec) : Exec :=
  {| agent := agent e; success_flag := success_flag e;
     blocks_result := blocks_result e; actions := actions e ++ [x] |}.

(** [sandbox_execute]: [None] stands for the pair [(None, None)]. *)
Definition sandbox_execute (code language : string) (w : W)
    : option ((bool * string) * W) :=
  if negb has_sandbox then None
  else if negb (sandboxed language) then None
  else Some (sandbox_run code language w).

(** One block of the tool [name]: in the sandbox when there is one and
    the tool is [python] or [bash], run again once after a successful
    installation of a missing module; by the tool itself otherwise.
    The second call of [sandbox_execute] meets the same sandbox as the
    first. *)
Definition execute_block (name code : string) (e : Exec)
    : (bool * string) * Exec :=
  match (if sandboxed name then sandbox_execute code name (world (agent e))
         else None) with
  | Some ((sb_success, sb_feedback), w) =>
      let e :=
        act (SandboxRun name code sb_success sb_feedback)
            (with_agent (set_world w (agent e)) e) in
      if negb sb_success && str_in "No module named" sb_feedback then
        let '(installed, a) :=
          _auto_install_from_error install_package sb_feedback (agent e) in
        let e := with_agent a e in
        if installed then
          let '((sb_success, sb_feedback), w) :=
            sandbox_run code name (world (agent e)) in
          ((sb_success, sb_feedback),
           act (SandboxRun name code sb_success sb_feedback)
               (with_agent (set_world w (agent e)) e))
        else ((sb_success, sb_feedback), e)
      else ((sb_success, sb_feedback), e)
  | None =>
      let '(output, w) := tool_execute name code (world (agent e)) in
      let text := interpreter_feedback name output in
      let ok := negb (execution_failure_check name output) in
      ((ok, text),
       act (ToolRun name code ok text) (with_agent (set_world w (agent e)) e))
  end.

(** [for block in blocks]: the flag is false when the routine returns
    from inside the loop. *)
Fixpoint execute_blocks (name : string) (path : option string)
    (blocks : list string) (text : string) (e : Exec) : bool * string * Exec :=
  match blocks with
  | [] => (true, text, e)
  | code :: rest =>
      let '((ok, text), e) := execute_block name code e in
      let e := record (mkResult code text ok name path) e in
      if ok then execute_blocks name path rest text e
      else
        (false, text,
         with_agent (push "user" text (agent e)) (set_flag false e))
  end.

(** [for name, tool in self.tools.items()]: the flag is false when the
    routine has returned from inside; the text is the local [feedback],
    which every pass first sets to the empty string. *)
Fixpoint execute_tools (answer : string) (names : list string) (text : string)
    (saved_files : list string) (e : Exec)
    : bool * string * list string * Exec :=
  match names with
  | [] => (true, text, saved_files, e)
  | name :: rest =>
      let text := EmptyString in
      match load_exec_block name answer with
      | (None, _) => execute_tools answer rest text saved_files e
      | (Some blocks, path) =>
          let '(saved_files, e) :=
            match path with
            | Some file =>
                ((saved_files ++ [file])%list,
                 act (Saved name file)
                   (with_agent
                      (set_world (save_block name blocks file (world (agent e)))
                         (agent e)) e))
            | None => (saved_files, e)
            end in
          match (if _is_save_only_language name then path else None) with
          | Some file =>
              let text := "[success] File " +:+ file +:+ " berhasil disimpan." in
              let e :=
                record (mkResult (hd EmptyString blocks) text true name path) e in
              let e := with_agent (push "user" text (agent e)) e in
              execute_tools answer rest text saved_files e
          | None =>
              let '(ok, text, e) := execute_blocks name path blocks text e in
              if ok then
                execute_tools answer rest text saved_files
                  (with_agent (push "user" text (agent e)) e)
              else (false, text, saved_files, e)
          end
      end
  end.

(** The answer as the tools see it. *)
Definition announced (answer : string) : string :=
  if startswith answer "```" then "I will execute:" +:+ nl +:+ answer
  else answer.

(** [execute_modules_with_sandbox(answer)] *)
Definition execute_modules_with_sandbox (answer : string) (e : Exec)
    : (bool * string) * Exec :=
  let answer := announced answer in
  let e := set_flag true e in
  let '(ok, text, saved_files, e) :=
    execute_tools answer tool_names EmptyString [] e in
  if ok then
    match saved_files with
    | [] => ((true, text), e)
    | _ :: _ =>
        match _verify_saved_files answer (world (agent e)) with
        | EmptyString => ((true, text), e)
        | verification => ((true, text +:+ verification), e)
        end
    end
  else ((false, text), e).

End Tools.

End Executor.

(* ===================================================================== *)
(** ** work_dir/game_logic.py *)
(* ===================================================================== *)

Module Game.

Import Text.

(** A position is a pair of integers. *)
Definition Position : Type := Z * Z.

Definition position_eqb (a b : Position) : bool :=
  (fst a =? fst b)%Z && (snd a =? snd b)%Z.

(** [str] of a pair of integers. *)
Definition show (p : Position) : string :=
  "(" +:+ str_of_int (fst p) +:+ ", " +:+ str_of_int (snd p) +:+ ")".

(** [check_snake]: the snake position that equals the position of the
    player, [None] when the loop ends without a [return]. *)
Definition check_snake (player_position : Position) : option Position :=
  List.find (fun snake_position => position_eqb player_position snake_position)
    [ (100, 100)%Z; (200, 200)%Z ].

(** [check_ladder] *)
Definition check_ladder (player_position : Position) : option Position :=
  List.find (fun ladder_position => position_eqb player_position ladder_position)
    [ (150, 150)%Z; (250, 250)%Z ].

(** [move_player] *)
Definition move_player (player_position : Position) (roll : Z) : Position :=
  let new_position := (fst player_position + roll, snd player_position)%Z in
  if (400 <? fst new_position)%Z then (400%Z, snd new_position)
  else new_position.

(** [game_loop]: the results of [roll_dice] are given as a list, [out]
    collects the printed lines; the result is the position at the
    [break], the rolls not used and the lines. [None] means that the
    rolls given were used up before the loop ended. *)
Fixpoint game_loop (rolls : list Z) (player_position : Position)
    (out : list string) : option (Position * list Z * list string) :=
  match rolls with
  | [] => None
  | roll :: rest =>
      let out := (out ++ ["Roll: " +:+ str_of_int roll])%list in
      let new_position := move_player player_position roll in
      let '(new_position, out) :=
        match check_snake new_position with
        | Some snake_position =>
            (snake_position,
             (out ++ ["Snake! Moving back to " +:+ show snake_position])%list)
        | None => (new_position, out)
        end in
      let '(new_position, out) :=
        match check_ladder new_position with
        | Some ladder_position =>
            (ladder_position,
             (out ++ ["Ladder! Moving up to " +:+ show ladder_position])%list)
        | None => (new_position, out)
        end in
      let player_position := new_position in
      let out := (out ++ ["New position: " +:+ show player_position])%list in
      if (fst player_position =? 400)%Z
      then Some (player_position, rest, (out ++ ["Game over! You won!"])%list)
      else game_loop rest player_position out
  end.

End Game.

(* ===================================================================== *)
(** ** orchestrator.py: the digest of the finished steps *)
(* ===================================================================== *)

Module Digest.

Import Text Patterns.

(** The class of the characters that are neither white space nor a
    quote, and the same without the two angle brackets. *)
Definition is_path_char (c : ascii) : bool :=
  negb (is_space c) && negb (is_quote c).

Definition is_url_char (c : ascii) : bool :=
  is_path_char c && negb (code c =? 60)%N && negb (code c =? 62)%N.

(** The literal [lit] followed by one or more characters of the class. *)
Definition after_literal (lit : string) (cls : ascii -> bool) (s : string)
    : option (string * string) :=
  rest ← strip_prefix false lit s;
  '(a, b) ← plus cls rest;
  Some (lit +:+ a, b).

(** The alternatives of a pattern, tried in order. *)
Fixpoint first_of (l : list (string -> option (string * string))) (s : string)
    : option (string * string) :=
  match l with
  | [] => None
  | m :: rest =>
      match m s with
      | Some x => Some x
      | None => first_of rest s
      end
  end.

(** The pattern of the created files: a path under
    [/home/runner/workspace/], a path that starts with a dot and a
    slash, or a path under [work_dir/] or [work/]. *)
Definition file_pattern : string -> option (string * string) :=
  first_of [ after_literal "/home/runner/workspace/" is_path_char;
             after_literal "./" is_path_char;
             after_literal "work_dir/" is_path_char;
             after_literal "work/" is_path_char ].

(** The pattern of the addresses: [http] with an optional [s], [://]
    and the characters of the address. *)
Definition url_pattern : string -> option (string * string) :=
  first_of [ after_literal "https://" is_url_char;
             after_literal "http://" is_url_char ].

(** [list(dict.fromkeys(l))] *)
Definition unique (l : list string) : list string :=
  fold_left
    (fun acc x => if existsb (String.eqb x) acc then acc else (acc ++ [x])%list)
    l [].

(** The entry of one step. *)
Definition step_digest (step : TaskStep) : string :=
  "- Langkah " +:+ str_of_int (id step) +:+ " ["
  +:+ Controller.upper (agent_type step) +:+ "]: "
  +:+ take 100 (description step) +:+ nl
  +:+ "  Hasil: " +:+ take 300 (result step).

(** The loop over the steps: the entries, the files and the addresses
    collected so far. *)
Fixpoint gather (l : list TaskStep)
    (acc : list string * list string * list string)
    : list string * list string * list string :=
  match l with
  | [] => acc
  | step :: rest =>
      let '(context_parts, files_created, urls_found) := acc in
      if negb (bool_decide (status step = Completed))
         || match result step with EmptyString => true | _ => false end
      then gather rest acc
      else
        gather rest
          ((context_parts ++ [step_digest step])%list,
           (files_created ++ findall file_pattern (result step))%list,
           (urls_found ++ findall url_pattern (result step))%list)
  end.

(** [_gather_rich_context] *)
Definition _gather_rich_context (p : ExecutionPlan) : string :=
  let '(context_parts, files_created, urls_found) := gather (steps p) ([], [], []) in
  match context_parts with
  | [] => EmptyString
  | _ :: _ =>
      let rich_context :=
        "=== KONTEKS PROYEK ===" +:+ nl +:+ join nl context_parts in
      let rich_context :=
        match files_created with
        | [] => rich_context
        | _ :: _ =>
            rich_context +:+ nl +:+ nl +:+ "--- File yang sudah dibuat ---" +:+ nl
            +:+ join nl (map (fun f => "  • " +:+ f)
                             (firstn 20 (unique files_created)))
        end in
      let rich_context :=
        match urls_found with
        | [] => rich_context
        | _ :: _ =>
            rich_context +:+ nl +:+ nl
            +:+ "--- URL/Resource yang ditemukan ---" +:+ nl
            +:+ join nl (map (fun u => "  • " +:+ u)
                             (firstn 10 (unique urls_found)))
        end in
      rich_context +:+ nl +:+ "=== END KONTEKS ===" +:+ nl
  end.

End Digest.

(* ===================================================================== *)
(** ** Properties *)
(* ===================================================================== *)

Section TextFacts.

(** [sub] occurs in [s] as a contiguous block. *)
Definition occurs_in (sub s : string) : Prop :=
  exists pre post, s = pre +:+ sub +:+ post.

Lemma app_String c a b : String c a +:+ b = String c (a +:+ b).
Proof. reflexivity. Qed.

Lemma app_empty b : EmptyString +:+ b = b.
Proof. reflexivity. Qed.

Lemma app_assoc' (a b c : string) : (a +:+ b) +:+ c = a +:+ (b +:+ c).
Proof.
  induction a as [|x a IH]; [reflexivity|].
  rewrite !app_String. by rewrite IH.
Qed.

Lemma prefix_split (p s : string) :
  String.prefix p s = true <-> exists post, s = p +:+ post.
Proof.
  revert s; induction p as [|a p IH]; intros s.
  - destruct s; simpl; (split; [intros _; eexists; reflexivity | done]).
  - destruct s as [|b s]; simpl.
    { split; [done | intros [post H]; discriminate]. }
    setoid_rewrite app_String.
    destruct (Ascii.ascii_dec a b) as [->|Hne].
    + rewrite IH. split; intros [post H]; exists post; congruence.
    + split; [done | intros [post H]; congruence].
Qed.

Lemma str_in_spec (sub s : string) :
  Text.str_in sub s = true <-> occurs_in sub s.
Proof.
  induction s as [|c s IH]; cbn [Text.str_in].
  - rewrite orb_false_r, prefix_split. split.
    + intros [post H]. by exists EmptyString, post.
    + intros [pre [post H]]. destruct pre; [by exists post | discriminate].
  - rewrite orb_true_iff, prefix_split, IH. split.
    + intros [[post H] | [pre [post H]]].
      * by exists EmptyString, post.
      * exists (String c pre), post. rewrite app_String. by rewrite H.
    + intros [pre [post H]]. destruct pre as [|d pre].
      * left. by exists post.
      * right. exists pre, post. rewrite app_String in H. congruence.
Qed.

Lemma occurs_in_app_r (sub a b : string) :
  occurs_in sub b -> occurs_in sub (a +:+ b).
Proof.
  intros [pre [post ->]]. exists (a +:+ pre), post. by rewrite app_assoc'.
Qed.

Lemma occurs_in_app_l (sub a b : string) :
  occurs_in sub a -> occurs_in sub (a +:+ b).
Proof.
  intros [pre [post ->]]. exists pre, (post +:+ b). by rewrite !app_assoc'.
Qed.

Lemma occurs_in_refl (s : string) : occurs_in s s.
Proof.
  exists EmptyString, EmptyString. rewrite app_empty.
  induction s as [|c s IH]; [reflexivity|]. rewrite app_String. by rewrite <- IH.
Qed.

Lemma take_length (n : nat) (s : string) : (String.length (Text.take n s) <= n)%nat.
Proof.
  revert s. induction n as [|n IH]; intros s.
  - change (Text.take 0 s) with EmptyString. simpl. lia.
  - destruct s as [|c s].
    + change (Text.take (S n) EmptyString) with EmptyString. simpl. lia.
    + change (Text.take (S n) (String c s)) with (String c (Text.take n s)).
      simpl String.length. specialize (IH s). lia.
Qed.

Lemma take_length_min (n : nat) (s : string) :
  String.length (Text.take n s) = Nat.min n (String.length s).
Proof.
  revert s. induction n as [|n IH]; intros s.
  - by change (Text.take 0 s) with EmptyString.
  - destruct s as [|c s]; [done|].
    change (Text.take (S n) (String c s)) with (String c (Text.take n s)).
    simpl. by rewrite IH.
Qed.

Lemma take_prefix (n : nat) (s : string) :
  exists rest, s = Text.take n s +:+ rest.
Proof.
  revert s. induction n as [|n IH]; intros s.
  - exists s. by change (Text.take 0 s) with EmptyString.
  - destruct s as [|c s].
    + by exists EmptyString.
    + change (Text.take (S n) (String c s)) with (String c (Text.take n s)).
      destruct (IH s) as [rest Hrest]. exists rest.
      rewrite app_String. by rewrite <- Hrest.
Qed.

Lemma take_all (n : nat) (s : string) :
  (String.length s <= n)%nat -> Text.take n s = s.
Proof.
  revert s. induction n as [|n IH]; intros s Hlen.
  - destruct s; [done | simpl in Hlen; lia].
  - destruct s as [|c s]; [done|].
    change (Text.take (S n) (String c s)) with (String c (Text.take n s)).
    rewrite IH; [done | simpl in Hlen; lia].
Qed.

End TextFacts.

(** C10. [_has_error_in_output] is case-sensitive substring matching over
    a fixed list of 20 indicator tokens: it answers true exactly when the
    feedback contains one of them; an empty or absent feedback is never
    failing, and neither is the lowercase word [error]. *)
Theorem has_error_in_output_spec :
  length Coder.error_indicators = 20%nat
  /\ (forall f : string,
        Coder._has_error_in_output (Some f) = true
        <-> exists indicator,
              indicator ∈ Coder.error_indicators /\ occurs_in indicator f)
  /\ Coder._has_error_in_output None = false
  /\ Coder._has_error_in_output (Some EmptyString) = false
  /\ Coder._has_error_in_output (Some "error") = false
  /\ Coder._has_error_in_output (Some "build failed with 3 errors") = false
  /\ Coder._has_error_in_output (Some "ValueError: bad input") = true.
Proof.
  split; [reflexivity|].
  split; [|repeat split; reflexivity].
  intros f. split.
  - intros H. destruct f as [|c f]; [discriminate|].
    unfold Coder._has_error_in_output in H.
    apply existsb_exists in H as [ind [Hin Hsub]].
    exists ind. split; [by apply list_elem_of_In | by apply str_in_spec].
  - intros [ind [Hin Hocc]].
    assert (Hne : f <> EmptyString).
    { intros ->. destruct Hocc as [pre [post H]].
      destruct pre; [|discriminate]. rewrite app_empty in H.
      destruct ind as [|c ind]; [|rewrite app_String in H; discriminate].
      unfold Coder.error_indicators in Hin.
      repeat (apply elem_of_cons in Hin as [Hin | Hin]; [discriminate|]).
      inversion Hin. }
    destruct f as [|c f]; [done|].
    unfold Coder._has_error_in_output.
    apply existsb_exists. exists ind.
    split; [by apply list_elem_of_In | by apply str_in_spec].
Qed.

Arguments Text.take : simpl never.
Arguments Text.lower : simpl never.
Arguments Text.str_in : simpl never.
Arguments Text.str_of_int : simpl never.
Arguments SelfCorrection._build_self_correction_prompt : simpl never.
Arguments SelfCorrection.remediate : simpl never.

(* ===================================================================== *)
(** ** The dependency scheduler *)
(* ===================================================================== *)

Section SchedulerFacts.

Import Scheduler.

(** [t] is the first element of [l] that satisfies [f], at position [i]. *)
Definition first_at {A} (f : A -> bool) (l : list A) (i : nat) (t : A) : Prop :=
  l !! i = Some t /\ f t = true
  /\ forall j u, (j < i)%nat -> l !! j = Some u -> f u = false.

Lemma find_first_at {A} (f : A -> bool) (l : list A) (t : A) :
  List.find f l = Some t <-> exists i, first_at f l i t.
Proof.
  induction l as [|x l IH]; simpl.
  - split; [done | intros [i [H _]]; by destruct i].
  - destruct (f x) eqn:Hfx.
    + split.
      * intros [= ->]. exists 0%nat. repeat split; [done | intros; lia].
      * intros [i (Hi & Hf & Hlt)]. destruct i as [|i]; [by injection Hi as ->|].
        specialize (Hlt 0%nat x ltac:(lia) eq_refl). congruence.
    + rewrite IH. split.
      * intros [i (Hi & Hf & Hlt)]. exists (S i). repeat split; [done..|].
        intros [|j] u Hj Hu; [by injection Hu as <- |].
        apply (Hlt j); [lia | done].
      * intros [i (Hi & Hf & Hlt)]. destruct i as [|i].
        { injection Hi as ->. congruence. }
        exists i. repeat split; [done..|].
        intros j u Hj Hu. apply (Hlt (S j)); [lia | done].
Qed.

Lemma find_none_iff {A} (f : A -> bool) (l : list A) :
  List.find f l = None <-> forall u, u ∈ l -> f u = false.
Proof.
  induction l as [|x l IH]; simpl.
  - split; [intros _ u Hu; inversion Hu | done].
  - destruct (f x) eqn:Hfx.
    + split; [done | intros H]. specialize (H x ltac:(left)). congruence.
    + rewrite IH. split.
      * intros H u Hu. apply elem_of_cons in Hu as [-> | Hu]; auto.
      * intros H u Hu. apply H. by right.
Qed.

(** The test that [get_next_step] applies to one step. *)
Definition ready_test (all : list TaskStep) (s : TaskStep) : bool :=
  bool_decide (status s = Pending) && deps_met all s.

Lemma next_from_find (all l : list TaskStep) (i : nat) :
  snd <$> next_from all i l = List.find (ready_test all) l.
Proof.
  revert i; induction l as [|x l IH]; intros i; simpl; [done|].
  unfold ready_test at 1. destruct (_ && _); [done | apply IH].
Qed.

Lemma next_from_position (all l : list TaskStep) (i j : nat) (s : TaskStep) :
  next_from all i l = Some (j, s) ->
  exists k, j = (i + k)%nat /\ first_at (ready_test all) l k s.
Proof.
  revert i; induction l as [|x l IH]; intros i; simpl; [done|].
  destruct (bool_decide (status x = Pending) && deps_met all x) eqn:Hx.
  - intros [= <- <-]. exists 0%nat. split; [lia|].
    repeat split; [done | intros; lia].
  - intros H. apply IH in H as [k [-> (Hk & Hf & Hlt)]].
    exists (S k). split; [lia|]. repeat split; [done..|].
    intros [|j'] u Hj Hu; [by injection Hu as <- |].
    apply (Hlt j'); [lia | done].
Qed.

Lemma next_index_lookup (p : ExecutionPlan) (i : nat) (s : TaskStep) :
  next_index p = Some (i, s) -> first_at (ready_test (steps p)) (steps p) i s.
Proof.
  intros H. apply next_from_position in H as [k [-> H]]. exact H.
Qed.

(** The identifier [d] resolves to the step [t] of the plan: [t] is the
    first step whose identifier, written as a string, is [str(d)]. *)
Definition resolves (all : list TaskStep) (d : DepId) (t : TaskStep) : Prop :=
  exists i, all !! i = Some t
            /\ Text.str_of_int (id t) = dep_str d
            /\ forall j u, (j < i)%nat -> all !! j = Some u ->
                           Text.str_of_int (id u) <> dep_str d.

(** No step of the plan carries the identifier [d]. *)
Definition unresolved (all : list TaskStep) (d : DepId) : Prop :=
  forall u, u ∈ all -> Text.str_of_int (id u) <> dep_str d.

Lemma string_eqb_true (a b : string) : String.eqb a b = true <-> a = b.
Proof. apply String.eqb_eq. Qed.

Lemma string_eqb_false (a b : string) : String.eqb a b = false <-> a <> b.
Proof. apply String.eqb_neq. Qed.

Lemma dep_step_resolves (all : list TaskStep) (d : DepId) (t : TaskStep) :
  dep_step all d = Some t <-> resolves all d t.
Proof.
  unfold dep_step, resolves. rewrite find_first_at. unfold first_at.
  split; intros [i (Hi & Hf & Hlt)]; exists i; repeat split; try done.
  - by apply string_eqb_true.
  - intros j u Hj Hu. apply string_eqb_false. eauto.
  - by apply string_eqb_true.
  - intros j u Hj Hu. apply string_eqb_false. eauto.
Qed.

Lemma dep_step_unresolved (all : list TaskStep) (d : DepId) :
  dep_step all d = None <-> unresolved all d.
Proof.
  unfold dep_step, unresolved. rewrite find_none_iff.
  split; intros H u Hu; apply string_eqb_false; auto.
Qed.

(** Readiness as the code decides it: the step is pending and every
    dependency identifier that resolves, resolves to a completed step. *)
Definition ready (all : list TaskStep) (s : TaskStep) : Prop :=
  status s = Pending
  /\ forall d, d ∈ dependencies s ->
       forall t, resolves all d t -> status t = Completed.

(** Readiness as the specification words it: every dependency
    identifier resolves, and resolves to a completed step. *)
Definition ready_strict (all : list TaskStep) (s : TaskStep) : Prop :=
  status s = Pending
  /\ forall d, d ∈ dependencies s ->
       exists t, resolves all d t /\ status t = Completed.

Lemma blocks_false (all : list TaskStep) (d : DepId) :
  blocks all d = false <-> forall t, resolves all d t -> status t = Completed.
Proof.
  unfold blocks. destruct (dep_step all d) as [t|] eqn:Hd.
  - rewrite negb_false_iff, bool_decide_eq_true. split.
    + intros Hc t' Ht'. apply dep_step_resolves in Ht'. congruence.
    + intros H. apply H. by apply dep_step_resolves.
  - split; [|done]. intros _ t Ht. apply dep_step_resolves in Ht. congruence.
Qed.

Lemma ready_test_true (all : list TaskStep) (s : TaskStep) :
  ready_test all s = true <-> ready all s.
Proof.
  unfold ready_test, ready, deps_met.
  rewrite andb_true_iff, bool_decide_eq_true, forallb_forall.
  split; intros [Hp Hd]; (split; [done|]).
  - intros d Hin. apply blocks_false, negb_true_iff, Hd. by apply list_elem_of_In.
  - intros d Hin. apply negb_true_iff, blocks_false, Hd. by apply list_elem_of_In.
Qed.

Lemma ready_test_false (all : list TaskStep) (s : TaskStep) :
  ready_test all s = false <-> ~ ready all s.
Proof.
  rewrite <- ready_test_true. destruct (ready_test all s); split; congruence.
Qed.

Lemma ready_strict_ready (all : list TaskStep) (s : TaskStep) :
  ready_strict all s -> ready all s.
Proof.
  intros [Hp Hd]. split; [done|]. intros d Hin t Ht.
  destruct (Hd d Hin) as [t' [Ht' Hc]].
  apply dep_step_resolves in Ht, Ht'. congruence.
Qed.

Lemma get_next_step_ready (p : ExecutionPlan) (s : TaskStep) :
  get_next_step p = Some s -> ready (steps p) s.
Proof.
  unfold get_next_step, next_index. rewrite next_from_find.
  intros H. apply find_some in H as [_ H]. by apply ready_test_true.
Qed.

End SchedulerFacts.

(** A plan with one step whose only dependency names no step. *)
Definition orphan_step : TaskStep :=
  new_step 1 "write a.py" "coder" default_max_attempts [DepStr "99"].

Definition orphan_plan : ExecutionPlan :=
  {| goal := "build X"; steps := [orphan_step]; current_step := 0;
     completed := false; reflection_log := [] |}.

Lemma orphan_unresolved : unresolved (steps orphan_plan) (DepStr "99").
Proof.
  intros u Hu. apply list_elem_of_singleton in Hu as ->. discriminate.
Qed.

(** C4, the claim as worded fails: the only step of [orphan_plan] has a
    dependency that resolves to no step, so no step of the plan meets the
    worded condition, and yet [get_next_step] returns that step. *)
Lemma get_next_step_returns_orphan :
  (forall s, s ∈ steps orphan_plan -> ~ ready_strict (steps orphan_plan) s)
  /\ Scheduler.get_next_step orphan_plan = Some orphan_step.
Proof.
  split; [|reflexivity].
  intros s Hs [_ Hd]. apply list_elem_of_singleton in Hs as ->.
  destruct (Hd (DepStr "99")) as [t [Ht _]]; [by left|].
  destruct Ht as [i (Hi & Heq & _)].
  apply (orphan_unresolved t); [|done].
  by apply list_elem_of_lookup_2 in Hi.
Qed.

(** C4 (amended). [get_next_step] is a function of the plan alone and
    returns no new plan: it is a query. It returns the first step, in the
    order of the plan, that is pending and whose every dependency
    identifier that resolves to a step of the plan resolves to a
    completed one (identifiers that resolve to no step are ignored); it
    returns none exactly when no step is like that. A step that is
    returned therefore has no dependency resolving to a step that is not
    completed. *)
Theorem get_next_step_first_ready (p : ExecutionPlan) :
  (forall s,
      Scheduler.get_next_step p = Some s
      <-> exists i, steps p !! i = Some s
                    /\ ready (steps p) s
                    /\ forall j u, (j < i)%nat -> steps p !! j = Some u ->
                                   ~ ready (steps p) u)
  /\ (Scheduler.get_next_step p = None
      <-> forall u, u ∈ steps p -> ~ ready (steps p) u)
  /\ (forall s d t,
        Scheduler.get_next_step p = Some s ->
        d ∈ dependencies s -> resolves (steps p) d t -> status t = Completed).
Proof.
  unfold Scheduler.get_next_step, Scheduler.next_index.
  rewrite next_from_find.
  assert (Hsome : forall s,
    List.find (ready_test (steps p)) (steps p) = Some s
    <-> exists i, steps p !! i = Some s /\ ready (steps p) s
                  /\ forall j u, (j < i)%nat -> steps p !! j = Some u ->
                                 ~ ready (steps p) u).
  { intros s. rewrite find_first_at. unfold first_at.
    split; intros [i (Hi & Hr & Hlt)]; exists i; (split; [done|]); split.
    - by apply ready_test_true.
    - intros j u Hj Hu. apply ready_test_false. eauto.
    - by apply ready_test_true.
    - intros j u Hj Hu. apply ready_test_false. eauto. }
  split; [exact Hsome|]. split.
  - rewrite find_none_iff. split; intros H u Hu; apply ready_test_false; auto.
  - intros s d t Hs Hd Ht. apply Hsome in Hs as [i (_ & [_ Hr] & _)]. eauto.
Qed.

(** The example of the specification: with [A] first and [B] depending on
    the identifier of [A], [B] is not selected while [A] is not completed. *)
Lemma dependent_step_waits (g : string) (A B : TaskStep) :
  dependencies B = [DepStr (Text.str_of_int (id A))] ->
  status A <> Completed ->
  Scheduler.get_next_step (mkPlan g [A; B] 0 false []) <> Some B.
Proof.
  intros HB HA Hnext.
  apply get_next_step_ready in Hnext as [_ H].
  apply HA, (H (DepStr (Text.str_of_int (id A)))).
  - rewrite HB. by left.
  - exists 0%nat. split; [done|]. split; [done|]. intros; lia.
Qed.

(* ===================================================================== *)
(** ** The dispatcher *)
(* ===================================================================== *)

Section DispatcherFacts.

Import Orchestrator.

Context {W : Type}.
Variable agents : list (string * @Worker W).
Variable get_context_for_prompt : string -> W -> string.
Variable store_fact : string -> string -> string -> W -> W.
Variable _gather_rich_context : ExecutionPlan -> string.

Abbreviation dispatch :=
  (execute_step agents get_context_for_prompt store_fact _gather_rich_context).

(** The unmet-dependency signature that the dispatcher looks for in the
    failure text. *)
Definition has_signature (text : string) : bool :=
  let l := Text.lower text in
  Text.str_in "no module named" l || Text.str_in "pip install" l
  || Text.str_in "modulenotfounderror" l.

Definition calls_to (k : string) (l : list Invocation) : list Invocation :=
  filter (fun c => worker_key c = k) l.

(** The entries that the invocations [calls] of the worker [k] leave in
    the execution memory: one for each invocation that returned, the
    first plain and a later one tagged as a browse-assisted retry. *)
Fixpoint entries_of (sid : Z) (k : string) (retry : bool)
    (calls : list Invocation) : list MemoryEntry :=
  match calls with
  | [] => []
  | c :: rest =>
      match outcome c with
      | Returned a ok => mkEntry sid k ok (Text.take 200 a) retry :: entries_of sid k true rest
      | Raised _ => entries_of sid k true rest
      end
  end.

Lemma call_effect (k : string) (worker : @Worker W) (prompt : string) (o : @Orch W) :
  let r := call k worker prompt o in
  plan (snd r) = plan o
  /\ execution_memory (snd r) = execution_memory o
  /\ invoked (snd r) = invoked o ++ [mkInvocation k prompt (fst r)].
Proof.
  unfold call. destruct (worker prompt (world o)) as [out w]. by simpl.
Qed.

Lemma browse_effect (pkg text : string) (o : @Orch W) :
  let r := _coder_browse_for_install agents pkg text o in
  plan (snd r) = plan o
  /\ execution_memory (snd r) = execution_memory o
  /\ exists bc, invoked (snd r) = invoked o ++ bc
                /\ (length bc <= 1)%nat
                /\ Forall (fun c => worker_key c = "web") bc.
Proof.
  unfold _coder_browse_for_install.
  destruct (agent_of agents "web") as [b|]; simpl.
  - pose proof (call_effect "web" b
      ("install " +:+ pkg +:+ " python pip Linux Ubuntu error fix") o) as H.
    simpl in H. destruct (call _ _ _ _) as [out o']. simpl in H.
    destruct H as (Hp & Hm & Hi).
    assert (Hbc : exists bc, invoked o' = invoked o ++ bc /\ (length bc <= 1)%nat
                             /\ Forall (fun c => worker_key c = "web") bc).
    { eexists. split; [exact Hi|]. split; [simpl; lia|]. by constructor. }
    destruct out as [[|c a] ok | msg]; simpl; auto.
  - split; [done|]. split; [done|]. exists []. rewrite app_nil_r.
    split; [done|]. split; [simpl; lia | constructor].
Qed.

Lemma handle_effect (step : TaskStep) (text : string) (o : @Orch W) :
  let r := _handle_install_failure_with_browsing agents step text o in
  plan (snd r) = plan o
  /\ execution_memory (snd r) = execution_memory o
  /\ (is_Some (fst r) -> has_signature text = true)
  /\ exists bc, invoked (snd r) = invoked o ++ bc
                /\ (length bc <= 1)%nat
                /\ Forall (fun c => worker_key c = "web") bc.
Proof.
  assert (Hnil : exists bc : list Invocation,
            invoked o = invoked o ++ bc /\ (length bc <= 1)%nat
            /\ Forall (fun c => worker_key c = "web") bc).
  { exists []. rewrite app_nil_r. split; [done|]. split; [simpl; lia | constructor]. }
  unfold _handle_install_failure_with_browsing.
  destruct (negb _ && negb _ && negb _) eqn:Hsig.
  { simpl; repeat split; try done; intros [x Hx]; discriminate. }
  assert (Hs : has_signature text = true).
  { unfold has_signature.
    destruct (Text.str_in "no module named" _), (Text.str_in "pip install" _),
      (Text.str_in "modulenotfounderror" _); simpl in *; congruence. }
  destruct (match Patterns.search_module_nocase text with
            | Some m => Some m
            | None => Patterns.search_pip_install text
            end) as [pkg|].
  2:{ simpl; repeat split; try done; intros [x Hx]; discriminate. }
  pose proof (browse_effect pkg text o) as H. simpl in H.
  destruct (_coder_browse_for_install agents pkg text o) as [br o'].
  simpl in H. destruct H as (Hp & Hm & Hbc).
  destruct br as [|c br]; [by simpl|].
  destruct (_ ++ _)%list; simpl; auto.
Qed.

Lemma finish_effect (step : TaskStep) (k a : string) (ok : bool) (o : @Orch W) :
  let r := finish store_fact step k a ok o in
  fst r = inr (a, ok)
  /\ plan (snd r) = plan o
  /\ execution_memory (snd r) = execution_memory o
  /\ invoked (snd r) = invoked o.
Proof. unfold finish. by destruct ok. Qed.

Lemma calls_to_web_nil (k : string) (bc : list Invocation) :
  k = "coder" -> Forall (fun c => worker_key c = "web") bc -> calls_to k bc = [].
Proof.
  intros -> H. unfold calls_to. induction H as [|c bc Hc _ IH]; [done|].
  rewrite filter_cons. rewrite Hc. by case_decide.
Qed.

Lemma calls_to_own (k p : string) (out : Outcome) (l : list Invocation) :
  calls_to k (mkInvocation k p out :: l) = mkInvocation k p out :: calls_to k l.
Proof. unfold calls_to. rewrite filter_cons. simpl. by case_decide. Qed.

(** C7 (amended). In one dispatch the resolved worker [k] is invoked at
    most twice. It is invoked a second time only when [k] is the code
    worker, its first invocation returned without success, and the
    returned text carries the unmet-dependency signature; the second
    invocation comes after the browse query. The execution memory grows
    by one entry for each invocation of the resolved worker that
    returned, the second one tagged as a browse-assisted retry; an
    invocation that raises leaves no entry, and the dispatch then returns
    the error text with a false success flag. *)
Theorem dispatch_single_remediation (i : nat) (step : TaskStep)
    (infos : list (string * string)) (o : @Orch W) :
  let k := resolve_key agents (agent_type step) in
  let r := dispatch i step infos o in
  exists calls,
    invoked (snd r) = invoked o ++ calls
    /\ (length (calls_to k calls) <= 2)%nat
    /\ (length (calls_to k calls) = 2%nat ->
        k = "coder"
        /\ exists p1 a bc p2 out2,
             calls = mkInvocation k p1 (Returned a false) :: bc
                     ++ [mkInvocation k p2 out2]
             /\ Forall (fun c => worker_key c = "web") bc
             /\ has_signature a = true)
    /\ execution_memory (snd r)
       = execution_memory o ++ entries_of (id step) k false (calls_to k calls)
    /\ (forall c msg,
          c ∈ calls_to k calls -> outcome c = Raised msg ->
          fst r = inr ("Error: " +:+ msg, false)).
Proof.
  intros k r. subst r. unfold execute_step. fold k.
  set (o0 := with_plan (update_step i (set_status Running)) o).
  destruct (agent_of agents k) as [worker|].
  2:{ exists []. simpl. rewrite !app_nil_r. repeat split; try done; try lia.
      intros c msg Hc. inversion Hc. }
  set (prompt := compose_prompt get_context_for_prompt _gather_rich_context step infos o0).
  destruct (steps (plan o0)) as [|s0 others] eqn:Hsteps0.
  { exists []. simpl. rewrite !app_nil_r. repeat split; try done; try lia.
    intros c msg Hc. inversion Hc. }
  pose proof (call_effect k worker prompt o0) as H1. cbv zeta in H1.
  destruct (call k worker prompt o0) as [out1 o1]. simpl in H1.
  destruct H1 as (_ & Hm1 & Hi1). change (invoked o0) with (invoked o) in Hi1.
  change (execution_memory o0) with (execution_memory o) in Hm1.
  destruct out1 as [a ok | msg].
  2:{ exists [mkInvocation k prompt (Raised msg)]. simpl.
      rewrite calls_to_own. simpl. rewrite app_nil_r.
      repeat split; try done; try lia.
      intros c msg' Hc Hout. apply list_elem_of_singleton in Hc as ->.
      simpl in Hout. by injection Hout as ->. }
  set (e1 := mkEntry (id step) k ok (Text.take 200 a) false).
  destruct (negb ok && String.eqb k "coder") eqn:Hretry.
  2:{ pose proof (finish_effect step k a ok (remember e1 o1)) as Hf.
      cbv zeta in Hf. destruct (finish _ _ _ _ _ _) as [res o2].
      simpl in Hf. destruct Hf as (-> & _ & Hm2 & Hi2).
      exists [mkInvocation k prompt (Returned a ok)]. simpl.
      rewrite calls_to_own. simpl.
      split; [congruence|]. split; [lia|]. split; [lia|].
      split; [rewrite Hm2; simpl; rewrite Hm1; reflexivity|].
      intros c msg Hc Hout. apply list_elem_of_singleton in Hc as ->. discriminate. }
  apply andb_true_iff in Hretry as [Hok Hk].
  apply negb_true_iff in Hok as ->. apply String.eqb_eq in Hk.
  pose proof (handle_effect step a (remember e1 o1)) as Hh. cbv zeta in Hh.
  destruct (_handle_install_failure_with_browsing agents step a (remember e1 o1))
    as [fix_ o2]. simpl in Hh.
  destruct Hh as (_ & Hm2 & Hsig & bc & Hi2 & Hlen & Hweb).
  simpl in Hm2, Hi2.
  assert (Hno : forall o3 res,
    finish store_fact step k a false o2 = (res, o3) ->
    exists calls,
      invoked o3 = invoked o ++ calls
      /\ (length (calls_to k calls) <= 2)%nat
      /\ (length (calls_to k calls) = 2%nat ->
          k = "coder"
          /\ exists p1 a bc p2 out2,
               calls = mkInvocation k p1 (Returned a false) :: bc
                       ++ [mkInvocation k p2 out2]
               /\ Forall (fun c => worker_key c = "web") bc
               /\ has_signature a = true)
      /\ execution_memory o3
         = execution_memory o ++ entries_of (id step) k false (calls_to k calls)
      /\ (forall c msg,
            c ∈ calls_to k calls -> outcome c = Raised msg ->
            res = inr ("Error: " +:+ msg, false))).
  { intros o3 res Hfin.
    pose proof (finish_effect step k a false o2) as Hf.
    cbv zeta in Hf. rewrite Hfin in Hf. simpl in Hf.
    destruct Hf as (-> & _ & Hm3 & Hi3).
    exists (mkInvocation k prompt (Returned a false) :: bc).
    rewrite calls_to_own, (calls_to_web_nil k bc Hk Hweb). simpl.
    split; [rewrite Hi3, Hi2, Hi1; by rewrite <- app_assoc|].
    split; [lia|]. split; [lia|].
    split; [rewrite Hm3, Hm2; simpl; rewrite Hm1; reflexivity|].
    intros c msg Hc Hout. apply list_elem_of_singleton in Hc as ->. discriminate. }
  destruct fix_ as [[|ch fix_]|].
  1,3: destruct (finish store_fact step k a false o2) as [res o3] eqn:Hfin;
       simpl; by apply Hno.
  clear Hno.
  set (fx := String ch fix_).
  pose proof (call_effect k worker fx o2) as H3. cbv zeta in H3.
  destruct (call k worker fx o2) as [out2 o3]. simpl in H3.
  destruct H3 as (_ & Hm3 & Hi3).
  assert (Hcalls : calls_to k (mkInvocation k prompt (Returned a false) :: bc
                               ++ [mkInvocation k fx out2])
                   = [mkInvocation k prompt (Returned a false);
                      mkInvocation k fx out2]).
  { rewrite calls_to_own. unfold calls_to at 1. rewrite filter_app.
    fold (calls_to k bc). rewrite (calls_to_web_nil k bc Hk Hweb). simpl.
    f_equal. apply (calls_to_own k fx out2 []). }
  assert (Hinv : invoked o3
                 = invoked o ++ mkInvocation k prompt (Returned a false) :: bc
                   ++ [mkInvocation k fx out2]).
  { rewrite Hi3, Hi2, Hi1. by rewrite <- !app_assoc. }
  assert (Hshape : k = "coder"
          /\ exists p1 a' bc' p2 out2',
               mkInvocation k prompt (Returned a false) :: bc
                 ++ [mkInvocation k fx out2]
               = mkInvocation k p1 (Returned a' false) :: bc'
                 ++ [mkInvocation k p2 out2']
               /\ Forall (fun c => worker_key c = "web") bc'
               /\ has_signature a' = true).
  { split; [done|]. exists prompt, a, bc, fx, out2.
    split; [done|]. split; [done|]. apply Hsig. by eexists. }
  destruct out2 as [a2 ok2 | msg2].
  - set (e2 := mkEntry (id step) k ok2 (Text.take 200 a2) true).
    pose proof (finish_effect step k a2 ok2 (remember e2 o3)) as Hf.
    cbv zeta in Hf. destruct (finish _ _ _ _ _ _) as [res o4].
    simpl in Hf. destruct Hf as (-> & _ & Hm4 & Hi4).
    eexists. rewrite Hcalls. simpl.
    split; [rewrite Hi4; exact Hinv|]. split; [lia|]. split; [done|].
    split.
    { rewrite Hm4. simpl. rewrite Hm3, Hm2. simpl. rewrite Hm1.
      by rewrite <- app_assoc. }
    intros c msg Hc Hout.
    apply elem_of_cons in Hc as [-> | Hc]; [discriminate|].
    apply list_elem_of_singleton in Hc as ->. discriminate.
  - eexists. rewrite Hcalls. simpl.
    split; [exact Hinv|]. split; [lia|]. split; [done|].
    split; [rewrite Hm3, Hm2; simpl; rewrite Hm1; reflexivity|].
    intros c msg Hc Hout.
    apply elem_of_cons in Hc as [-> | Hc]; [discriminate|].
    apply list_elem_of_singleton in Hc as ->. simpl in Hout. by injection Hout as ->.
Qed.

Lemma update_step_length (i : nat) (f : TaskStep -> TaskStep) (p : ExecutionPlan) :
  length (steps (update_step i f p)) = length (steps p).
Proof.
  unfold update_step. destruct (steps p !! i); [|done].
  simpl. apply length_insert.
Qed.

(** The plan of a step that is in it has a step after the step is marked
    as running, so that the division by the number of steps is defined. *)
Lemma started_plan_nonempty (i : nat) (step : TaskStep) (o : @Orch W) :
  steps (plan o) !! i = Some step ->
  steps (plan (with_plan (update_step i (set_status Running)) o)) <> [].
Proof.
  intros Hi Hnil. apply (f_equal length) in Hnil. simpl in Hnil.
  rewrite update_step_length in Hnil. apply lookup_lt_Some in Hi. lia.
Qed.

(** The dispatcher touches the plan only to mark the step as running. *)
Lemma execute_step_plan (i : nat) (step : TaskStep)
    (infos : list (string * string)) (o : @Orch W) :
  plan (snd (dispatch i step infos o))
  = update_step i (set_status Running) (plan o).
Proof.
  unfold execute_step.
  set (k := resolve_key agents (agent_type step)).
  set (o0 := with_plan (update_step i (set_status Running)) o).
  destruct (agent_of agents k) as [worker|]; [|done].
  set (prompt := compose_prompt get_context_for_prompt _gather_rich_context step infos o0).
  destruct (steps (plan o0)) as [|s0 others] eqn:Hsteps0; [done|].
  pose proof (call_effect k worker prompt o0) as H1. cbv zeta in H1.
  destruct (call k worker prompt o0) as [out1 o1]. simpl in H1.
  destruct H1 as (Hp1 & _ & _).
  destruct out1 as [a ok | msg]; [|done].
  set (e1 := mkEntry (id step) k ok (Text.take 200 a) false).
  assert (Hfin : forall a' ok' o', plan o' = plan o1 ->
            plan (snd (finish store_fact step k a' ok' o')) = plan o0).
  { intros a' ok' o' Ho'.
    pose proof (finish_effect step k a' ok' o') as Hf. cbv zeta in Hf.
    destruct Hf as (_ & Hp & _). by rewrite Hp, Ho'. }
  destruct (negb ok && String.eqb k "coder"); [|by apply Hfin].
  pose proof (handle_effect step a (remember e1 o1)) as Hh. cbv zeta in Hh.
  destruct (_handle_install_failure_with_browsing agents step a (remember e1 o1))
    as [fix_ o2]. simpl in Hh. destruct Hh as (Hp2 & _).
  destruct fix_ as [[|ch fix_]|]; try by apply Hfin.
  pose proof (call_effect k worker (String ch fix_) o2) as H3. cbv zeta in H3.
  destruct (call k worker (String ch fix_) o2) as [out2 o3]. simpl in H3.
  destruct H3 as (Hp3 & _ & _).
  destruct out2 as [a2 ok2 | msg2].
  - apply Hfin. simpl. congruence.
  - simpl. congruence.
Qed.

Lemma has_agent_agent_of (k : string) :
  has_agent agents k = true <-> is_Some (agent_of agents k).
Proof.
  unfold has_agent, agent_of.
  induction agents as [|[k' w] l IH]; simpl.
  - split; [done | intros [x Hx]; discriminate].
  - destruct (String.eqb k' k); simpl; [split; eauto | exact IH].
Qed.

(** With the default worker registered, the resolution finds a worker. *)
Lemma resolve_key_registered (agent_type : string) :
  has_agent agents "coder" = true ->
  is_Some (agent_of agents (resolve_key agents agent_type)).
Proof.
  intros Hcoder. unfold resolve_key.
  destruct (has_agent agents (Text.lower agent_type)) eqn:Hexact.
  { by apply has_agent_agent_of. }
  destruct (List.find _ agents) as [[key w]|] eqn:Hfind.
  - apply has_agent_agent_of. apply find_some in Hfind as [Hin _].
    unfold has_agent. apply existsb_exists. exists (key, w).
    split; [done | apply String.eqb_refl].
  - by apply has_agent_agent_of.
Qed.

End DispatcherFacts.

(** A worker that raises, and a registry that holds only it. *)
Definition raising_worker : @Orchestrator.Worker unit :=
  fun _ w => (Raised "boom", w).

Definition lone_step (tag : string) : TaskStep :=
  new_step 1 "write a.py" tag default_max_attempts [].

Definition lone_orch (tag : string) : @Orchestrator.Orch unit :=
  Orchestrator.mkOrch (mkPlan "build X" [lone_step tag] 0 false []) [] [] tt.

(** C7, the claim as worded fails: the worker is invoked, the invocation
    raises, and the execution memory has gained no entry. *)
Lemma raising_invocation_leaves_no_entry :
  let r :=
    Orchestrator.execute_step [("coder", raising_worker)]
      (fun _ _ => EmptyString) (fun _ _ _ w => w) (fun _ => EmptyString)
      0 (lone_step "coder") [] (lone_orch "coder") in
  Orchestrator.invoked (snd r)
  = [mkInvocation "coder" "write a.py" (Raised "boom")]
  /\ Orchestrator.execution_memory (snd r) = []
  /\ fst r = inr ("Error: boom", false).
Proof. vm_compute. repeat split. Qed.

(** C8: with a registry that holds no worker under [coder] and a tag that
    matches no key, the lookup of the fallback key raises [KeyError] out
    of the dispatcher. *)
Theorem execute_step_unregistered_default_raises (W : Type)
    (web : @Orchestrator.Worker W)
    (get_context_for_prompt : string -> W -> string)
    (store_fact : string -> string -> string -> W -> W)
    (_gather_rich_context : ExecutionPlan -> string)
    (i : nat) (infos : list (string * string)) (o : @Orchestrator.Orch W) :
  Orchestrator.resolve_key [("web", web)] "planner" = "coder"
  /\ Orchestrator.agent_of [("web", web)] "coder" = None
  /\ fst (Orchestrator.execute_step [("web", web)] get_context_for_prompt
            store_fact _gather_rich_context i (lone_step "planner") infos o)
     = inl (KeyError "coder").
Proof. repeat split. Qed.

(* ===================================================================== *)
(** ** The plan reviser *)
(* ===================================================================== *)

Section ReviserFacts.

Import Reviser.

Lemma new_step_fields (i : Z) (desc tag : string) (budget : Z) (deps : list DepId) :
  let s := new_step i desc tag budget deps in
  id s = i /\ description s = desc /\ agent_type s = tag /\ status s = Pending
  /\ attempts s = 0%Z /\ max_attempts s = budget /\ dependencies s = deps.
Proof. by repeat split. Qed.

(** Every branch of [revise_plan] appends one or two fresh steps, with
    attempt budget 2, after the steps that the plan already has. *)
Lemma revise_plan_appends (failed_step : TaskStep) (p : ExecutionPlan) :
  exists added,
    steps (revise_plan failed_step p) = steps p ++ added
    /\ (length added = 1%nat \/ length added = 2%nat)
    /\ (forall k s, added !! k = Some s ->
          id s = (Z.of_nat (length (steps p) + k) + 1)%Z
          /\ status s = Pending /\ attempts s = 0%Z /\ max_attempts s = 2%Z)
    /\ goal (revise_plan failed_step p) = goal p
    /\ reflection_log (revise_plan failed_step p) = reflection_log p.
Proof.
  unfold revise_plan. destruct (is_missing_dependency (error failed_step)).
  - eexists [_; _]. simpl. rewrite <- app_assoc. split; [reflexivity|].
    split; [by right|]. split; [|done].
    intros [|[|k]] s [= <-]; simpl; unfold next_id; simpl.
    + repeat split; try done. lia.
    + repeat split; try done. rewrite length_app. simpl. lia.
  - destruct (if is_permission _ then _ else _) as [tag desc].
    eexists [_]. simpl. split; [reflexivity|]. split; [by left|]. split; [|done].
    intros [|k] s [= <-]; simpl; unfold next_id. repeat split; try done. lia.
Qed.

Lemma missing_dependency_nonempty (e : string) :
  is_missing_dependency e = true -> e <> EmptyString.
Proof. intros H ->. discriminate. Qed.

(** C6. [revise_plan] on a failed step whose error text falls in the
    missing-dependency category appends exactly two steps and leaves the
    steps that were there as they are: first a browse step (worker [web],
    attempt budget 2, the dependencies of the failed step), then a retry
    step (worker [coder], attempt budget 2, depending exactly on the
    identifier of the browse step) whose description contains the
    original task, the instruction to use a different approach, and the
    prior error cut to 500 characters. The description is given in
    full: between the heading [ERROR SEBELUMNYA:] and the instruction
    stands the cut error and nothing else of it, and the cut error is
    the error itself when that has at most 500 characters, and
    otherwise its first 500. *)
Theorem revise_plan_missing_dependency (failed_step : TaskStep) (p : ExecutionPlan) :
  is_missing_dependency (error failed_step) = true ->
  exists browse_step retry_step,
    steps (revise_plan failed_step p) = steps p ++ [browse_step; retry_step]
    /\ (forall i s, steps p !! i = Some s ->
          steps (revise_plan failed_step p) !! i = Some s)
    /\ id browse_step = (Z.of_nat (length (steps p)) + 1)%Z
    /\ agent_type browse_step = "web"
    /\ max_attempts browse_step = 2%Z
    /\ attempts browse_step = 0%Z
    /\ status browse_step = Pending
    /\ dependencies browse_step = dependencies failed_step
    /\ id retry_step = (Z.of_nat (length (steps p)) + 2)%Z
    /\ agent_type retry_step = "coder"
    /\ max_attempts retry_step = 2%Z
    /\ attempts retry_step = 0%Z
    /\ status retry_step = Pending
    /\ dependencies retry_step = [DepStr (Text.str_of_int (id browse_step))]
    /\ occurs_in (description failed_step) (description retry_step)
    /\ occurs_in "Gunakan pendekatan BERBEDA" (description retry_step)
    /\ occurs_in (Text.take 500 (error failed_step)) (description retry_step)
    /\ (exists module_name,
          description retry_step
          = "[RECOVERY - INSTALL DEPENDENCY WITH BROWSER INFO] "
            +:+ "Gunakan informasi dari langkah browsing sebelumnya untuk install '"
            +:+ module_name +:+ "'. "
            +:+ "Lalu ulangi tugas asli: " +:+ description failed_step
            +:+ nl +:+ nl +:+ "ERROR SEBELUMNYA:" +:+ nl
            +:+ Text.take 500 (error failed_step) +:+ nl
            +:+ "INSTRUKSI: Gunakan pendekatan BERBEDA. Jangan ulangi cara yang sama. "
            +:+ "Kamu dilarang meminta klarifikasi, langsung eksekusi.")
    /\ String.length (Text.take 500 (error failed_step))
       = Nat.min 500 (String.length (error failed_step))
    /\ (exists rest,
          error failed_step = Text.take 500 (error failed_step) +:+ rest)
    /\ ((String.length (error failed_step) <= 500)%nat ->
        Text.take 500 (error failed_step) = error failed_step).
Proof.
  intros Hcat. unfold revise_plan. rewrite Hcat.
  eexists _, _. simpl. rewrite <- app_assoc. split; [reflexivity|].
  split; [intros i s Hi; by apply lookup_app_l_Some|].
  unfold next_id. simpl. rewrite length_app. simpl.
  repeat (split; [first [done | lia]|]).
  split; [|split; [|split; [|split; [|split; [|split]]]]].
  - apply occurs_in_app_l. unfold install_retry_description.
    repeat apply occurs_in_app_r. apply occurs_in_refl.
  - apply occurs_in_app_r. unfold error_suffix.
    do 6 apply occurs_in_app_r. apply occurs_in_app_l.
    by exists "INSTRUKSI: ", ". Jangan ulangi cara yang sama. ".
  - apply occurs_in_app_r. unfold error_suffix.
    do 4 apply occurs_in_app_r. apply occurs_in_app_l.
    destruct (error failed_step) eqn:He; [discriminate|].
    apply occurs_in_refl.
  - exists (module_name_of (error failed_step)).
    unfold install_retry_description, error_suffix. cbv zeta.
    destruct (error failed_step) eqn:He; [discriminate|].
    change (Text.or_else (String a s) "Unknown error") with (String a s).
    by rewrite !app_assoc'.
  - apply take_length_min.
  - apply take_prefix.
  - apply take_all.
Qed.

Definition missing_module_step : TaskStep :=
  {| id := 1; description := "write a.py"; agent_type := "coder";
     status := Failed; result := EmptyString;
     error := "ModuleNotFoundError: No module named 'requests'";
     attempts := 3; max_attempts := 3; dependencies := [DepStr "7"] |}.

Definition missing_module_plan : ExecutionPlan :=
  {| goal := "build X"; steps := [missing_module_step]; current_step := 0;
     completed := false; reflection_log := [] |}.

Lemma revise_plan_missing_dependency_witness :
  is_missing_dependency (error missing_module_step) = true
  /\ exists browse_step retry_step,
       steps (revise_plan missing_module_step missing_module_plan)
       = [missing_module_step; browse_step; retry_step]
       /\ agent_type browse_step = "web"
       /\ dependencies browse_step = [DepStr "7"]
       /\ agent_type retry_step = "coder"
       /\ dependencies retry_step = [DepStr "2"].
Proof.
  split; [reflexivity|].
  destruct (revise_plan_missing_dependency missing_module_step missing_module_plan)
    as (b & r & Hsteps & _ & Hid & Hweb & _ & _ & _ & Hdeps & _ & Hcoder & _ & _ & _
        & Hrdeps & _); [reflexivity|].
  exists b, r. rewrite Hsteps, Hrdeps, Hid, Hdeps. by repeat split.
Defined.

End ReviserFacts.

(* ===================================================================== *)
(** ** The run controller *)
(* ===================================================================== *)

Section RunFacts.

Import Controller.

Context {W : Type}.
Variable agents : list (string * @Orchestrator.Worker W).
Variable get_context_for_prompt : string -> W -> string.
Variable store_fact : string -> string -> string -> W -> W.
Variable store_project : string -> string -> string -> W -> W.
Variable _gather_rich_context : ExecutionPlan -> string.
Variable elapsed_positive : W -> bool.
Variable elapsed_1f : W -> string.
Variable inspect_site : string -> W -> option string * W.

Set Default Proof Using "Type".

Abbreviation body :=
  (loop_body agents get_context_for_prompt store_fact _gather_rich_context).
Abbreviation while :=
  (while_loop agents get_context_for_prompt store_fact _gather_rich_context).
Abbreviation run :=
  (run_loop agents get_context_for_prompt store_fact store_project
     _gather_rich_context elapsed_positive elapsed_1f inspect_site).
Abbreviation State := (@Loop W).

(** The plan after the step at position [i] is marked as running. *)
Definition started (i : nat) (p : ExecutionPlan) : ExecutionPlan :=
  update_step i (set_status Running) p.

(** What one pass that dispatches a step does, spelled out. *)
Record Pass (st st' : State) (i : nat) (step step' : TaskStep)
    (result : string) (ok : bool) : Prop := {
  pass_next : Scheduler.next_index (plan_of st) = Some (i, step);
  pass_lookup : steps (plan_of st) !! i = Some step;
  pass_pending : status step = Pending;
  pass_reflect :
    step' = snd (Reviser.reflect_step (set_status Running step) result ok);
  pass_plan :
    let p2 := log_reflection
                (fst (Reviser.reflect_step (set_status Running step) result ok))
                (set_steps (<[i := step']> (steps (plan_of st))) (plan_of st)) in
    plan_of st'
    = if negb ok && bool_decide (status step' = Failed)
         && (consecutive_failures st' <? 3)%Z
      then Reviser.revise_plan step' p2 else p2;
  pass_snapshots :
    exists p1 p2,
      snapshots st' = snapshots st ++ [p1; p2; plan_of st']
      /\ steps p1 = <[i := set_status Running step]> (steps (plan_of st))
      /\ steps p2 = <[i := step']> (steps (plan_of st));
  pass_iteration : iteration st' = (iteration st + 1)%Z;
  pass_failures :
    consecutive_failures st'
    = if ok then 0%Z else (consecutive_failures st + 1)%Z;
  pass_dispatches : dispatches st' = dispatches st ++ [(id step', ok)];
  pass_revisions :
    revisions st'
    = if negb ok && bool_decide (status step' = Failed)
         && (consecutive_failures st' <? 3)%Z
      then revisions st ++ [id step'] else revisions st
}.

Lemma insert_insert_same {A} (l : list A) (i : nat) (x y : A) :
  <[i := x]> (<[i := y]> l) = <[i := x]> l.
Proof. apply list_insert_insert_eq. Qed.

Lemma body_continue (st st' : State) :
  body st = Continue st' ->
  exists i step step' result ok, Pass st st' i step step' result ok.
Proof.
  unfold loop_body.
  destruct (Scheduler.next_index (plan_of st)) as [[i step]|] eqn:Hnext.
  2:{ destruct (has_pending (plan_of st)); discriminate. }
  pose proof (next_index_lookup _ _ _ Hnext) as (Hi & Hready & _).
  apply ready_test_true in Hready as [Hpend _].
  pose proof (execute_step_plan agents get_context_for_prompt store_fact
                _gather_rich_context i step
                (required_infos (plan_of st) step) (orch st)) as Hp1.
  destruct (Orchestrator.execute_step _ _ _ _ _ _ _ _) as [[e|[result ok]] o1];
    [discriminate|].
  simpl in Hp1. fold (plan_of st) in Hp1.
  assert (Hsteps1 : steps (Orchestrator.plan o1)
                    = <[i := set_status Running step]> (steps (plan_of st))).
  { rewrite Hp1. unfold update_step. by rewrite Hi. }
  assert (Hlt : (i < length (steps (plan_of st)))%nat) by by eapply lookup_lt_Some.
  set (line := fst (Reviser.reflect_step (set_status Running step) result ok)).
  set (step' := snd (Reviser.reflect_step (set_status Running step) result ok)).
  set (p2 := log_reflection line
               (set_steps (<[i := step']> (steps (plan_of st))) (plan_of st))).
  assert (Hp2 : snd (Reviser.reflect i result ok (Orchestrator.plan o1)) = p2).
  { unfold Reviser.reflect. rewrite Hsteps1.
    rewrite list_lookup_insert_eq by done.
    subst p2 line step'.
    destruct (Reviser.reflect_step _ _ _) as [r s']. simpl.
    rewrite insert_insert_same. rewrite Hp1. unfold update_step. by rewrite Hi. }
  assert (Hstep' : default step (steps p2 !! i) = step').
  { subst p2. simpl. by rewrite list_lookup_insert_eq. }
  unfold Orchestrator.with_plan. simpl. rewrite !Hp2, !Hstep'.
  intros [= <-].
  exists i, step, step', result, ok.
  constructor; try done; simpl.
  - unfold plan_of; simpl. by destruct (negb ok && _ && _).
  - exists (Orchestrator.plan o1), p2. by repeat split.
Qed.

Lemma body_break (st st' : State) :
  body st = Break st' ->
  Scheduler.next_index (plan_of st) = None
  /\ iteration st' = iteration st
  /\ consecutive_failures st' = consecutive_failures st
  /\ dispatches st' = dispatches st
  /\ revisions st' = revisions st
  /\ ((has_pending (plan_of st) = true
       /\ plan_of st' = mark_deadlocked (plan_of st)
       /\ snapshots st' = snapshots st ++ [plan_of st'])
      \/ (has_pending (plan_of st) = false /\ st' = st)).
Proof.
  unfold loop_body.
  destruct (Scheduler.next_index (plan_of st)) as [[i step]|] eqn:Hnext.
  { destruct (Orchestrator.execute_step _ _ _ _ _ _ _ _) as [[e|[result ok]] o1];
      discriminate. }
  destruct (has_pending (plan_of st)); intros [= <-]; simpl.
  - repeat split; try done. by left.
  - repeat split; try done. by right.
Qed.

Lemma body_raise (st st' : State) (e : Fault) :
  body st = Raise e st' ->
  exists i step,
    Scheduler.next_index (plan_of st) = Some (i, step)
    /\ steps (plan_of st) !! i = Some step
    /\ status step = Pending
    /\ e = KeyError (Orchestrator.resolve_key agents (agent_type step))
    /\ Orchestrator.agent_of agents
         (Orchestrator.resolve_key agents (agent_type step)) = None
    /\ plan_of st' = started i (plan_of st)
    /\ snapshots st' = snapshots st ++ [plan_of st']
    /\ iteration st' = (iteration st + 1)%Z
    /\ dispatches st' = dispatches st
    /\ revisions st' = revisions st.
Proof.
  unfold loop_body.
  destruct (Scheduler.next_index (plan_of st)) as [[i step]|] eqn:Hnext.
  2:{ destruct (has_pending (plan_of st)); discriminate. }
  pose proof (next_index_lookup _ _ _ Hnext) as (Hi & Hready & _).
  apply ready_test_true in Hready as [Hpend _].
  pose proof (execute_step_plan agents get_context_for_prompt store_fact
                _gather_rich_context i step
                (required_infos (plan_of st) step) (orch st)) as Hp1.
  destruct (Orchestrator.execute_step _ _ _ _ _ _ _ _) as [[e'|[result ok]] o1] eqn:Hex;
    [|discriminate].
  simpl in Hp1. intros [= <- <-].
  exists i, step. repeat split; try done.
  - unfold Orchestrator.execute_step in Hex.
    destruct (Orchestrator.agent_of agents _) as [worker|]; [|by injection Hex].
    exfalso.
    pose proof (started_plan_nonempty i step (orch st) Hi) as Hne.
    destruct (steps (Orchestrator.plan (Orchestrator.with_plan _ (orch st))));
      [done|].
    revert Hex.
    repeat (match goal with
            | |- context [match ?x with _ => _ end] => destruct x
            | |- context [if ?x then _ else _] => destruct x
            end; try discriminate).
  - unfold Orchestrator.execute_step in Hex.
    destruct (Orchestrator.agent_of agents _) as [worker|]; [|done].
    exfalso.
    pose proof (started_plan_nonempty i step (orch st) Hi) as Hne.
    destruct (steps (Orchestrator.plan (Orchestrator.with_plan _ (orch st))));
      [done|].
    revert Hex.
    repeat (match goal with
            | |- context [match ?x with _ => _ end] => destruct x
            | |- context [if ?x then _ else _] => destruct x
            end; try discriminate).
Qed.

(** A pass that continues uses one unit of the iteration budget; the loop
    therefore needs no more fuel than the budget that is left. *)
Lemma while_has_fuel (fuel : nat) (max_iterations : Z) (st : State) :
  (Z.to_nat (max_iterations - iteration st) <= fuel)%nat ->
  while fuel max_iterations st <> OutOfFuel.
Proof.
  revert st. induction fuel as [|fuel IH]; intros st Hfuel; simpl.
  - destruct (negb _ && (iteration st <? max_iterations)%Z) eqn:Hguard; [|done].
    apply andb_true_iff in Hguard as [_ Hlt]. apply Z.ltb_lt in Hlt. lia.
  - destruct (negb _ && (iteration st <? max_iterations)%Z) eqn:Hguard; [|done].
    apply andb_true_iff in Hguard as [_ Hlt]. apply Z.ltb_lt in Hlt.
    destruct (body st) as [st'|st'|e st'] eqn:Hbody; [|done..].
    apply IH. apply body_continue in Hbody as (i & s & s' & r & ok & HP).
    rewrite (pass_iteration _ _ _ _ _ _ _ HP). lia.
Qed.

(** The state in which the loop stops, when it stops. *)
Definition last_state (e : @Ended W) : option State :=
  match e with
  | Finished st => Some st
  | Faulted _ st => Some st
  | OutOfFuel => None
  end.

(** A property of the loop state that every pass preserves holds when the
    loop stops. *)
Lemma while_invariant (P : State -> Prop) :
  (forall st st', P st -> body st = Continue st' -> P st') ->
  (forall st st', P st -> body st = Break st' -> P st') ->
  (forall st st' e, P st -> body st = Raise e st' -> P st') ->
  forall fuel max_iterations st st',
    P st -> last_state (while fuel max_iterations st) = Some st' -> P st'.
Proof.
  intros Hc Hb Hr fuel max_iterations.
  induction fuel as [|fuel IH]; intros st st' HP; simpl.
  - destruct (negb _ && _); [done | by intros [= <-]].
  - destruct (negb _ && _); [|by intros [= <-]].
    destruct (body st) as [st1|st1|e st1] eqn:Hbody; simpl.
    + apply IH. eauto.
    + intros [= <-]. eauto.
    + intros [= <-]. eauto.
Qed.

(** The loop performs at most [max_iterations] passes that dispatch a
    step, and every dispatch is one such pass. *)
Lemma while_iterations (fuel : nat) (max_iterations : Z) (st st' : State) :
  (iteration st <= max_iterations)%Z ->
  last_state (while fuel max_iterations st) = Some st' ->
  (iteration st <= iteration st' <= max_iterations)%Z.
Proof.
  revert st. induction fuel as [|fuel IH]; intros st Hle; simpl.
  - destruct (negb _ && _); [done | intros [= <-]; lia].
  - destruct (negb _ && (iteration st <? max_iterations)%Z) eqn:Hguard;
      [|intros [= <-]; lia].
    apply andb_true_iff in Hguard as [_ Hlt]. apply Z.ltb_lt in Hlt.
    destruct (body st) as [st1|st1|e st1] eqn:Hbody; simpl.
    + apply body_continue in Hbody as (i & s & s' & r & ok & HP).
      pose proof (pass_iteration _ _ _ _ _ _ _ HP) as Hit.
      intros H. apply IH in H; lia.
    + apply body_break in Hbody as (_ & Hit & _). intros [= <-]. lia.
    + apply body_raise in Hbody as (i & s & _ & _ & _ & _ & _ & _ & _ & Hit & _).
      intros [= <-]. lia.
Qed.

Lemma is_complete_false_pending (p : ExecutionPlan) (i : nat) (s : TaskStep) :
  steps p !! i = Some s -> status s = Pending -> Scheduler.is_complete p = false.
Proof.
  intros Hi Hs. apply not_true_is_false. intros Hc.
  unfold Scheduler.is_complete in Hc. rewrite forallb_forall in Hc.
  specialize (Hc s). rewrite Hs in Hc. simpl in Hc.
  assert (false = true); [|done].
  apply Hc. apply list_elem_of_In. by eapply list_elem_of_lookup_2.
Qed.

Lemma mark_deadlocked_lookup (p : ExecutionPlan) (i : nat) (s : TaskStep) :
  steps p !! i = Some s ->
  steps (mark_deadlocked p) !! i
  = Some (if bool_decide (status s = Pending)
          then set_error deadlock_error (set_status Failed s) else s).
Proof.
  intros Hi. unfold mark_deadlocked. simpl.
  rewrite list_lookup_fmap. by rewrite Hi.
Qed.

Lemma has_pending_false (p : ExecutionPlan) (i : nat) (s : TaskStep) :
  has_pending p = false -> steps p !! i = Some s -> status s <> Pending.
Proof.
  intros Hnp Hi Hs. unfold has_pending in Hnp.
  assert (existsb (fun s => bool_decide (status s = Pending)) (steps p) = true);
    [|congruence].
  apply existsb_exists. exists s. split.
  - apply list_elem_of_In. by eapply list_elem_of_lookup_2.
  - by apply bool_decide_eq_true.
Qed.

(** C1 (amended). A pending step one of whose dependency identifiers
    resolves to a step that is not completed is never returned by
    [get_next_step]. When no step is ready while that step is pending,
    the loop stops in this very pass, without dispatching anything, with
    the step (and every other pending step) marked failed with the
    dependency-deadlock error; it does not loop. An identifier that
    resolves to no step does not block a step. *)
Theorem blocked_step_deadlocks (fuel : nat) (max_iterations : Z) (st : State)
    (i : nat) (s : TaskStep) (d : DepId) (t : TaskStep) :
  steps (plan_of st) !! i = Some s ->
  status s = Pending ->
  d ∈ dependencies s ->
  resolves (steps (plan_of st)) d t ->
  status t <> Completed ->
  Scheduler.get_next_step (plan_of st) <> Some s
  /\ (Scheduler.get_next_step (plan_of st) = None ->
      (iteration st < max_iterations)%Z ->
      (0 < fuel)%nat ->
      exists st',
        while fuel max_iterations st = Finished st'
        /\ iteration st' = iteration st
        /\ dispatches st' = dispatches st
        /\ steps (plan_of st') !! i
           = Some (set_error deadlock_error (set_status Failed s))
        /\ forall j u, steps (plan_of st) !! j = Some u ->
             steps (plan_of st') !! j
             = Some (if bool_decide (status u = Pending)
                     then set_error deadlock_error (set_status Failed u)
                     else u))
  /\ (forall d', unresolved (steps (plan_of st)) d' ->
        Scheduler.blocks (steps (plan_of st)) d' = false).
Proof.
  intros Hi Hpend Hd Ht Hnot. split; [|split].
  - intros Hnext. apply get_next_step_ready in Hnext as [_ H].
    apply Hnot. by apply (H d).
  - intros Hnone Hlt Hfuel. destruct fuel as [|fuel]; [lia|]. simpl.
    rewrite (is_complete_false_pending _ _ _ Hi Hpend). simpl.
    apply Z.ltb_lt in Hlt. rewrite Hlt.
    destruct (body st) as [st1|st1|e st1] eqn:Hbody.
    + apply body_continue in Hbody as (i' & s1 & s1' & r & ok & HP).
      pose proof (pass_next _ _ _ _ _ _ _ HP) as Hn.
      unfold Scheduler.get_next_step in Hnone. rewrite Hn in Hnone. discriminate.
    + apply body_break in Hbody as (_ & Hit & _ & Hdis & _ & Hcase).
      exists st1. split; [done|]. split; [done|]. split; [done|].
      destruct Hcase as [(Hp & Hplan & _) | (Hnp & ->)].
      * rewrite Hplan. split.
        { rewrite (mark_deadlocked_lookup _ _ _ Hi). by rewrite Hpend. }
        intros j u Hj. by apply mark_deadlocked_lookup.
      * by destruct (has_pending_false _ _ _ Hnp Hi).
    + apply body_raise in Hbody as (i' & s1 & Hn & _).
      unfold Scheduler.get_next_step in Hnone. rewrite Hn in Hnone. discriminate.
  - intros d' Hun. unfold Scheduler.blocks.
    apply dep_step_unresolved in Hun. by rewrite Hun.
Qed.

Lemma reflect_step_id (s : TaskStep) (r : string) (ok : bool) :
  let s' := snd (Reviser.reflect_step s r ok) in
  id s' = id s /\ max_attempts s' = max_attempts s
  /\ dependencies s' = dependencies s /\ description s' = description s.
Proof.
  unfold Reviser.reflect_step. destruct ok; [done|]. simpl.
  by destruct (max_attempts s <=? attempts s + 1)%Z.
Qed.

(** What [reflect] does to the step of a failed dispatch. *)
Lemma reflect_step_failure (s : TaskStep) (r : string) :
  let s' := snd (Reviser.reflect_step s r false) in
  attempts s' = (attempts s + 1)%Z
  /\ error s' = r
  /\ ((attempts s + 1 < max_attempts s)%Z -> status s' = Pending)
  /\ ((max_attempts s <= attempts s + 1)%Z -> status s' = Failed)
  /\ (status s' = Failed <-> (max_attempts s <= attempts s + 1)%Z).
Proof.
  unfold Reviser.reflect_step. simpl.
  destruct (max_attempts s <=? attempts s + 1)%Z eqn:Hle; simpl.
  - apply Z.leb_le in Hle. repeat split; try done; lia.
  - apply Z.leb_gt in Hle. repeat split; try done; lia.
Qed.

Lemma reflect_step_success (s : TaskStep) (r : string) :
  let s' := snd (Reviser.reflect_step s r true) in
  attempts s' = attempts s /\ status s' = Completed /\ result s' = r.
Proof. done. Qed.

(** C5. The consecutive-failure counter goes back to zero on a
    successful dispatch and grows by one on a failed one. In a pass that
    dispatches a step, [revise_plan] is invoked exactly when the dispatch
    failed, the step is then terminally failed, and the counter (the
    failure just made included) is below 3; in every other pass the plan
    keeps its steps but for the dispatched one. So once three consecutive
    failures are counted, a further failure appends no step. *)
Theorem revision_gate (st st' : State) :
  body st = Continue st' ->
  exists i step step' ok,
    Scheduler.next_index (plan_of st) = Some (i, step)
    /\ (exists result,
          step' = snd (Reviser.reflect_step (set_status Running step) result ok))
    /\ dispatches st' = dispatches st ++ [(id step, ok)]
    /\ consecutive_failures st'
       = (if ok then 0 else consecutive_failures st + 1)%Z
    /\ (ok = false /\ status step' = Failed /\ (consecutive_failures st' < 3)%Z ->
        revisions st' = revisions st ++ [id step]
        /\ exists added,
             steps (plan_of st') = <[i := step']> (steps (plan_of st)) ++ added
             /\ (length added = 1%nat \/ length added = 2%nat))
    /\ (~ (ok = false /\ status step' = Failed /\ (consecutive_failures st' < 3)%Z) ->
        revisions st' = revisions st
        /\ steps (plan_of st') = <[i := step']> (steps (plan_of st)))
    /\ ((3 <= consecutive_failures st)%Z -> ok = false ->
        revisions st' = revisions st
        /\ length (steps (plan_of st')) = length (steps (plan_of st))).
Proof.
  intros Hbody. apply body_continue in Hbody as (i & step & step' & result & ok & HP).
  destruct HP as [Hnext Hi Hpend Hrefl Hplan _ _ Hcf Hdis Hrev].
  pose proof (reflect_step_id (set_status Running step) result ok) as (Hid & _).
  simpl in Hid. rewrite <- Hrefl in Hid. rewrite Hid in Hdis, Hrev.
  exists i, step, step', ok.
  split; [done|]. split; [by exists result|]. split; [done|]. split; [done|].
  cbv zeta in Hplan.
  remember (negb ok && bool_decide (status step' = Failed)
            && (consecutive_failures st' <? 3)%Z) as gate eqn:Hgdef.
  assert (Hgate : gate = true
                  <-> ok = false /\ status step' = Failed
                      /\ (consecutive_failures st' < 3)%Z).
  { subst gate. rewrite !andb_true_iff, negb_true_iff, bool_decide_eq_true, Z.ltb_lt.
    split; [intros [[H1 H2] H3] | intros (H1 & H2 & H3)]; auto. }
  clear Hgdef. split; [|split].
  - intros Hyes. apply Hgate in Hyes. rewrite Hyes in Hplan, Hrev.
    split; [done|]. rewrite Hplan.
    destruct (revise_plan_appends step'
                (log_reflection
                   (fst (Reviser.reflect_step (set_status Running step) result ok))
                   (set_steps (<[i:=step']> (steps (plan_of st))) (plan_of st))))
      as (added & Hsteps & Hlen & _).
    exists added. by split.
  - intros Hno. destruct gate; [exfalso; by apply Hno, Hgate|].
    split; [done|]. by rewrite Hplan.
  - intros Hthree ->. simpl in Hcf.
    destruct gate; [pose proof (proj1 Hgate eq_refl); lia|].
    split; [done|]. rewrite Hplan. simpl. by rewrite length_insert.
Qed.

(** *** The attempt budget *)

(** The state of one step that the run maintains. *)
Definition step_ok (s : TaskStep) : Prop :=
  (0 <= attempts s <= max_attempts s)%Z
  /\ (status s = Pending \/ status s = Running ->
      (attempts s < max_attempts s)%Z)
  /\ (status s = Failed ->
      attempts s = max_attempts s \/ error s = deadlock_error).

Definition plan_ok (p : ExecutionPlan) : Prop := Forall step_ok (steps p).

(** Identifiers are the positions, counted from one. *)
Definition numbered (p : ExecutionPlan) : Prop :=
  forall i s, steps p !! i = Some s -> id s = (Z.of_nat i + 1)%Z.

(** The number of failed dispatches of the step [sid] in the log. *)
Definition failures (sid : Z) (log : list (Z * bool)) : nat :=
  length (filter (fun d => d = (sid, false)) log).

Record Inv (st : State) : Prop := {
  inv_plan : plan_ok (plan_of st);
  inv_snapshots : Forall plan_ok (snapshots st);
  inv_last : last (snapshots st) = Some (plan_of st);
  inv_numbered : numbered (plan_of st);
  inv_counted :
    forall i s, steps (plan_of st) !! i = Some s ->
                attempts s = Z.of_nat (failures (id s) (dispatches st));
  inv_range :
    forall sid ok, (sid, ok) ∈ dispatches st ->
                   (1 <= sid <= Z.of_nat (length (steps (plan_of st))))%Z
}.

Lemma step_ok_running (s : TaskStep) :
  step_ok s -> status s = Pending -> step_ok (set_status Running s).
Proof.
  intros (Hb & Hlt & Hf) Hp. unfold step_ok. simpl.
  split; [done|]. split; [intros _; apply Hlt; by left | done].
Qed.

Lemma step_ok_reflected (s : TaskStep) (r : string) (ok : bool) :
  step_ok s -> status s = Pending ->
  step_ok (snd (Reviser.reflect_step (set_status Running s) r ok)).
Proof.
  intros (Hb & Hlt & Hf) Hp.
  assert (Hlt' : (attempts s < max_attempts s)%Z) by (apply Hlt; by left).
  destruct ok.
  - unfold step_ok. simpl. split; [lia|]. split; [intros [?|?]; done | done].
  - unfold Reviser.reflect_step. simpl.
    destruct (max_attempts s <=? attempts s + 1)%Z eqn:Hle; unfold step_ok; simpl.
    + apply Z.leb_le in Hle. split; [lia|]. split; [intros [?|?]; done|].
      intros _. left. lia.
    + apply Z.leb_gt in Hle. split; [lia|]. split; [intros _; lia | done].
Qed.

Lemma step_ok_deadlocked (s : TaskStep) :
  step_ok s ->
  step_ok (if bool_decide (status s = Pending)
           then set_error deadlock_error (set_status Failed s) else s).
Proof.
  intros Hs. case_bool_decide; [|done].
  destruct Hs as (Hb & _ & _). unfold step_ok. simpl.
  split; [done|]. split; [intros [?|?]; done | by right].
Qed.

Lemma plan_ok_revised (fs : TaskStep) (p : ExecutionPlan) :
  plan_ok p -> plan_ok (Reviser.revise_plan fs p).
Proof.
  intros Hp. unfold plan_ok.
  destruct (revise_plan_appends fs p) as (added & -> & _ & Hadded & _).
  apply Forall_app. split; [done|].
  apply Forall_lookup. intros k s Hk.
  destruct (Hadded k s Hk) as (_ & Hst & Hat & Hmax).
  unfold step_ok. rewrite Hst, Hat, Hmax.
  split; [lia|]. split; [intros _; lia | done].
Qed.

Lemma numbered_revised (fs : TaskStep) (p : ExecutionPlan) :
  numbered p -> numbered (Reviser.revise_plan fs p).
Proof.
  intros Hp i s.
  destruct (revise_plan_appends fs p) as (added & -> & _ & Hadded & _).
  rewrite lookup_app_Some. intros [Hi | [Hge Hi]]; [by apply Hp|].
  destruct (Hadded _ _ Hi) as (-> & _). lia.
Qed.

Lemma failures_snoc (sid : Z) (log : list (Z * bool)) (d : Z * bool) :
  failures sid (log ++ [d])
  = (failures sid log + if bool_decide (d = (sid, false)) then 1 else 0)%nat.
Proof.
  unfold failures. rewrite filter_app, length_app. f_equal.
  rewrite filter_cons, filter_nil. case_decide.
  - by rewrite bool_decide_eq_true_2.
  - by rewrite bool_decide_eq_false_2.
Qed.

Lemma failures_out_of_range (sid : Z) (log : list (Z * bool)) (n : Z) :
  (forall sid' ok, (sid', ok) ∈ log -> (1 <= sid' <= n)%Z) ->
  (n < sid)%Z -> failures sid log = 0%nat.
Proof.
  intros Hrange Hout. unfold failures.
  induction log as [|d log IH]; [done|].
  rewrite filter_cons. case_decide as Hd.
  - subst d. specialize (Hrange sid false ltac:(left)). lia.
  - apply IH. intros sid' ok Hin. apply (Hrange sid' ok). by right.
Qed.

Lemma maybe_revised (gate : bool) (fs : TaskStep) (p : ExecutionPlan) :
  exists added,
    steps (if gate then Reviser.revise_plan fs p else p) = steps p ++ added
    /\ forall k s, added !! k = Some s ->
         id s = (Z.of_nat (length (steps p) + k) + 1)%Z
         /\ status s = Pending /\ attempts s = 0%Z /\ max_attempts s = 2%Z.
Proof.
  destruct gate.
  - destruct (revise_plan_appends fs p) as (added & Hs & _ & Ha & _). by exists added.
  - exists []. rewrite app_nil_r. split; [done|]. intros k s Hk. by destruct k.
Qed.

Lemma inv_continue (st st' : State) :
  Inv st -> body st = Continue st' -> Inv st'.
Proof.
  intros [Hplan Hsnap Hlast Hnum Hcount Hrange] Hbody.
  apply body_continue in Hbody as (i & step & step' & result & ok & HP).
  destruct HP as [_ Hi Hpend Hrefl Hplan' (p1 & p2 & Hsn & Hp1 & Hp2) _ _ Hdis _].
  cbv zeta in Hplan'.
  set (l := steps (plan_of st)) in *.
  pose proof (reflect_step_id (set_status Running step) result ok) as (Hid & _).
  simpl in Hid. rewrite <- Hrefl in Hid.
  assert (Hstep_ok : step_ok step).
  { unfold plan_ok in Hplan. rewrite Forall_lookup in Hplan. by apply (Hplan i). }
  assert (Hstep'_ok : step_ok step').
  { rewrite Hrefl. by apply step_ok_reflected. }
  assert (Hilt : (i < length l)%nat) by by eapply lookup_lt_Some.
  destruct (maybe_revised
              (negb ok && bool_decide (status step' = Failed)
               && (consecutive_failures st' <? 3)%Z)
              step'
              (log_reflection
                 (fst (Reviser.reflect_step (set_status Running step) result ok))
                 (set_steps (<[i:=step']> l) (plan_of st))))
    as (added & Hsteps & Hadded).
  rewrite <- Hplan' in Hsteps. simpl in Hsteps.
  assert (Hadded_ok : Forall step_ok added).
  { apply Forall_lookup. intros k s Hk.
    destruct (Hadded k s Hk) as (_ & Hst & Hat & Hmax).
    unfold step_ok. rewrite Hst, Hat, Hmax.
    split; [lia|]. split; [intros _; lia | done]. }
  assert (Hfinal_ok : plan_ok (plan_of st')).
  { unfold plan_ok. rewrite Hsteps. apply Forall_app. split; [|done].
    by apply Forall_insert. }
  constructor.
  - done.
  - rewrite Hsn. apply Forall_app. split; [done|].
    repeat constructor; [| |done].
    + unfold plan_ok. rewrite Hp1. apply Forall_insert; [done|].
      by apply step_ok_running.
    + unfold plan_ok. rewrite Hp2. by apply Forall_insert.
  - rewrite Hsn.
    replace (snapshots st ++ [p1; p2; plan_of st'])
      with ((snapshots st ++ [p1; p2]) ++ [plan_of st'])
      by (by rewrite <- app_assoc).
    apply last_snoc.
  - intros j s. rewrite Hsteps, lookup_app_Some.
    intros [Hj | [Hge Hj]].
    + destruct (decide (i = j)) as [<- | Hne].
      * rewrite list_lookup_insert_eq in Hj by done. injection Hj as <-.
        rewrite Hid. by apply Hnum.
      * rewrite list_lookup_insert_ne in Hj by done. by apply Hnum.
    + rewrite length_insert in Hge, Hj.
      destruct (Hadded _ _ Hj) as (-> & _). simpl. rewrite length_insert.
      fold l. lia.
  - intros j s. rewrite Hsteps, lookup_app_Some, Hdis, failures_snoc.
    intros [Hj | [Hge Hj]].
    + destruct (decide (i = j)) as [<- | Hne].
      * rewrite list_lookup_insert_eq in Hj by done. injection Hj as <-.
        rewrite Hid. rewrite Hrefl. destruct ok.
        -- rewrite bool_decide_eq_false_2 by congruence.
           simpl. rewrite (Hcount i step Hi). lia.
        -- rewrite bool_decide_eq_true_2 by done.
           destruct (reflect_step_failure (set_status Running step) result) as (-> & _).
           simpl. rewrite (Hcount i step Hi). lia.
      * rewrite list_lookup_insert_ne in Hj by done.
        rewrite bool_decide_eq_false_2.
        { rewrite (Hcount j s Hj). lia. }
        intros [= Heq _]. rewrite Hid in Heq.
        rewrite (Hnum i step Hi), (Hnum j s Hj) in Heq. lia.
    + rewrite length_insert in Hge, Hj.
      destruct (Hadded _ _ Hj) as (Hsid & _ & -> & _). simpl in Hsid.
      rewrite length_insert in Hsid. fold l in Hsid.
      rewrite (failures_out_of_range (id s) (dispatches st) (Z.of_nat (length l)));
        [|done|lia].
      rewrite bool_decide_eq_false_2; [done|].
      intros [= Heq _]. rewrite Hid, (Hnum i step Hi) in Heq. lia.
  - intros sid ok'. rewrite Hdis, elem_of_app, list_elem_of_singleton.
    rewrite Hsteps, length_app, length_insert. fold l.
    intros [Hin | [= -> ->]].
    + specialize (Hrange sid ok' Hin). lia.
    + rewrite Hid, (Hnum i step Hi). lia.
Qed.

Lemma inv_break (st st' : State) :
  Inv st -> body st = Break st' -> Inv st'.
Proof.
  intros HI Hbody.
  apply body_break in Hbody as (_ & _ & _ & Hdis & _ & Hcase).
  destruct Hcase as [(_ & Hp & Hsn) | (_ & ->)]; [|done].
  destruct HI as [Hplan Hsnap Hlast Hnum Hcount Hrange].
  assert (Hok : plan_ok (plan_of st')).
  { rewrite Hp. unfold plan_ok, mark_deadlocked. simpl.
    apply Forall_fmap. eapply Forall_impl; [exact Hplan|].
    intros s Hs. by apply step_ok_deadlocked. }
  assert (Hlook : forall j s', steps (plan_of st') !! j = Some s' ->
            exists s, steps (plan_of st) !! j = Some s
                      /\ id s' = id s /\ attempts s' = attempts s).
  { intros j s'. rewrite Hp. unfold mark_deadlocked. simpl.
    rewrite list_lookup_fmap.
    destruct (steps (plan_of st) !! j) as [s|]; [|done].
    intros [= <-]. exists s. split; [done|]. by case_bool_decide. }
  constructor.
  - done.
  - rewrite Hsn. apply Forall_app. split; [done | by repeat constructor].
  - rewrite Hsn. apply last_snoc.
  - intros j s' Hj. destruct (Hlook j s' Hj) as (s & Hs & -> & _). by apply Hnum.
  - intros j s' Hj. destruct (Hlook j s' Hj) as (s & Hs & -> & ->).
    rewrite Hdis. by apply (Hcount j).
  - intros sid ok. rewrite Hdis, Hp. unfold mark_deadlocked. simpl.
    rewrite length_fmap. apply Hrange.
Qed.

Lemma inv_raise (st st' : State) (e : Fault) :
  Inv st -> body st = Raise e st' -> Inv st'.
Proof.
  intros [Hplan Hsnap Hlast Hnum Hcount Hrange] Hbody.
  apply body_raise in Hbody
    as (i & step & _ & Hi & Hpend & _ & _ & Hp & Hsn & _ & Hdis & _).
  assert (Hsteps : steps (plan_of st')
                   = <[i := set_status Running step]> (steps (plan_of st))).
  { rewrite Hp. unfold started, update_step. by rewrite Hi. }
  assert (Hstep_ok : step_ok step).
  { unfold plan_ok in Hplan. rewrite Forall_lookup in Hplan. by apply (Hplan i). }
  assert (Hok : plan_ok (plan_of st')).
  { unfold plan_ok. rewrite Hsteps. apply Forall_insert; [done|].
    by apply step_ok_running. }
  assert (Hilt : (i < length (steps (plan_of st)))%nat) by by eapply lookup_lt_Some.
  assert (Hlook : forall j s', steps (plan_of st') !! j = Some s' ->
            exists s, steps (plan_of st) !! j = Some s
                      /\ id s' = id s /\ attempts s' = attempts s).
  { intros j s'. rewrite Hsteps. destruct (decide (i = j)) as [<- | Hne].
    - rewrite list_lookup_insert_eq by done. intros [= <-]. by exists step.
    - rewrite list_lookup_insert_ne by done. intros Hj. by exists s'. }
  constructor.
  - done.
  - rewrite Hsn. apply Forall_app. split; [done | by repeat constructor].
  - rewrite Hsn. apply last_snoc.
  - intros j s' Hj. destruct (Hlook j s' Hj) as (s & Hs & -> & _). by apply Hnum.
  - intros j s' Hj. destruct (Hlook j s' Hj) as (s & Hs & -> & ->).
    rewrite Hdis. by apply (Hcount j).
  - intros sid ok. rewrite Hdis, Hsteps, length_insert. apply Hrange.
Qed.

Lemma steps_from_lookup (k : Z) (agent_tasks : list (string * TaskInfo))
    (i : nat) (s : TaskStep) :
  steps_from k agent_tasks !! i = Some s ->
  id s = (k + Z.of_nat i + 1)%Z /\ status s = Pending /\ attempts s = 0%Z
  /\ max_attempts s = default_max_attempts.
Proof.
  revert k i. induction agent_tasks as [|[name info] rest IH]; intros k i; [done|].
  destruct i as [|i]; simpl.
  - intros [= <-]. simpl. repeat split; lia.
  - intros H. apply IH in H as (-> & ? & ? & ?). repeat split; try done. lia.
Qed.

Lemma steps_from_length (k : Z) (agent_tasks : list (string * TaskInfo)) :
  length (steps_from k agent_tasks) = length agent_tasks.
Proof.
  revert k. induction agent_tasks as [|[name info] rest IH]; intros k; [done|].
  simpl. by rewrite IH.
Qed.

Lemma inv_initial (goal : string) (agent_tasks : list (string * TaskInfo))
    (o : @Orchestrator.Orch W) :
  Inv (initial (create_plan_from_tasks goal agent_tasks) o).
Proof.
  assert (Hok : plan_ok (create_plan_from_tasks goal agent_tasks)).
  { apply Forall_lookup. intros i s Hi.
    apply steps_from_lookup in Hi as (_ & Hst & Hat & Hmax).
    unfold step_ok. rewrite Hst, Hat, Hmax. unfold default_max_attempts.
    split; [lia|]. split; [intros _; lia | done]. }
  constructor; simpl; try done.
  - by repeat constructor.
  - intros i s Hi. apply steps_from_lookup in Hi as (-> & _). lia.
  - intros i s Hi. by apply steps_from_lookup in Hi as (_ & _ & -> & _).
  - intros sid ok Hin. inversion Hin.
Qed.

(** C2 (amended). At every point of a run (every snapshot of the plan
    between two mutations) every step has [attempts <= max_attempts], and
    a failed step either has used its whole budget or carries the
    dependency-deadlock error, which the deadlock rule gives to steps
    that are still pending whatever their attempt count. When the run
    stops, the attempt counter of each step is the number of its failed
    dispatches. A failed dispatch makes [reflect] add one to the
    counter and keep the error text; the step returns to pending below
    the budget and becomes failed at the budget. *)
Theorem attempts_within_budget (fuel : nat) (goal : string)
    (agent_tasks : list (string * TaskInfo)) (o : @Orchestrator.Orch W)
    (st : State) :
  last_state
    (while fuel (max_iterations_of (create_plan_from_tasks goal agent_tasks))
       (initial (create_plan_from_tasks goal agent_tasks) o)) = Some st ->
  (forall p s, p ∈ snapshots st -> s ∈ steps p ->
     (attempts s <= max_attempts s)%Z
     /\ (status s = Failed ->
         attempts s = max_attempts s \/ error s = deadlock_error))
  /\ last (snapshots st) = Some (plan_of st)
  /\ (forall s, s ∈ steps (plan_of st) ->
        attempts s = Z.of_nat (failures (id s) (dispatches st))
        /\ (status s = Failed ->
            Z.of_nat (failures (id s) (dispatches st)) = max_attempts s
            \/ error s = deadlock_error))
  /\ (forall s r,
        let s' := snd (Reviser.reflect_step s r false) in
        attempts s' = (attempts s + 1)%Z
        /\ error s' = r
        /\ ((attempts s + 1 < max_attempts s)%Z -> status s' = Pending)
        /\ ((max_attempts s <= attempts s + 1)%Z -> status s' = Failed)).
Proof.
  intros Hlast.
  assert (HI : Inv st).
  { eapply (while_invariant Inv); [| | | |exact Hlast].
    - apply inv_continue.
    - apply inv_break.
    - intros st1 st2 e. apply inv_raise.
    - apply inv_initial. }
  destruct HI as [Hplan Hsnap Hl Hnum Hcount Hrange].
  split; [|split; [done|split]].
  - intros p s Hp Hs. rewrite Forall_forall in Hsnap.
    specialize (Hsnap p Hp). unfold plan_ok in Hsnap. rewrite Forall_forall in Hsnap.
    destruct (Hsnap s Hs) as ([_ Hle] & _ & Hf). by split.
  - intros s Hs. apply list_elem_of_lookup_1 in Hs as [i Hi].
    pose proof (Hcount i s Hi) as Hc. split; [done|].
    unfold plan_ok in Hplan. rewrite Forall_lookup in Hplan.
    destruct (Hplan i s Hi) as (_ & _ & Hf). intros Hfailed.
    rewrite <- Hc. by apply Hf.
  - intros s r. cbv zeta.
    destruct (reflect_step_failure s r) as (H1 & H2 & H3 & H4 & _). by repeat split.
Qed.

(** With the default worker registered the loop raises nothing. *)
Lemma while_no_fault (fuel : nat) (max_iterations : Z) (st st' : State) (e : Fault) :
  Orchestrator.has_agent agents "coder" = true ->
  while fuel max_iterations st <> Faulted e st'.
Proof.
  intros Hcoder. revert st. induction fuel as [|fuel IH]; intros st; simpl.
  - by destruct (negb _ && _).
  - destruct (negb _ && _); [|done].
    destruct (body st) as [st1|st1|e1 st1] eqn:Hbody; [apply IH | done |].
    apply body_raise in Hbody as (i & step & _ & _ & _ & _ & Hnone & _).
    pose proof (resolve_key_registered agents (agent_type step) Hcoder) as [x Hx].
    congruence.
Qed.

(** Every run stops within the fuel of [enough_fuel], after at most four
    passes per initial step; and a run whose registry holds the default
    worker, and whose visual verification asks for no fix, returns its
    summary. *)
Lemma run_loop_stops (goal : string) (agent_tasks : list (string * TaskInfo))
    (o : @Orchestrator.Orch W) :
  run (enough_fuel agent_tasks) goal agent_tasks o <> Unfinished
  /\ (forall st,
        last_state
          (while (enough_fuel agent_tasks)
             (max_iterations_of (create_plan_from_tasks goal agent_tasks))
             (initial (create_plan_from_tasks goal agent_tasks) o)) = Some st ->
        (0 <= iteration st <= 4 * Z.of_nat (length agent_tasks))%Z)
  /\ (Orchestrator.has_agent agents "coder" = true ->
      (forall g w', fst (inspect_site g w') = None) ->
      exists text st, run (enough_fuel agent_tasks) goal agent_tasks o = Summary text st).
Proof.
  set (p := create_plan_from_tasks goal agent_tasks).
  assert (Hmax : max_iterations_of p = (4 * Z.of_nat (length agent_tasks))%Z).
  { unfold max_iterations_of, p. simpl. rewrite steps_from_length. lia. }
  assert (Hfuel : while (enough_fuel agent_tasks) (max_iterations_of p) (initial p o)
                  <> OutOfFuel).
  { apply while_has_fuel. rewrite Hmax. unfold enough_fuel. simpl. lia. }
  split; [|split].
  - unfold run_loop. fold p.
    destruct (while_loop _ _ _ _ _ _ _) as [st|e st|] eqn:Hw; [|done|done].
    unfold conclude.
    destruct (_visual_verification _ _ _ _) as [[[|c fx]|] w'];
      try destruct (Orchestrator.agent_of agents "coder");
      try destruct (Orchestrator.call _ _ _ _) as [[a ok|msg] o']; done.
  - intros st Hst. fold p in Hst.
    apply while_iterations in Hst; simpl in *; lia.
  - intros Hcoder Hquiet. unfold run_loop. fold p.
    destruct (while_loop _ _ _ _ _ _ _) as [st|e st|] eqn:Hw.
    + unfold conclude.
      assert (Hv : fst (_visual_verification agents inspect_site goal
                          (Orchestrator.world (orch st))) = None).
      { unfold _visual_verification.
        destruct (negb _); [done|]. destruct (negb _); [done|]. apply Hquiet. }
      destruct (_visual_verification _ _ _ _) as [v w']. simpl in Hv. subst v.
      simpl. by eexists _, _.
    + by apply while_no_fault in Hw.
    + done.
Qed.

End RunFacts.

(* ===================================================================== *)
(** ** The self-correction loop *)
(* ===================================================================== *)

Section SelfCorrectionFacts.

Import SelfCorrection.

Context {W : Type}.
Variable llm_request : list (string * string) -> W -> string * W.
Variable execute_modules :
  string -> gset string -> W
  -> (bool * string) * list (string * string) * gset string * W.
Variable install_package : string -> W -> bool * W.

Set Default Proof Using "Type".

Abbreviation Coder := (@Agent W).
Abbreviation auto_install := (_auto_install_from_error install_package).
Abbreviation remedy := (remediate install_package).
Abbreviation correct :=
  (correct_from llm_request execute_modules install_package).
Abbreviation self_correct :=
  (_self_correct_execution llm_request execute_modules install_package).

Definition is_request (e : Event) : bool :=
  match e with Request _ => true | _ => false end.

Definition is_execute (e : Event) : bool :=
  match e with Execute _ _ _ => true | _ => false end.

(** The number of regeneration requests in a trace. *)
Definition requests (tr : list Event) : nat :=
  length (List.filter is_request tr).

(** An execution counts as a success when it succeeded and its feedback
    holds no error indicator. *)
Definition clean (ok : bool) (feedback : string) : bool :=
  ok && negb (Coder._has_error_in_output (Some feedback)).

Definition no_clean (tr : list Event) : Prop :=
  forall answer ok feedback,
    Execute answer ok feedback ∈ tr -> clean ok feedback = false.

(** The answer and the feedback of the last execution of a trace, or
    [dflt] when nothing was executed. *)
Fixpoint last_execution (tr : list Event) (dflt : string * string)
    : string * string :=
  match tr with
  | [] => dflt
  | Execute answer _ feedback :: rest => last_execution rest (answer, feedback)
  | _ :: rest => last_execution rest dflt
  end.

(** Every browse query of the trace comes right after a call of the
    direct-install routine that returned false. *)
Definition browse_after_failed_install (tr : list Event) : Prop :=
  forall pre package_name info post,
    tr = pre ++ Browse package_name info :: post ->
    exists pre' error_text, pre = pre' ++ [AutoInstall error_text false].

Inductive guarded : list Event -> Prop :=
  | guarded_nil : guarded []
  | guarded_cons e tr :
      (forall p i, e <> Browse p i) -> guarded tr -> guarded (e :: tr)
  | guarded_browse error_text p i tr :
      guarded tr -> guarded (AutoInstall error_text false :: Browse p i :: tr).

Lemma guarded_app (t1 t2 : list Event) :
  guarded t1 -> guarded t2 -> guarded (t1 ++ t2).
Proof.
  intros H1 H2. induction H1; simpl; [done | by constructor | by constructor].
Qed.

Lemma guarded_sound (tr : list Event) :
  guarded tr -> browse_after_failed_install tr.
Proof.
  intros H. induction H as [|e tr He _ IH|error_text p i tr _ IH];
    intros pre q j post Heq.
  - by destruct pre.
  - destruct pre as [|e' pre]; simpl in Heq.
    + injection Heq as -> _. by destruct (He q j).
    + injection Heq as <- Heq. destruct (IH _ _ _ _ Heq) as (pre' & fb & ->).
      by exists (e :: pre'), fb.
  - destruct pre as [|e1 [|e2 pre]]; simpl in Heq.
    + discriminate.
    + injection Heq as <- _ _. by exists [], error_text.
    + injection Heq as <- <- Heq. destruct (IH _ _ _ _ Heq) as (pre' & fb & ->).
      by exists (AutoInstall error_text false :: Browse p i :: pre'), fb.
Qed.

(** A trace without requests and executions. *)
Definition quiet (tr : list Event) : Prop :=
  Forall (fun e => is_request e = false /\ is_execute e = false) tr.

Lemma requests_app (t1 t2 : list Event) :
  requests (t1 ++ t2) = (requests t1 + requests t2)%nat.
Proof. unfold requests. by rewrite List.filter_app, length_app. Qed.

Lemma quiet_requests (tr : list Event) : quiet tr -> requests tr = 0%nat.
Proof.
  unfold requests. induction 1 as [|e tr [He _] _ IH]; [done|].
  simpl. by rewrite He.
Qed.

Lemma last_execution_app (t1 t2 : list Event) (d : string * string) :
  last_execution (t1 ++ t2) d = last_execution t2 (last_execution t1 d).
Proof.
  revert d. induction t1 as [|e t1 IH]; intros d; [done|].
  destruct e; simpl; apply IH.
Qed.

Lemma quiet_last_execution (tr : list Event) (d : string * string) :
  quiet tr -> last_execution tr d = d.
Proof.
  induction 1 as [|e tr [_ He] _ IH]; [done|]. by destruct e.
Qed.

Lemma quiet_no_clean (tr : list Event) : quiet tr -> no_clean tr.
Proof.
  intros Hq answer ok feedback Hin.
  unfold quiet in Hq. rewrite Forall_forall in Hq.
  by destruct (Hq _ Hin) as [_ ?].
Qed.

Lemma no_clean_app (t1 t2 : list Event) :
  no_clean t1 -> no_clean t2 -> no_clean (t1 ++ t2).
Proof.
  intros H1 H2 answer ok feedback Hin.
  apply elem_of_app in Hin as [Hin | Hin]; eauto.
Qed.

(** The events of one remediation block for the feedback [fb]: nothing,
    or the direct-install routine (with the package installation it may
    make) followed, only when it returned false, by one browse query. *)
Definition remedy_trace (fb : string) (tr : list Event) : Prop :=
  tr = []
  \/ exists pips ok bs,
       tr = pips ++ [AutoInstall fb ok] ++ bs
       /\ (pips = [] \/ exists pkg, pips = [Pip pkg ok])
       /\ (bs = [] \/ (ok = false /\ exists p i, bs = [Browse p i])).

Lemma remedy_trace_quiet (fb : string) (tr : list Event) :
  remedy_trace fb tr -> quiet tr /\ guarded tr.
Proof.
  intros [-> | (pips & ok & bs & -> & Hp & Hb)]; [split; constructor|].
  destruct Hp as [-> | [pkg ->]], Hb as [-> | [-> (p & i & ->)]]; simpl;
    split; repeat constructor; done.
Qed.

Lemma auto_install_effect (error_text : string) (a : Coder) :
  let r := auto_install error_text a in
  self_correction_max (snd r) = self_correction_max a
  /\ browser_agent (snd r) = browser_agent a
  /\ memory (snd r) = memory a
  /\ exists pips,
       trace (snd r) = trace a ++ pips ++ [AutoInstall error_text (fst r)]
       /\ (pips = [] \/ exists pkg, pips = [Pip pkg (fst r)]).
Proof.
  unfold _auto_install_from_error.
  destruct (Patterns.search_quoted_module error_text) as [m|]; simpl.
  2:{ repeat split. exists []. split; [done | by left]. }
  case_bool_decide; simpl.
  { repeat split. exists []. split; [done | by left]. }
  destruct (install_package _ _) as [ok w]. destruct ok; simpl.
  - repeat split. eexists [_]. split; [by rewrite <- app_assoc|]. right. by eexists.
  - repeat split. eexists [_]. split; [by rewrite <- app_assoc|]. right. by eexists.
Qed.

Lemma browse_help_effect (pkg error_text : string) (a : Coder) :
  let r := _browse_for_install_help pkg error_text a in
  self_correction_max (snd r) = self_correction_max a
  /\ browser_agent (snd r) = browser_agent a
  /\ memory (snd r) = memory a
  /\ (trace (snd r) = trace a \/ exists i, trace (snd r) = trace a ++ [Browse pkg i]).
Proof.
  unfold _browse_for_install_help.
  destruct (browser_agent a) as [browser|] eqn:Hbr; simpl.
  - destruct (browser _ _) as [out w]. simpl.
    split; [done|]. split; [done|]. split; [done|]. right. by eexists.
  - split; [done|]. split; [done|]. split; [done|]. by left.
Qed.

Lemma remediate_effect (fb : string) (a : Coder) :
  let r := remedy fb a in
  self_correction_max (snd r) = self_correction_max a
  /\ browser_agent (snd r) = browser_agent a
  /\ memory (snd r) = memory a
  /\ exists tr, trace (snd r) = trace a ++ tr /\ remedy_trace fb tr.
Proof.
  assert (Hnone : exists tr, trace a = trace a ++ tr /\ remedy_trace fb tr).
  { exists []. rewrite app_nil_r. split; [done | by left]. }
  unfold remediate. destruct (_ || _); [|by repeat split].
  destruct (Patterns.search_quoted_module fb) as [m|]; [|by repeat split].
  pose proof (auto_install_effect fb a) as Ha. cbv zeta in Ha.
  destruct (_auto_install_from_error install_package fb a) as [ok a1].
  simpl in Ha. destruct Ha as (Hmax & Hbr & Hmem & pips & Htr & Hpips).
  destruct (negb ok && _) eqn:Hgo.
  - apply andb_true_iff in Hgo as [Hok _]. apply negb_true_iff in Hok as ->.
    pose proof (browse_help_effect (Text.before_dot m) fb a1) as Hb. cbv zeta in Hb.
    destruct (_browse_for_install_help _ _ a1) as [info a2].
    simpl in Hb. destruct Hb as (Hmax2 & Hbr2 & Hmem2 & Htr2). simpl.
    split; [congruence|]. split; [congruence|]. split; [congruence|].
    destruct Htr2 as [Htr2 | [i Htr2]]; rewrite Htr2, Htr.
    + exists (pips ++ [AutoInstall fb false]). split; [done|].
      right. exists pips, false, []. rewrite app_nil_r. split; [done|]. split; [done | by left].
    + exists (pips ++ [AutoInstall fb false] ++ [Browse (Text.before_dot m) i]).
      split; [by rewrite <- !app_assoc|].
      right. exists pips, false, [Browse (Text.before_dot m) i].
      split; [done|]. split; [done|]. right. split; [done|]. by eexists _, _.
  - simpl. split; [done|]. split; [done|]. split; [done|].
    exists (pips ++ [AutoInstall fb ok]). split; [done|].
    right. exists pips, ok, []. rewrite app_nil_r. split; [done|]. split; [done | by left].
Qed.

Lemma no_clean_single (answer : string) (ok : bool) (feedback : string) :
  clean ok feedback = false -> no_clean [Execute answer ok feedback].
Proof.
  intros Hc a o f Hin. apply list_elem_of_singleton in Hin. by injection Hin as -> -> ->.
Qed.

Lemma no_clean_request (answer : string) : no_clean [Request answer].
Proof. intros a o f Hin. apply list_elem_of_singleton in Hin. discriminate. Qed.

Lemma guarded_single (e : Event) :
  (forall p i, e <> Browse p i) -> guarded [e].
Proof. intros He. constructor; [done | constructor]. Qed.

(** The loop entered with the counter [n]: it returns, and its trace has
    the shape that the result tells. *)
Lemma correct_from_spec (fuel : nat) (n : Z) (fb ans : string) (a : Coder) :
  (Z.to_nat (self_correction_max a - n) <= fuel)%nat ->
  exists ok out fbk a' tr,
    correct fuel n fb ans a = Some ((ok, out, fbk), a')
    /\ trace a' = trace a ++ tr
    /\ guarded tr
    /\ (ok = false ->
        requests tr = Z.to_nat (self_correction_max a - n)
        /\ no_clean tr
        /\ (out, fbk) = last_execution tr (ans, fb))
    /\ (ok = true ->
        exists tr0,
          tr = tr0 ++ [Execute out true fbk]
          /\ clean true fbk = true
          /\ no_clean tr0
          /\ (requests tr <= Z.to_nat (self_correction_max a - n))%nat).
Proof.
  revert n fb ans a. induction fuel as [|fuel IH]; intros n fb ans a Hfuel;
    cbn [correct_from];
    destruct (n <? self_correction_max a)%Z eqn:Hlt.
  1: apply Z.ltb_lt in Hlt; lia.
  1,3: apply Z.ltb_ge in Hlt;
       exists false, ans, fb, a, []; rewrite app_nil_r;
       split; [done|]; split; [done|]; split; [constructor|];
       split; [|done]; intros _;
       split; [unfold requests; simpl; lia|]; split; [|done];
       intros x y z Hin; inversion Hin.
  apply Z.ltb_lt in Hlt.
  pose proof (remediate_effect fb a) as Hr. cbv zeta in Hr.
  destruct (remediate install_package fb a) as [info a1]. simpl in Hr.
  destruct Hr as (Hmax1 & _ & _ & tr_r & Htr1 & Hshape).
  apply remedy_trace_quiet in Hshape as [Hquiet Hguard].
  set (a2 := push "user" _ a1).
  destruct (llm_request (memory a2) (world a2)) as [answer w].
  set (a3 := emit (Request answer) (set_world w a2)).
  assert (Hmax3 : self_correction_max a3 = self_correction_max a) by done.
  assert (Htr3 : trace a3 = trace a ++ tr_r ++ [Request answer]).
  { simpl. rewrite Htr1. by rewrite <- app_assoc. }
  assert (Hreq : requests (tr_r ++ [Request answer]) = 1%nat).
  { rewrite requests_app, (quiet_requests _ Hquiet). done. }
  assert (Hbudget : Z.to_nat (self_correction_max a - n)
                    = S (Z.to_nat (self_correction_max a - (n + 1)))) by lia.
  destruct (negb (Text.str_in "```" answer)).
  - destruct (IH (n + 1)%Z fb ans a3) as (ok & out & fbk & a' & tr & Hres & Htr & Hg & Hf & Ht).
    { rewrite Hmax3. lia. }
    rewrite Hmax3 in Hf, Ht.
    exists ok, out, fbk, a', ((tr_r ++ [Request answer]) ++ tr).
    split; [done|]. split; [rewrite Htr, Htr3; by rewrite <- !app_assoc|].
    split; [apply guarded_app; [apply guarded_app|]; try done;
            by apply guarded_single|].
    split.
    + intros Hok. destruct (Hf Hok) as (Hn & Hnc & Hlast).
      split; [rewrite requests_app, Hreq, Hn; lia|].
      split; [apply no_clean_app; [apply no_clean_app|]; try done;
              [by apply quiet_no_clean | apply no_clean_request]|].
      rewrite !last_execution_app, (quiet_last_execution _ _ Hquiet). done.
    + intros Hok. destruct (Ht Hok) as (tr0 & -> & Hc & Hnc & Hn).
      exists ((tr_r ++ [Request answer]) ++ tr0).
      split; [by rewrite <- !app_assoc|]. split; [done|].
      split; [apply no_clean_app; [apply no_clean_app|]; try done;
              [by apply quiet_no_clean | apply no_clean_request]|].
      rewrite requests_app, Hreq. lia.
  - destruct (execute_modules answer (installed_packages a3) (world a3))
      as [[[[es feedback] pushed] pk] w'].
    set (a4 := emit (Execute answer es feedback)
                 (set_installed pk (set_world w' (push_all pushed a3)))).
    assert (Hmax4 : self_correction_max a4 = self_correction_max a) by done.
    assert (Htr4 : trace a4 = trace a ++ (tr_r ++ [Request answer])
                              ++ [Execute answer es feedback]).
    { simpl. rewrite Htr1. by rewrite <- !app_assoc. }
    fold (clean es feedback).
    destruct (clean es feedback) eqn:Hclean.
    + assert (es = true) as -> by (by destruct es).
      exists true, answer, feedback, a4,
        ((tr_r ++ [Request answer]) ++ [Execute answer true feedback]).
      split; [done|]. split; [done|].
      split; [apply guarded_app; [apply guarded_app|]; try done;
              by apply guarded_single|].
      split; [done|]. intros _. exists (tr_r ++ [Request answer]).
      split; [done|]. split; [done|].
      split; [apply no_clean_app; [by apply quiet_no_clean | apply no_clean_request]|].
      rewrite requests_app, Hreq. unfold requests. simpl. lia.
    + destruct (IH (n + 1)%Z feedback answer a4)
        as (ok & out & fbk & a' & tr & Hres & Htr & Hg & Hf & Ht).
      { rewrite Hmax4. lia. }
      rewrite Hmax4 in Hf, Ht.
      set (head := (tr_r ++ [Request answer]) ++ [Execute answer es feedback]).
      assert (Hhead_req : requests head = 1%nat).
      { unfold head. rewrite requests_app, Hreq. done. }
      assert (Hhead_nc : no_clean head).
      { unfold head. apply no_clean_app; [apply no_clean_app|].
        - by apply quiet_no_clean.
        - apply no_clean_request.
        - by apply no_clean_single. }
      assert (Hhead_g : guarded head).
      { unfold head. apply guarded_app; [apply guarded_app|]; try done;
          by apply guarded_single. }
      exists ok, out, fbk, a', (head ++ tr).
      split; [done|]. split; [rewrite Htr, Htr4; unfold head; by rewrite <- !app_assoc|].
      split; [by apply guarded_app|].
      split.
      * intros Hok. destruct (Hf Hok) as (Hn & Hnc & Hlast).
        split; [rewrite requests_app, Hhead_req, Hn; lia|].
        split; [by apply no_clean_app|].
        unfold head. rewrite !last_execution_app, (quiet_last_execution _ _ Hquiet).
        done.
      * intros Hok. destruct (Ht Hok) as (tr0 & -> & Hc & Hnc & Hn).
        exists (head ++ tr0).
        split; [by rewrite <- !app_assoc|]. split; [done|].
        split; [by apply no_clean_app|].
        rewrite requests_app, Hhead_req. lia.
Qed.

(** The missing-module signature that the loop looks for. *)
Definition missing_module_signature (feedback : string) : bool :=
  let l := Text.lower feedback in
  Text.str_in "no module named" l || Text.str_in "modulenotfounderror" l.

(** An attempt whose feedback carries the signature and names the module
    between quotes calls the direct-install routine first, and queries
    the browser only when that routine returned false. *)
Lemma remediate_installs_first (fb m : string) (a : Coder) :
  missing_module_signature fb = true ->
  Patterns.search_quoted_module fb = Some m ->
  exists pips ok bs,
    trace (snd (remedy fb a)) = trace a ++ pips ++ [AutoInstall fb ok] ++ bs
    /\ (pips = [] \/ exists pkg, pips = [Pip pkg ok])
    /\ (bs = []
        \/ (ok = false /\ is_Some (browser_agent a)
            /\ exists i, bs = [Browse (Text.before_dot m) i])).
Proof.
  intros Hsig Hm. unfold remediate. unfold missing_module_signature in Hsig.
  cbv zeta in Hsig. rewrite Hsig, Hm.
  pose proof (auto_install_effect fb a) as Ha. cbv zeta in Ha.
  destruct (_auto_install_from_error install_package fb a) as [ok a1].
  simpl in Ha. destruct Ha as (_ & Hbr & _ & pips & Htr & Hpips).
  destruct (negb ok && _) eqn:Hgo.
  - apply andb_true_iff in Hgo as [Hok Hsome]. apply negb_true_iff in Hok as ->.
    pose proof (browse_help_effect (Text.before_dot m) fb a1) as Hb. cbv zeta in Hb.
    destruct (_browse_for_install_help _ _ a1) as [info a2].
    simpl in Hb. destruct Hb as (_ & _ & _ & Htr2). simpl.
    destruct Htr2 as [Htr2 | [i Htr2]]; rewrite Htr2, Htr.
    + exists pips, false, []. split; [done|]. split; [done | by left].
    + exists pips, false, [Browse (Text.before_dot m) i].
      split; [by rewrite <- !app_assoc|]. split; [done|]. right.
      split; [done|]. split; [|by eexists].
      rewrite <- Hbr. by destruct (browser_agent a1).
  - simpl. exists pips, ok, []. split; [done|]. split; [done | by left].
Qed.

(** The events of the remediation block of an attempt whose current
    feedback is [fb]: nothing, unless the feedback carries the signature
    and names the module between quotes; then the direct-install routine
    (with the installation that it may make) and, only when it returned
    false and a browser is linked, one browse query. *)
Definition head_of_attempt (linked : Prop) (fb : string) (rem : list Event)
    : Prop :=
  match Patterns.search_quoted_module fb with
  | Some m =>
      if missing_module_signature fb then
        exists pips ok bs,
          rem = pips ++ [AutoInstall fb ok] ++ bs
          /\ (pips = [] \/ exists pkg, pips = [Pip pkg ok])
          /\ (bs = []
              \/ (ok = false /\ linked
                  /\ exists i, bs = [Browse (Text.before_dot m) i]))
      else rem = []
  | None => rem = []
  end.

Lemma head_of_attempt_quiet (linked : Prop) (fb : string) (rem : list Event) :
  head_of_attempt linked fb rem -> quiet rem.
Proof.
  unfold head_of_attempt.
  destruct (Patterns.search_quoted_module fb); [|intros ->; constructor].
  destruct (missing_module_signature fb); [|intros ->; constructor].
  intros (pips & ok & bs & -> & Hp & Hb).
  destruct Hp as [-> | [pkg ->]], Hb as [-> | (-> & _ & i & ->)]; simpl;
    repeat constructor.
Qed.

Lemma remediate_head (fb : string) (a : Coder) :
  exists rem,
    trace (snd (remedy fb a)) = trace a ++ rem
    /\ head_of_attempt (is_Some (browser_agent a)) fb rem.
Proof.
  unfold head_of_attempt.
  destruct (Patterns.search_quoted_module fb) as [m|] eqn:Hm.
  - destruct (missing_module_signature fb) eqn:Hsig.
    + destruct (remediate_installs_first fb m a Hsig Hm)
        as (pips & ok & bs & Htr & Hp & Hb).
      exists (pips ++ [AutoInstall fb ok] ++ bs). split; [done|].
      by exists pips, ok, bs.
    + exists []. rewrite app_nil_r. split; [|done].
      unfold remediate. unfold missing_module_signature in Hsig.
      cbv zeta in Hsig. by rewrite Hsig.
  - exists []. rewrite app_nil_r. split; [|done].
    unfold remediate. rewrite Hm. by destruct (_ || _).
Qed.

(** The trace of the loop entered with the current feedback [fb]:
    attempt after attempt, the remediation block, the request and, when
    the answer holds a code block, its execution, whose feedback is the
    current feedback of the attempts that follow. *)
Inductive attempt_trace (linked : Prop) : string -> list Event -> Prop :=
  | attempt_trace_nil fb : attempt_trace linked fb []
  | attempt_trace_no_code fb rem answer tr :
      head_of_attempt linked fb rem -> attempt_trace linked fb tr ->
      attempt_trace linked fb (rem ++ Request answer :: tr)
  | attempt_trace_executed fb rem answer ok feedback tr :
      head_of_attempt linked fb rem -> attempt_trace linked feedback tr ->
      attempt_trace linked fb
        (rem ++ Request answer :: Execute answer ok feedback :: tr).

Lemma correct_from_attempts (fuel : nat) (n : Z) (fb ans : string)
    (a a' : Coder) (res : bool * string * string) :
  correct fuel n fb ans a = Some (res, a') ->
  exists tr,
    trace a' = trace a ++ tr
    /\ attempt_trace (is_Some (browser_agent a)) fb tr.
Proof.
  revert n fb ans a. induction fuel as [|fuel IH]; intros n fb ans a;
    cbn [correct_from];
    destruct (n <? self_correction_max a)%Z.
  1: done.
  1,3: intros [= <- <-]; exists []; rewrite app_nil_r;
       split; [done | constructor].
  destruct (remediate_head fb a) as (rem & Htr1 & Hhead).
  pose proof (remediate_effect fb a) as Hr. cbv zeta in Hr.
  destruct (remediate install_package fb a) as [info a1]. simpl in Hr, Htr1.
  destruct Hr as (_ & Hbr1 & _).
  set (a2 := push "user" _ a1).
  destruct (llm_request (memory a2) (world a2)) as [answer w].
  set (a3 := emit (Request answer) (set_world w a2)).
  assert (Htr3 : trace a3 = trace a ++ rem ++ [Request answer]).
  { simpl. rewrite Htr1. by rewrite <- app_assoc. }
  destruct (negb (Text.str_in "```" answer)).
  - intros Hres. apply IH in Hres as (tr & Htr & Hatt).
    change (browser_agent a3) with (browser_agent a1) in Hatt.
    rewrite Hbr1 in Hatt.
    exists (rem ++ Request answer :: tr). split.
    + rewrite Htr, Htr3. by rewrite <- !app_assoc.
    + by apply attempt_trace_no_code.
  - destruct (execute_modules answer (installed_packages a3) (world a3))
      as [[[[es feedback] pushed] pk] w'].
    set (a4 := emit (Execute answer es feedback)
                 (set_installed pk (set_world w' (push_all pushed a3)))).
    assert (Htr4 : trace a4
                   = trace a ++ rem ++ [Request answer; Execute answer es feedback]).
    { simpl. rewrite Htr1. by rewrite <- !app_assoc. }
    destruct (es && negb _).
    + intros [= <- <-]. eexists. split; [exact Htr4|].
      apply attempt_trace_executed; [done | constructor].
    + intros Hres. apply IH in Hres as (tr & Htr & Hatt).
      change (browser_agent a4) with (browser_agent a1) in Hatt.
      rewrite Hbr1 in Hatt.
      exists (rem ++ Request answer :: Execute answer es feedback :: tr). split.
      * rewrite Htr, Htr4. by rewrite <- !app_assoc.
      * by apply attempt_trace_executed.
Qed.

(** A request in a trace that opens with a block without requests is the
    request that follows the block, or comes after it. *)
Lemma split_at_request (l1 l2 pre post : list Event) (answer0 answer : string) :
  quiet l1 ->
  l1 ++ Request answer0 :: l2 = pre ++ Request answer :: post ->
  (pre = l1 /\ answer = answer0 /\ post = l2)
  \/ exists pre', pre = l1 ++ Request answer0 :: pre'
                  /\ l2 = pre' ++ Request answer :: post.
Proof.
  intros Hq. revert pre. induction Hq as [|e l1 [He _] _ IH]; intros pre Heq.
  - destruct pre as [|e pre]; simpl in Heq.
    + injection Heq as -> ->. by left.
    + injection Heq as <- ->. right. by exists pre.
  - destruct pre as [|e' pre]; simpl in Heq.
    + injection Heq as -> _. discriminate.
    + injection Heq as <- Heq. destruct (IH pre Heq) as [(-> & -> & ->) | (pre' & -> & ->)].
      * by left.
      * right. by exists pre'.
Qed.

(** The end of an attempt: a request or an execution. *)
Definition closes_attempt (e : Event) : bool := is_request e || is_execute e.

(** Every request of the loop is preceded by the remediation block of
    its attempt, for the current feedback of that attempt, and the block
    starts where the attempt before it ended. *)
Lemma attempt_trace_request (linked : Prop) (fb : string) (tr : list Event) :
  attempt_trace linked fb tr ->
  forall d pre answer post,
    tr = pre ++ Request answer :: post ->
    exists before rem,
      pre = before ++ rem
      /\ head_of_attempt linked (snd (last_execution pre (d, fb))) rem
      /\ (before = []
          \/ exists before0 e0,
               before = before0 ++ [e0] /\ closes_attempt e0 = true).
Proof.
  induction 1 as [fb | fb rem a0 tr Hh _ IH | fb rem a0 ok fbk tr Hh _ IH];
    intros d pre answer post Heq.
  - by destruct pre.
  - pose proof (head_of_attempt_quiet _ _ _ Hh) as Hq.
    apply (split_at_request _ _ _ _ _ _ Hq) in Heq
      as [(-> & _ & _) | (pre' & -> & Htr)].
    + exists [], rem. split; [done|].
      rewrite (quiet_last_execution _ _ Hq). split; [done | by left].
    + destruct (IH d pre' answer post Htr) as (before & rem' & -> & Hh' & Hb).
      exists (rem ++ Request a0 :: before), rem'.
      split; [by rewrite <- app_assoc|]. split.
      * rewrite last_execution_app, (quiet_last_execution _ _ Hq). exact Hh'.
      * right. destruct Hb as [-> | (b0 & e0 & -> & He)].
        -- by exists rem, (Request a0).
        -- exists (rem ++ Request a0 :: b0), e0.
           split; [by rewrite <- app_assoc | done].
  - pose proof (head_of_attempt_quiet _ _ _ Hh) as Hq.
    apply (split_at_request _ _ _ _ _ _ Hq) in Heq
      as [(-> & _ & _) | (pre' & -> & Htr)].
    + exists [], rem. split; [done|].
      rewrite (quiet_last_execution _ _ Hq). split; [done | by left].
    + destruct pre' as [|e pre']; [discriminate|].
      injection Htr as <- Htr.
      destruct (IH a0 pre' answer post Htr) as (before & rem' & -> & Hh' & Hb).
      exists (rem ++ Request a0 :: Execute a0 ok fbk :: before), rem'.
      split; [by rewrite <- app_assoc|]. split.
      * rewrite last_execution_app, (quiet_last_execution _ _ Hq). exact Hh'.
      * right. destruct Hb as [-> | (b0 & e0 & -> & He)].
        -- by exists (rem ++ [Request a0]), (Execute a0 ok fbk);
             rewrite <- app_assoc.
        -- exists (rem ++ Request a0 :: Execute a0 ok fbk :: b0), e0.
           split; [by rewrite <- app_assoc | done].
Qed.

(** C3 (amended). With the attempt budget 3 the loop returns. In its
    trace every browse query comes right after a call of the
    direct-install routine that returned false. Every attempt of the
    loop (every request, with the events [pre] of the trace before it)
    whose current feedback, the feedback of the last execution before
    it or the feedback given to the loop when there was none, carries
    the missing-module signature and names the module between quotes
    starts with that routine: from the end of the attempt before it to
    the request the loop does nothing but call the routine, with the
    installation it may make, and, only when the routine returned false
    and a browser is linked, query the browser for that module. If no
    attempt succeeds, exactly 3 regeneration requests are made (an
    answer without a code block uses one) and the loop returns failure
    with the answer and the feedback of the last attempt that was
    executed, or with the original answer and feedback when none was.
    It returns success at the first execution that succeeds with no
    error indicator in its feedback, with that answer and that
    feedback. *)
Theorem self_correction_budget_three (original_answer error_feedback : string)
    (a : Coder) :
  self_correction_max a = 3%Z ->
  exists ok out fbk a' tr,
    self_correct original_answer error_feedback a = Some ((ok, out, fbk), a')
    /\ trace a' = trace a ++ tr
    /\ browse_after_failed_install tr
    /\ (forall pre answer post,
          tr = pre ++ Request answer :: post ->
          let fb := snd (last_execution pre (original_answer, error_feedback)) in
          forall m,
            missing_module_signature fb = true ->
            Patterns.search_quoted_module fb = Some m ->
            exists before pips installed bs,
              pre = before ++ pips ++ [AutoInstall fb installed] ++ bs
              /\ (before = []
                  \/ exists before0 e0,
                       before = before0 ++ [e0] /\ closes_attempt e0 = true)
              /\ (pips = [] \/ exists pkg, pips = [Pip pkg installed])
              /\ (bs = []
                  \/ (installed = false /\ is_Some (browser_agent a)
                      /\ exists i, bs = [Browse (Text.before_dot m) i])))
    /\ (ok = false ->
        requests tr = 3%nat
        /\ no_clean tr
        /\ (out, fbk) = last_execution tr (original_answer, error_feedback))
    /\ (ok = true ->
        exists tr0,
          tr = tr0 ++ [Execute out true fbk]
          /\ Coder._has_error_in_output (Some fbk) = false
          /\ no_clean tr0
          /\ (requests tr <= 3)%nat).
Proof.
  intros Hmax.
  unfold _self_correct_execution.
  destruct (correct_from_spec (Z.to_nat (self_correction_max a)) 0
              error_feedback original_answer a)
    as (ok & out & fbk & a' & tr & Hres & Htr & Hg & Hf & Ht); [lia|].
  rewrite Hmax in Hf, Ht. change (Z.to_nat (3 - 0)) with 3%nat in Hf, Ht.
  destruct (correct_from_attempts _ _ _ _ _ _ _ Hres) as (tr' & Htr' & Hatt).
  assert (tr' = tr) as -> by (apply (app_inv_head (trace a)); congruence).
  exists ok, out, fbk, a', tr.
  split; [done|]. split; [done|]. split; [by apply guarded_sound|].
  split; [|split; [done|]].
  - intros pre answer post Heq. cbv zeta. intros m Hsig Hm.
    destruct (attempt_trace_request _ _ _ Hatt original_answer pre answer post Heq)
      as (before & rem & Hpre & Hhead & Hb).
    unfold head_of_attempt in Hhead. rewrite Hm, Hsig in Hhead.
    destruct Hhead as (pips & installed & bs & -> & Hp & Hbs).
    by exists before, pips, installed, bs.
  - intros Hok.
    destruct (Ht Hok) as (tr0 & -> & Hc & Hnc & Hn).
    exists tr0. split; [done|]. split; [|done].
    unfold clean in Hc. simpl in Hc. by apply negb_true_iff in Hc.
Qed.

End SelfCorrectionFacts.

(* ===================================================================== *)
(** ** Concrete runs *)
(* ===================================================================== *)

Import Controller.

Definition succeeding_worker : @Orchestrator.Worker unit :=
  fun _ w => (Returned "done" true, w).

Definition failing_worker : @Orchestrator.Worker unit :=
  fun _ w => (Returned "boom" false, w).

(** An orchestrator as [__init__] leaves it: no execution memory yet.
    Its plan, which [run_loop] assigns before it reads it, is an empty
    one here. *)
Definition new_orchestrator : @Orchestrator.Orch unit :=
  Orchestrator.mkOrch (mkPlan EmptyString [] 0 false []) [] [] tt.

(** The loop and the run with a silent environment: no persistent
    memory, no rich context, a stopped clock, no visual inspection. *)
Definition quiet_loop (agents : list (string * @Orchestrator.Worker unit)) :=
  Controller.while_loop agents (fun _ _ => EmptyString) (fun _ _ _ w => w) (fun _ => EmptyString).

Definition quiet_body (agents : list (string * @Orchestrator.Worker unit)) :=
  Controller.loop_body agents (fun _ _ => EmptyString) (fun _ _ _ w => w) (fun _ => EmptyString).

Definition quiet_run (agents : list (string * @Orchestrator.Worker unit))
    (agent_tasks : list (string * TaskInfo)) : @Controller.RunResult unit :=
  Controller.run_loop agents (fun _ _ => EmptyString) (fun _ _ _ w => w)
    (fun _ _ _ w => w) (fun _ => EmptyString) (fun _ => false) (fun _ => "0.0")
    (fun _ w => (None, w)) (Controller.enough_fuel agent_tasks)
    "build X" agent_tasks new_orchestrator.

Definition orphan_task : string * TaskInfo :=
  ("a", mkTaskInfo (Some (NeedList [DepStr "99"])) (Some "write a.py") (Some "coder")).

Definition first_task : string * TaskInfo :=
  ("a", mkTaskInfo None (Some "write a.py") (Some "coder")).

Definition second_task : string * TaskInfo :=
  ("b", mkTaskInfo (Some (NeedStr "1")) (Some "write b.py") None).

(** C1, the claim as worded fails: the pending step of [orphan_plan]
    depends on the identifier 99, which no step carries; it is returned
    by [get_next_step], and the run dispatches it and ends with the step
    completed, not failed. *)
Lemma orphan_step_is_dispatched :
  Controller.create_plan_from_tasks "build X" [orphan_task] = orphan_plan
  /\ status orphan_step = Pending
  /\ unresolved (steps orphan_plan) (DepStr "99")
  /\ Scheduler.get_next_step orphan_plan = Some orphan_step
  /\ exists text st,
       quiet_run [("coder", succeeding_worker)] [orphan_task] = Summary text st
       /\ steps (Controller.plan_of st)
          = [set_result "done" (set_status Completed orphan_step)]
       /\ Controller.dispatches st = [(1%Z, true)].
Proof.
  split; [reflexivity|]. split; [reflexivity|].
  split; [apply orphan_unresolved|]. split; [reflexivity|].
  eexists _, _. split; [vm_compute; reflexivity|]. by split.
Qed.

(** A state of the loop in which the second step waits for a first step
    that has failed. *)
Definition blocked_state : @Controller.Loop unit :=
  Controller.initial
    (mkPlan "build X"
       [ set_error "boom" (set_attempts 3 (set_status Failed (new_step 1 "write a.py" "coder" 3 [])));
         new_step 2 "write b.py" "coder" 3 [DepStr "1"] ]
       0 false [])
    new_orchestrator.

Lemma blocked_step_deadlocks_witness :
  Scheduler.get_next_step (Controller.plan_of blocked_state) = None
  /\ exists st',
       quiet_loop [("coder", failing_worker)] 1 8 blocked_state = Finished st'
       /\ steps (Controller.plan_of st') !! 1%nat
          = Some (set_error deadlock_error
                    (set_status Failed (new_step 2 "write b.py" "coder" 3 [DepStr "1"]))).
Proof.
  split; [reflexivity|].
  destruct (blocked_step_deadlocks (W:=unit) [("coder", failing_worker)]
              (fun _ _ => EmptyString) (fun _ _ _ w => w) (fun _ => EmptyString)
              1 8 blocked_state 1
              (new_step 2 "write b.py" "coder" 3 [DepStr "1"]) (DepStr "1")
              (set_error "boom" (set_attempts 3 (set_status Failed
                 (new_step 1 "write a.py" "coder" 3 []))))) as (_ & H & _).
  - reflexivity.
  - reflexivity.
  - by left.
  - exists 0%nat. split; [reflexivity|]. split; [reflexivity|]. intros; lia.
  - discriminate.
  - destruct H as (st' & Hw & _ & _ & Hs & _); [reflexivity | reflexivity | lia |].
    exists st'. by split.
Defined.

(** A state of the loop after five consecutive failures: the first step
    has failed for good, the second has failed twice. *)
Definition tripped_state : @Controller.Loop unit :=
  {| Controller.orch :=
       Orchestrator.mkOrch
         (mkPlan "build X"
            [ set_error "boom" (set_attempts 3 (set_status Failed
                (new_step 1 "write a.py" "coder" 3 [])));
              set_error "boom" (set_attempts 2 (new_step 2 "write b.py" "coder" 3 [])) ]
            0 false [])
         [] [] tt;
     Controller.iteration := 5;
     Controller.consecutive_failures := 5;
     Controller.work_results := [];
     Controller.final_answer := EmptyString;
     Controller.snapshots := [];
     Controller.dispatches :=
       [(1%Z, false); (1%Z, false); (1%Z, false); (2%Z, false); (2%Z, false)];
     Controller.revisions := [] |}.

Lemma revision_gate_witness :
  exists st',
    quiet_body [("coder", failing_worker)] tripped_state = Continue st'
    /\ Controller.consecutive_failures st' = 6%Z
    /\ Controller.revisions st' = []
    /\ length (steps (Controller.plan_of st')) = 2%nat.
Proof.
  eexists. split; [vm_compute; reflexivity|].
  match goal with |- context [Controller.revisions ?s] => set (st' := s) end.
  destruct (revision_gate (W:=unit) [("coder", failing_worker)]
              (fun _ _ => EmptyString) (fun _ _ _ w => w) (fun _ => EmptyString)
              tripped_state st')
    as (i & step & step' & ok & _ & _ & Hdis & Hcf & _ & _ & Hlast);
    [vm_compute; reflexivity|].
  assert (Hok : ok = false).
  { unfold st' in Hdis. simpl in Hdis. congruence. }
  destruct (Hlast ltac:(simpl; lia) Hok) as [Hrev Hlen].
  split; [reflexivity|]. by split.
Defined.

(** C2, the claim as worded fails: the first step fails three times, the
    second step depends on it and is never dispatched, and the deadlock
    rule marks it failed with no failed dispatch at all. *)
Lemma deadlocked_step_fails_without_dispatch :
  exists text st s,
    quiet_run [("coder", failing_worker)] [first_task; second_task] = Summary text st
    /\ steps (Controller.plan_of st) !! 1%nat = Some s
    /\ status s = Failed
    /\ attempts s = 0%Z
    /\ max_attempts s = 3%Z
    /\ failures (id s) (Controller.dispatches st) = 0%nat.
Proof.
  eexists _, _, _. split; [vm_compute; reflexivity|]. by repeat split.
Qed.

Lemma attempts_within_budget_witness :
  exists st,
    last_state
      (quiet_loop [("coder", failing_worker)] 8
         (Controller.max_iterations_of
            (Controller.create_plan_from_tasks "build X" [first_task; second_task]))
         (Controller.initial
            (Controller.create_plan_from_tasks "build X" [first_task; second_task])
            new_orchestrator)) = Some st
    /\ (forall p s, p ∈ Controller.snapshots st -> s ∈ steps p ->
          (attempts s <= max_attempts s)%Z)
    /\ length (Controller.snapshots st) = 11%nat.
Proof.
  eexists. split; [vm_compute; reflexivity|].
  match goal with |- context [Controller.snapshots ?s] => set (st := s) end.
  split; [|reflexivity].
  intros p s Hp Hs.
  destruct (attempts_within_budget (W:=unit) [("coder", failing_worker)]
              (fun _ _ => EmptyString) (fun _ _ _ w => w) (fun _ => EmptyString)
              8 "build X" [first_task; second_task] new_orchestrator st) as (H & _);
    [vm_compute; reflexivity|].
  by apply (H p s).
Defined.

(** C9: in a run whose registry holds no worker under [coder], a step
    whose tag matches no key makes the dispatcher raise [KeyError]; the
    exception leaves [run_loop], which returns no summary. *)
Theorem run_loop_unregistered_default_escapes (W : Type)
    (web : @Orchestrator.Worker W)
    (get_context_for_prompt : string -> W -> string)
    (store_fact store_project : string -> string -> string -> W -> W)
    (_gather_rich_context : ExecutionPlan -> string)
    (elapsed_positive : W -> bool) (elapsed_1f : W -> string)
    (inspect_site : string -> W -> option string * W)
    (goal : string) (o : @Orchestrator.Orch W) :
  let agent_tasks := [("plan", mkTaskInfo None (Some "plan the work") (Some "planner"))] in
  exists st,
    Controller.run_loop [("web", web)] get_context_for_prompt store_fact
      store_project _gather_rich_context elapsed_positive elapsed_1f
      inspect_site (Controller.enough_fuel agent_tasks) goal agent_tasks o
    = Escaped (inl (KeyError "coder")) st
    /\ Controller.iteration st = 1%Z
    /\ Controller.dispatches st = [].
Proof. eexists. by repeat split. Qed.

(** *** Runs of the self-correction loop *)

Definition broken_code : string :=
  "```python:a.py" +:+ nl +:+ "print(x)" +:+ nl +:+ "```".

(** A language model that writes code once and then only prose; the
    world counts its answers. *)
Definition tiring_model (memory : list (string * string)) (n : nat) : string * nat :=
  (match n with
   | O => broken_code
   | S O => "I am not sure what to change."
   | _ => "Please give me more details."
   end, S n).

Definition failing_sandbox (answer : string) (pk : gset string) (n : nat)
    : (bool * string) * list (string * string) * gset string * nat :=
  ((false, "NameError: name 'x' is not defined"),
   [("user", "NameError: name 'x' is not defined")], pk, n).

Definition no_installer (pkg : string) (n : nat) : bool * nat := (false, n).

Definition fresh_agent : @SelfCorrection.Agent nat :=
  SelfCorrection.mkAgent ∅ None 3 [] [] 0%nat.

(** C3, the claim as worded fails: the first attempt is executed and
    fails, the second and the third answers hold no code block; the loop
    returns the answer and the feedback of the first attempt, not the
    output of the third. *)
Lemma last_attempt_without_code_is_not_returned :
  exists a',
    SelfCorrection._self_correct_execution tiring_model failing_sandbox
      no_installer "print(y)" "Traceback: y is not defined" fresh_agent
    = Some ((false, broken_code, "NameError: name 'x' is not defined"), a')
    /\ SelfCorrection.trace a'
       = [ Request broken_code;
           Execute broken_code false "NameError: name 'x' is not defined";
           Request "I am not sure what to change.";
           Request "Please give me more details." ]
    /\ broken_code <> "Please give me more details.".
Proof.
  eexists. split; [vm_compute; reflexivity|]. split; [reflexivity | discriminate].
Qed.

Definition fixed_code : string :=
  "```python:a.py" +:+ nl +:+ "print(1)" +:+ nl +:+ "```".

Definition helpful_browser (query : string) (n : nat) : Outcome * nat :=
  (Returned "run: pip install requests" true, n).

Definition linked_agent : @SelfCorrection.Agent nat :=
  SelfCorrection.mkAgent ∅ (Some helpful_browser) 3 [] [] 0%nat.

Lemma self_correction_budget_three_witness :
  SelfCorrection.self_correction_max linked_agent = 3%Z
  /\ exists a',
       SelfCorrection._self_correct_execution
         (fun _ n => (fixed_code, S n))
         (fun _ pk n => ((true, "1"), [("user", "1")], pk, n))
         no_installer "import requests"
         "ModuleNotFoundError: No module named 'requests'" linked_agent
       = Some ((true, fixed_code, "1"), a')
       /\ SelfCorrection.trace a'
          = [ Pip "requests" false;
              AutoInstall "ModuleNotFoundError: No module named 'requests'" false;
              Browse "requests" "run: pip install requests";
              Request fixed_code;
              Execute fixed_code true "1" ]
       /\ browse_after_failed_install (SelfCorrection.trace a')
       /\ exists before pips installed bs,
            [ Pip "requests" false;
              AutoInstall "ModuleNotFoundError: No module named 'requests'" false;
              Browse "requests" "run: pip install requests" ]
            = before ++ pips
              ++ [AutoInstall "ModuleNotFoundError: No module named 'requests'"
                    installed]
              ++ bs
            /\ (bs = []
                \/ (installed = false
                    /\ is_Some (SelfCorrection.browser_agent linked_agent)
                    /\ exists i, bs = [Browse "requests" i])).
Proof.
  split; [reflexivity|].
  destruct (self_correction_budget_three (W:=nat)
              (fun _ n => (fixed_code, S n))
              (fun _ pk n => ((true, "1"), [("user", "1")], pk, n))
              no_installer "import requests"
              "ModuleNotFoundError: No module named 'requests'" linked_agent)
    as (ok & out & fbk & a' & tr & Hres & Htr & Hb & Hatt & _); [reflexivity|].
  vm_compute in Hres. injection Hres as <- <- <- <-.
  change (SelfCorrection.trace linked_agent) with (@nil Event) in Htr.
  rewrite app_nil_l in Htr. subst tr.
  eexists. split; [vm_compute; reflexivity|]. split; [reflexivity|].
  split; [exact Hb|].
  destruct (Hatt
              [ Pip "requests" false;
                AutoInstall "ModuleNotFoundError: No module named 'requests'" false;
                Browse "requests" "run: pip install requests" ]
              fixed_code [Execute fixed_code true "1"] eq_refl "requests")
    as (before & pips & installed & bs & Hpre & _ & _ & Hbs);
    [vm_compute; reflexivity | vm_compute; reflexivity |].
  exists before, pips, installed, bs. split; [exact Hpre | exact Hbs].
Defined.

(* ===================================================================== *)
(** ** Identifiers and lookups by identifier *)
(* ===================================================================== *)

Section IdentifierFacts.

Import Scheduler.

(** [str] of an integer determines the integer. *)
Lemma str_of_int_inj (a b : Z) : Text.str_of_int a = Text.str_of_int b -> a = b.
Proof.
  unfold Text.str_of_int. intros H.
  assert (Hnorm : forall z, NilZero.int_of_string (NilZero.string_of_int (Z.to_int z))
                            = Some (Z.to_int z)).
  { intros z. apply NilZero.isi; destruct z; simpl; try discriminate;
      intros [= Hp]; by apply DecimalPos.Unsigned.to_uint_nonnil in Hp. }
  apply (f_equal NilZero.int_of_string) in H. rewrite !Hnorm in H.
  injection H as H. apply (f_equal Z.of_int) in H.
  by rewrite !DecimalZ.of_to in H.
Qed.

Lemma numbered_unique (p : ExecutionPlan) (i j : nat) (s t : TaskStep) :
  numbered p -> steps p !! i = Some s -> steps p !! j = Some t ->
  id s = id t -> i = j.
Proof.
  intros Hn Hi Hj Heq. rewrite (Hn i s Hi), (Hn j t Hj) in Heq. lia.
Qed.

Lemma numbered_resolves (p : ExecutionPlan) (i : nat) (s : TaskStep) (d : DepId) :
  numbered p -> steps p !! i = Some s ->
  dep_str d = Text.str_of_int (id s) -> resolves (steps p) d s.
Proof.
  intros Hn Hi Hd. exists i. split; [done|]. split; [done|].
  intros j u Hj Hu Heq. rewrite Hd in Heq. apply str_of_int_inj in Heq.
  assert (j = i) by by eapply numbered_unique. lia.
Qed.

End IdentifierFacts.

Section NumberedPlans.

Import Scheduler.

(** X1. In a plan whose identifiers are the positions counted from one,
    looking a step up by its identifier, written as a string or as an
    integer, finds that very step; an integer outside [1, n] finds none. *)
Theorem identifier_lookup_round_trip (p : ExecutionPlan) (i : nat) (s : TaskStep) :
  numbered p ->
  steps p !! i = Some s ->
  dep_step (steps p) (DepStr (Text.str_of_int (id s))) = Some s
  /\ dep_step (steps p) (DepInt (id s)) = Some s
  /\ (forall n, (n < 1 \/ Z.of_nat (length (steps p)) < n)%Z ->
        dep_step (steps p) (DepInt n) = None).
Proof.
  intros Hn Hi. split; [|split].
  - apply dep_step_resolves. by apply (numbered_resolves p i).
  - apply dep_step_resolves. by apply (numbered_resolves p i).
  - intros n Hout. apply dep_step_unresolved. intros u Hu Heq.
    apply list_elem_of_lookup_1 in Hu as [j Hj].
    simpl in Heq. apply str_of_int_inj in Heq.
    pose proof (Hn j u Hj). apply lookup_lt_Some in Hj. lia.
Qed.

Definition two_step_plan : ExecutionPlan :=
  mkPlan "build X"
    [ new_step 1 "write a.py" "coder" 3 [];
      new_step 2 "write b.py" "coder" 3 [DepStr "1"] ]
    0 false [].

Lemma two_step_plan_numbered : numbered two_step_plan.
Proof. intros [|[|i]] s; simpl; intros [= <-]; reflexivity. Qed.

Lemma identifier_lookup_round_trip_witness :
  dep_step (steps two_step_plan) (DepStr "2")
  = Some (new_step 2 "write b.py" "coder" 3 [DepStr "1"])
  /\ dep_step (steps two_step_plan) (DepInt 7) = None.
Proof.
  destruct (identifier_lookup_round_trip two_step_plan 1
              (new_step 2 "write b.py" "coder" 3 [DepStr "1"])
              two_step_plan_numbered eq_refl) as (H1 & _ & H3).
  split; [exact H1|]. apply H3. simpl. lia.
Defined.

(** X2. In such a plan a step that depends on an identifier, written as
    a string or as an integer, is never returned by [get_next_step]
    while the step that carries this identifier is not completed. *)
Theorem unfinished_dependency_blocks (p : ExecutionPlan) (i : nat)
    (prerequisite waiting : TaskStep) (d : DepId) :
  numbered p ->
  steps p !! i = Some prerequisite ->
  status prerequisite <> Completed ->
  d ∈ dependencies waiting ->
  dep_str d = Text.str_of_int (id prerequisite) ->
  get_next_step p <> Some waiting.
Proof.
  intros Hn Hi Hst Hd Hstr Hnext.
  apply get_next_step_ready in Hnext as [_ H].
  apply Hst, (H d Hd). by apply (numbered_resolves p i).
Qed.

Lemma unfinished_dependency_blocks_witness :
  get_next_step two_step_plan
  <> Some (new_step 2 "write b.py" "coder" 3 [DepStr "1"]).
Proof.
  apply (unfinished_dependency_blocks two_step_plan 0
           (new_step 1 "write a.py" "coder" 3 []) _ (DepStr "1")).
  - apply two_step_plan_numbered.
  - reflexivity.
  - discriminate.
  - by left.
  - reflexivity.
Defined.

End NumberedPlans.

Section PlanConstruction.

Import Controller.

Lemma steps_from_lookup_task (k : Z) (agent_tasks : list (string * TaskInfo))
    (i : nat) :
  steps_from k agent_tasks !! i
  = (fun t : string * TaskInfo =>
       new_step (k + Z.of_nat i + 1)
         (default (fst t) (task (snd t)))
         (default "coder" (agent_tag (snd t)))
         3 (deps_of (need (snd t))))
    <$> agent_tasks !! i.
Proof.
  revert k i. induction agent_tasks as [|[name info] rest IH]; intros k i; [done|].
  destruct i as [|i]; simpl.
  - do 2 f_equal. lia.
  - rewrite IH. destruct (rest !! i); [|done]. simpl. do 3 f_equal. lia.
Qed.

(** X3. [create_plan_from_tasks] turns the task at position [i] into the
    pending step with identifier [i + 1], no attempt made and budget 3.
    A task without the key [task] is described by its name, a task
    without the key [agent] goes to [coder], and a [need] that is absent
    or the empty string gives no dependency while a non-empty string
    gives exactly that one; the plan has as many steps as there are
    tasks and an empty reflection log. *)
Theorem create_plan_from_tasks_steps (goal : string)
    (agent_tasks : list (string * TaskInfo)) :
  let p := create_plan_from_tasks goal agent_tasks in
  length (steps p) = length agent_tasks
  /\ numbered p
  /\ reflection_log p = []
  /\ (forall i name info,
        agent_tasks !! i = Some (name, info) ->
        exists s,
          steps p !! i = Some s
          /\ id s = (Z.of_nat i + 1)%Z
          /\ status s = Pending /\ attempts s = 0%Z /\ max_attempts s = 3%Z
          /\ result s = EmptyString /\ error s = EmptyString
          /\ description s = default name (task info)
          /\ agent_type s = default "coder" (agent_tag info)
          /\ (need info = None \/ need info = Some (NeedStr EmptyString) ->
              dependencies s = [])
          /\ (forall d, d <> EmptyString -> need info = Some (NeedStr d) ->
              dependencies s = [DepStr d])
          /\ (forall l, need info = Some (NeedList l) -> dependencies s = l)).
Proof.
  cbv zeta. split; [apply steps_from_length|]. split; [|split; [done|]].
  - intros i s Hi. simpl in Hi. rewrite steps_from_lookup_task in Hi.
    destruct (agent_tasks !! i); [|done]. injection Hi as <-. simpl. lia.
  - intros i name info Hi. eexists. simpl.
    rewrite steps_from_lookup_task, Hi. simpl.
    split; [reflexivity|]. simpl.
    repeat (split; [first [done | lia]|]).
    split; [intros [-> | ->]; done|].
    split.
    + intros d Hd ->. simpl. by destruct d.
    + by intros l ->.
Qed.

End PlanConstruction.

(* ===================================================================== *)
(** ** More on the plan reviser *)
(* ===================================================================== *)

Section ReviserBranches.

Import Reviser.

(** X4. When the error text is not in the missing-dependency category,
    [revise_plan] appends exactly one retry step, with the dependencies
    of the failed step and attempt budget 2. Its worker follows the
    order of the tests: [file] for a permission or access error;
    otherwise [coder] for a syntax error; otherwise [web] for a timeout
    or connection error; otherwise the worker that the fixed table gives
    for the tag of the failed step. *)
Theorem revise_plan_single_retry (failed_step : TaskStep) (p : ExecutionPlan) :
  is_missing_dependency (error failed_step) = false ->
  exists retry_step,
    steps (revise_plan failed_step p) = steps p ++ [retry_step]
    /\ id retry_step = (Z.of_nat (length (steps p)) + 1)%Z
    /\ dependencies retry_step = dependencies failed_step
    /\ max_attempts retry_step = 2%Z
    /\ attempts retry_step = 0%Z
    /\ status retry_step = Pending
    /\ occurs_in (description failed_step) (description retry_step)
    /\ (is_permission (error failed_step) = true ->
        agent_type retry_step = "file")
    /\ (is_permission (error failed_step) = false ->
        is_syntax (error failed_step) = true ->
        agent_type retry_step = "coder")
    /\ (is_permission (error failed_step) = false ->
        is_syntax (error failed_step) = false ->
        is_connection (error failed_step) = true ->
        agent_type retry_step = "web")
    /\ (is_permission (error failed_step) = false ->
        is_syntax (error failed_step) = false ->
        is_connection (error failed_step) = false ->
        agent_type retry_step = alternative_agent (agent_type failed_step)).
Proof.
  intros Hcat. unfold revise_plan. rewrite Hcat.
  destruct (is_permission (error failed_step));
    [|destruct (is_syntax (error failed_step));
      [|destruct (is_connection (error failed_step))]];
    (eexists; split; [reflexivity|]; simpl; unfold next_id;
     repeat (split; [first [done | lia]|]);
     split; [apply occurs_in_app_l; repeat apply occurs_in_app_r;
             apply occurs_in_refl|];
     repeat split; done).
Qed.

Definition denied_step : TaskStep :=
  {| id := 1; description := "write a.py"; agent_type := "coder";
     status := Failed; result := EmptyString;
     error := "PermissionError: [Errno 13] Permission denied: 'a.py'";
     attempts := 3; max_attempts := 3; dependencies := [DepStr "7"] |}.

Lemma revise_plan_single_retry_witness :
  is_missing_dependency (error denied_step) = false
  /\ exists retry_step,
       steps (revise_plan denied_step (mkPlan "build X" [denied_step] 0 false []))
       = [denied_step; retry_step]
       /\ agent_type retry_step = "file"
       /\ dependencies retry_step = [DepStr "7"].
Proof.
  split; [reflexivity|].
  destruct (revise_plan_single_retry denied_step
              (mkPlan "build X" [denied_step] 0 false []))
    as (r & Hsteps & _ & Hdeps & _ & _ & _ & _ & Hfile & _); [reflexivity|].
  exists r. split; [exact Hsteps|]. split; [by apply Hfile | exact Hdeps].
Defined.

(** X5. Whatever the category, [revise_plan] only appends: the steps of
    the plan keep their positions and contents, the goal and the
    reflection log are untouched, and two steps are appended exactly for
    the missing-dependency category, one otherwise. Each new step is
    pending, has made no attempt, has budget 2 and empty result and
    error, and takes the next free identifier. The description of the
    last new step ends with the original task followed by the closing
    text that quotes the prior error (or [Unknown error]) cut to 500
    characters. *)
Theorem revise_plan_only_appends (failed_step : TaskStep) (p : ExecutionPlan) :
  exists added,
    steps (revise_plan failed_step p) = steps p ++ added
    /\ length added
       = (if is_missing_dependency (error failed_step) then 2 else 1)%nat
    /\ (forall k s, added !! k = Some s ->
          id s = (Z.of_nat (length (steps p) + k) + 1)%Z
          /\ status s = Pending /\ attempts s = 0%Z /\ max_attempts s = 2%Z
          /\ result s = EmptyString /\ error s = EmptyString)
    /\ (exists retry_step,
          last added = Some retry_step
          /\ exists head,
               description retry_step
               = head +:+ description failed_step +:+ error_suffix failed_step)
    /\ goal (revise_plan failed_step p) = goal p
    /\ reflection_log (revise_plan failed_step p) = reflection_log p
    /\ (numbered p -> numbered (revise_plan failed_step p)).
Proof.
  assert (Hnum : numbered p -> numbered (revise_plan failed_step p))
    by apply numbered_revised.
  assert (Htail : forall a b : string, exists head, a +:+ b = head +:+ b)
    by (intros a b; by exists a).
  assert (Hmore : forall a b c : string,
            (exists head, b = head +:+ c) -> exists head, a +:+ b = head +:+ c).
  { intros a b c [head ->]. exists (a +:+ head). by rewrite app_assoc'. }
  unfold revise_plan in *. destruct (is_missing_dependency (error failed_step)).
  - eexists [_; _]. simpl. rewrite <- app_assoc. split; [reflexivity|].
    split; [done|]. split.
    { intros [|[|k]] s [= <-]; simpl; unfold next_id; simpl;
        [|rewrite length_app; simpl]; repeat split; try done; lia. }
    split; [|done].
    eexists. split; [reflexivity|]. simpl.
    unfold install_retry_description. rewrite !app_assoc'.
    repeat (first [apply Htail | apply Hmore]).
  - destruct (is_permission (error failed_step));
      [|destruct (is_syntax (error failed_step));
        [|destruct (is_connection (error failed_step))]];
      (eexists [_]; simpl; split; [reflexivity|]; split; [done|]; split;
       [intros [|k] s [= <-]; simpl; unfold next_id; repeat split; try done; lia|];
       split; [|done];
       eexists; split; [reflexivity|]; simpl; rewrite !app_assoc';
       repeat (first [apply Htail | apply Hmore])).
Qed.

(** X6. After a missing-dependency revision of a plan whose identifiers
    are the positions, the only dependency of the retry step resolves to
    the browse step that was appended with it. The scheduler therefore
    does not return the retry step right after the revision, nor in any
    later state of the plan in which the browse step is not completed. *)
Theorem retry_waits_for_browse (failed_step : TaskStep) (p : ExecutionPlan) :
  numbered p ->
  is_missing_dependency (error failed_step) = true ->
  exists browse_step retry_step d,
    steps (revise_plan failed_step p) = steps p ++ [browse_step; retry_step]
    /\ dependencies retry_step = [d]
    /\ Scheduler.dep_step (steps (revise_plan failed_step p)) d = Some browse_step
    /\ Scheduler.get_next_step (revise_plan failed_step p) <> Some retry_step
    /\ (forall q b r,
          numbered q ->
          steps q !! length (steps p) = Some b ->
          status b <> Completed ->
          dependencies r = dependencies retry_step ->
          Scheduler.get_next_step q <> Some r).
Proof.
  intros Hn Hcat.
  pose proof (numbered_revised failed_step p Hn) as Hn'.
  set (p' := revise_plan failed_step p) in *.
  set (b := browse_step_for p failed_step).
  set (r := new_step (next_id (append_step b p))
              (install_retry_description failed_step +:+ error_suffix failed_step)
              "coder" 2 [DepStr (Text.str_of_int (id b))]).
  assert (Hsteps : steps p' = steps p ++ [b; r]).
  { unfold p', revise_plan. rewrite Hcat. simpl. by rewrite <- app_assoc. }
  assert (Hb : steps p' !! length (steps p) = Some b).
  { rewrite Hsteps. by rewrite lookup_app_r, Nat.sub_diag by lia. }
  assert (Hres : resolves (steps p') (DepStr (Text.str_of_int (id b))) b).
  { by apply (numbered_resolves p' (length (steps p))). }
  exists b, r, (DepStr (Text.str_of_int (id b))).
  split; [done|]. split; [done|]. split; [by apply dep_step_resolves|]. split.
  - intros Hnext. apply get_next_step_ready in Hnext as [_ H].
    assert (Hst : status b = Completed); [|discriminate].
    apply (H (DepStr (Text.str_of_int (id b)))); [by left | done].
  - intros q b' r' Hq Hb' Hst Hdeps Hnext.
    apply get_next_step_ready in Hnext as [_ H].
    apply Hst, (H (DepStr (Text.str_of_int (id b)))).
    + rewrite Hdeps. by left.
    + apply (numbered_resolves q (length (steps p))); [done..|].
      simpl. f_equal. rewrite (Hq _ _ Hb'). unfold next_id. lia.
Qed.

Lemma missing_module_plan_numbered : numbered missing_module_plan.
Proof. intros [|i] s; simpl; intros [= <-]; reflexivity. Qed.

Lemma retry_waits_for_browse_witness :
  exists browse_step retry_step,
    steps (revise_plan missing_module_step missing_module_plan)
    = [missing_module_step; browse_step; retry_step]
    /\ Scheduler.get_next_step (revise_plan missing_module_step missing_module_plan)
       <> Some retry_step.
Proof.
  destruct (retry_waits_for_browse missing_module_step missing_module_plan
              missing_module_plan_numbered eq_refl)
    as (b & r & d & Hsteps & _ & _ & Hnext & _).
  by exists b, r.
Defined.

End ReviserBranches.

(* ===================================================================== *)
(** ** The shape of a whole run *)
(* ===================================================================== *)

Section RunShape.

Import Controller.

Context {W : Type}.
Variable agents : list (string * @Orchestrator.Worker W).
Variable get_context_for_prompt : string -> W -> string.
Variable store_fact : string -> string -> string -> W -> W.
Variable store_project : string -> string -> string -> W -> W.
Variable _gather_rich_context : ExecutionPlan -> string.
Variable elapsed_positive : W -> bool.
Variable elapsed_1f : W -> string.
Variable inspect_site : string -> W -> option string * W.

Set Default Proof Using "Type".

Abbreviation body :=
  (loop_body agents get_context_for_prompt store_fact _gather_rich_context).
Abbreviation while :=
  (while_loop agents get_context_for_prompt store_fact _gather_rich_context).
Abbreviation run :=
  (run_loop agents get_context_for_prompt store_fact store_project
     _gather_rich_context elapsed_positive elapsed_1f inspect_site).
Abbreviation State := (@Loop W).

(** Two steps that the scheduler cannot tell apart. *)
Definition same_key (a b : TaskStep) : Prop :=
  id a = id b /\ status a = status b /\ dependencies a = dependencies b.

Lemma blocks_same_key (l l' : list TaskStep) (d : DepId) :
  Forall2 same_key l l' -> Scheduler.blocks l d = Scheduler.blocks l' d.
Proof.
  unfold Scheduler.blocks, Scheduler.dep_step.
  induction 1 as [|a b l l' (Hid & Hst & _) _ IH]; [done|]. simpl.
  rewrite Hid. destruct (String.eqb _ _); [by rewrite Hst | exact IH].
Qed.

Lemma ready_test_same_key (l l' : list TaskStep) (a b : TaskStep) :
  Forall2 same_key l l' -> same_key a b -> ready_test l a = ready_test l' b.
Proof.
  intros Hl (_ & Hst & Hdeps). unfold ready_test, Scheduler.deps_met.
  rewrite Hst, Hdeps. f_equal. clear Hdeps.
  induction (dependencies b) as [|d ds IH]; [done|]. simpl.
  by rewrite IH, (blocks_same_key l l' d Hl).
Qed.

Lemma first_at_unique {A} (f : A -> bool) (l : list A) (i j : nat) (a b : A) :
  first_at f l i a -> first_at f l j b -> i = j.
Proof.
  intros (Hi & Hfa & Hlti) (Hj & Hfb & Hltj).
  destruct (Nat.lt_trichotomy i j) as [Hlt | [-> | Hlt]]; [|done|].
  - specialize (Hltj i a Hlt Hi). congruence.
  - specialize (Hlti j b Hlt Hj). congruence.
Qed.

Lemma first_at_next_index (p : ExecutionPlan) (i : nat) (s : TaskStep) :
  first_at (ready_test (steps p)) (steps p) i s ->
  Scheduler.next_index p = Some (i, s).
Proof.
  intros Hfirst.
  assert (Hfind : List.find (ready_test (steps p)) (steps p) = Some s).
  { apply find_first_at. by exists i. }
  unfold Scheduler.next_index.
  rewrite <- next_from_find with (i := 0%nat) in Hfind.
  destruct (Scheduler.next_from (steps p) 0 (steps p)) as [[j s']|] eqn:Hn;
    [|discriminate].
  injection Hfind as ->.
  apply next_from_position in Hn as (k & -> & Hk).
  by rewrite (first_at_unique _ _ _ _ _ _ Hk Hfirst).
Qed.

(** Replacing the scheduled step by one with the same identifier, status
    and dependencies leaves it scheduled. *)
Lemma next_index_same_key (p : ExecutionPlan) (i : nat) (s s' : TaskStep) :
  Scheduler.next_index p = Some (i, s) ->
  same_key s s' ->
  Scheduler.next_index (set_steps (<[i := s']> (steps p)) p) = Some (i, s').
Proof.
  intros Hnext Hkey.
  apply next_index_lookup in Hnext as (Hi & Hr & Hlt).
  assert (Hlen : (i < length (steps p))%nat) by by eapply lookup_lt_Some.
  assert (Hall : Forall2 same_key (steps p) (<[i := s']> (steps p))).
  { apply Forall2_same_length_lookup_2; [by rewrite length_insert|].
    intros j a b Ha Hb. destruct (decide (i = j)) as [<- | Hne].
    - rewrite list_lookup_insert_eq in Hb by done. congruence.
    - rewrite list_lookup_insert_ne in Hb by done.
      assert (a = b) as -> by congruence. done. }
  apply first_at_next_index. simpl. split; [|split].
  - by apply list_lookup_insert_eq.
  - by rewrite <- (ready_test_same_key (steps p) _ s s').
  - intros j u Hj Hu. rewrite list_lookup_insert_ne in Hu by lia.
    rewrite <- (ready_test_same_key (steps p) _ u u); [by eapply Hlt | done | done].
Qed.

(** The dispatches that a step may still need: its budget less the
    attempts made while it is pending, nothing once it is settled. *)
Definition owed (s : TaskStep) : Z :=
  if bool_decide (status s = Pending) then 3 - attempts s else 0.

Fixpoint remaining (l : list TaskStep) : Z :=
  match l with
  | [] => 0
  | s :: rest => owed s + remaining rest
  end.

Lemma remaining_insert (l : list TaskStep) (i : nat) (x y : TaskStep) :
  l !! i = Some x ->
  remaining (<[i := y]> l) = (remaining l - owed x + owed y)%Z.
Proof.
  revert i. induction l as [|a l IH]; intros [|i]; simpl; try done.
  - intros [= ->]. lia.
  - intros Hi. rewrite (IH i Hi). lia.
Qed.

Lemma remaining_nonneg (l : list TaskStep) :
  Forall step_ok l -> Forall (fun s => max_attempts s = 3%Z) l ->
  (0 <= remaining l)%Z.
Proof.
  induction 1 as [|s l (Hb & _) _ IH]; [done|].
  intros Hmax. apply Forall_cons in Hmax as [Hs Hmax]. simpl.
  specialize (IH Hmax). unfold owed. case_bool_decide; lia.
Qed.

Lemma remaining_pending (l : list TaskStep) (i : nat) (s : TaskStep) :
  Forall step_ok l -> Forall (fun s => max_attempts s = 3%Z) l ->
  l !! i = Some s -> status s = Pending -> (1 <= remaining l)%Z.
Proof.
  intros Hok Hmax Hi Hs.
  assert (Hy : remaining (<[i := set_status Completed s]> l)
               = (remaining l - owed s + 0)%Z).
  { rewrite (remaining_insert l i s) by done. unfold owed at 2. done. }
  assert (Hge : (0 <= remaining (<[i := set_status Completed s]> l))%Z).
  { apply remaining_nonneg.
    - apply Forall_insert; [done|]. rewrite Forall_lookup in Hok.
      destruct (Hok i s Hi) as (Hb & _). unfold step_ok. simpl.
      split; [done|]. split; [intros [?|?]; done | done].
    - apply Forall_insert; [done|]. rewrite Forall_lookup in Hmax. exact (Hmax i s Hi). }
  rewrite Forall_lookup in Hok, Hmax.
  destruct (Hok i s Hi) as (_ & Hlt & _). specialize (Hmax i s Hi). simpl in Hmax.
  assert (attempts s < 3)%Z by (rewrite <- Hmax; apply Hlt; by left).
  unfold owed in Hy. rewrite bool_decide_eq_true_2 in Hy by done. lia.
Qed.

(** What holds at the head of the loop in a run that starts from a plan
    of [n] steps built by [create_plan_from_tasks]: every budget is 3, no
    step is running, a pending step that has been tried is the scheduled
    one and has failed no more often than the failure counter says, no
    revision was made, and the passes made plus the dispatches still owed
    stay within [3 * n]. *)
Record Steady (n : nat) (st : State) : Prop := {
  steady_inv : Inv st;
  steady_length : length (steps (plan_of st)) = n;
  steady_budget : Forall (fun s => max_attempts s = 3%Z) (steps (plan_of st));
  steady_idle : Forall (fun s => status s <> Running) (steps (plan_of st));
  steady_failures : (0 <= consecutive_failures st)%Z;
  steady_retry :
    forall i s, steps (plan_of st) !! i = Some s -> status s = Pending ->
      (0 < attempts s)%Z ->
      Scheduler.next_index (plan_of st) = Some (i, s)
      /\ (attempts s <= consecutive_failures st)%Z;
  steady_revisions : revisions st = [];
  steady_dispatches : Z.of_nat (length (dispatches st)) = iteration st;
  steady_potential :
    (iteration st + remaining (steps (plan_of st)) <= 3 * Z.of_nat n)%Z
}.

(** What holds of the state in which the loop stops. *)
Record Ending (n : nat) (st : State) : Prop := {
  ending_length : length (steps (plan_of st)) = n;
  ending_budget : Forall (fun s => max_attempts s = 3%Z) (steps (plan_of st));
  ending_revisions : revisions st = [];
  ending_dispatches : (Z.of_nat (length (dispatches st)) <= iteration st)%Z;
  ending_iteration : (iteration st <= 3 * Z.of_nat n)%Z
}.

Lemma steady_ending (n : nat) (st : State) : Steady n st -> Ending n st.
Proof.
  intros [HI Hlen Hmax Hidle Hcf Hretry Hrev Hdis Hpot].
  constructor; try done; [lia|].
  pose proof (remaining_nonneg _ (inv_plan _ HI) Hmax). lia.
Qed.

Lemma steady_continue (n : nat) (st st' : State) :
  Steady n st -> body st = Continue st' -> Steady n st'.
Proof.
  intros HS Hbody.
  assert (HI' : Inv st') by (eapply inv_continue; [apply HS | exact Hbody]).
  apply body_continue in Hbody as (i & step & step' & result & ok & HP).
  destruct HP as [Hnext Hi Hpend Hrefl Hplan _ Hit Hcf Hdis Hrev].
  destruct HS as [HI Hlen Hmax Hidle Hcf0 Hretry Hrevs Hdiss Hpot].
  cbv zeta in Hplan.
  set (l := steps (plan_of st)) in *.
  pose proof (reflect_step_id (set_status Running step) result ok)
    as (Hid & Hmaxeq & Hdeps & _).
  simpl in Hid, Hmaxeq, Hdeps. rewrite <- Hrefl in Hid, Hmaxeq, Hdeps.
  assert (Hmax3 : max_attempts step = 3%Z).
  { rewrite Forall_lookup in Hmax. exact (Hmax i step Hi). }
  assert (Hat : (0 <= attempts step < 3)%Z).
  { pose proof (inv_plan _ HI) as Hok. unfold plan_ok in Hok.
    rewrite Forall_lookup in Hok. destruct (Hok i step Hi) as (Hb & Hlt & _).
    rewrite <- Hmax3. split; [lia | apply Hlt; by left]. }
  assert (Htried : (attempts step <= consecutive_failures st)%Z).
  { destruct (decide (0 < attempts step)%Z) as [Hpos|Hzero]; [|lia].
    by destruct (Hretry i step Hi Hpend Hpos). }
  assert (Hshape :
            (ok = true /\ status step' = Completed)
            \/ (ok = false /\ status step' = Pending
                /\ attempts step' = (attempts step + 1)%Z
                /\ (attempts step + 1 < 3)%Z)
            \/ (ok = false /\ status step' = Failed
                /\ attempts step = 2%Z)).
  { destruct ok.
    - left. rewrite Hrefl. done.
    - right.
      pose proof (reflect_step_failure (set_status Running step) result) as Hfail.
      cbv zeta in Hfail. rewrite <- Hrefl in Hfail. simpl in Hfail.
      destruct Hfail as (Ha & _ & Hp & Hf & _). rewrite Hmax3 in Hp, Hf.
      destruct (decide (attempts step + 1 < 3)%Z) as [Hlt|Hge].
      + left. by repeat split; [apply Hp|..].
      + right. repeat split; [apply Hf; lia | lia]. }
  assert (Hgate : negb ok && bool_decide (status step' = Failed)
                  && (consecutive_failures st' <? 3)%Z = false).
  { destruct Hshape as [(-> & _) | [(-> & Hst & _) | (-> & Hst & Htwo)]].
    - done.
    - rewrite Hst. done.
    - simpl in Hcf. rewrite andb_false_iff. right. apply Z.ltb_ge. lia. }
  rewrite Hgate in Hplan, Hrev.
  assert (Hsteps : steps (plan_of st') = <[i := step']> l) by by rewrite Hplan.
  assert (Hothers : forall j s, i <> j -> l !! j = Some s -> status s = Pending ->
                      ~ (0 < attempts s)%Z).
  { intros j s Hne Hj Hs Hpos. destruct (Hretry j s Hj Hs Hpos) as [Hn _].
    rewrite Hnext in Hn. congruence. }
  assert (Hnotrun : status step' <> Running).
  { destruct Hshape as [(_ & ->) | [(_ & -> & _) | (_ & -> & _)]]; done. }
  constructor.
  - done.
  - by rewrite Hsteps, length_insert.
  - rewrite Hsteps. apply Forall_insert; [done | congruence].
  - rewrite Hsteps. by apply Forall_insert.
  - rewrite Hcf. destruct ok; lia.
  - intros j s. rewrite Hsteps. destruct (decide (i = j)) as [<- | Hne].
    + rewrite list_lookup_insert_eq by by eapply lookup_lt_Some.
      intros [= <-] Hs _.
      destruct Hshape as [(_ & Hst) | [(-> & _ & Ha & _) | (_ & Hst & _)]];
        [congruence | | congruence].
      split.
      * rewrite Hplan.
        apply (next_index_same_key (plan_of st) i step step' Hnext).
        unfold same_key. by rewrite Hid, Hdeps, Hpend, Hs.
      * rewrite Hcf, Ha. lia.
    + rewrite list_lookup_insert_ne by done.
      intros Hj Hs Hpos. by destruct (Hothers j s Hne Hj Hs).
  - by rewrite Hrev.
  - rewrite Hdis, length_app, Hit. simpl. lia.
  - rewrite Hit, Hsteps, (remaining_insert l i step step' Hi).
    assert (Hstep : owed step = (3 - attempts step)%Z).
    { unfold owed. by rewrite bool_decide_eq_true_2. }
    assert (Hstep' : (owed step' <= owed step - 1)%Z).
    { rewrite Hstep. unfold owed.
      destruct Hshape as [(_ & ->) | [(_ & -> & -> & _) | (_ & -> & _)]];
        simpl; lia. }
    lia.
Qed.

Lemma settled_complete (p : ExecutionPlan) :
  Forall (fun s => status s <> Running) (steps p) ->
  Forall (fun s => status s <> Pending) (steps p) ->
  Scheduler.is_complete p = true.
Proof.
  unfold Scheduler.is_complete.
  induction 1 as [|s l Hs _ IH]; [done|].
  intros Hp. apply Forall_cons in Hp as [Hs' Hp]. simpl.
  rewrite (IH Hp), andb_true_r. by destruct (status s).
Qed.

Lemma steady_break (n : nat) (st st' : State) :
  Steady n st -> body st = Break st' ->
  Ending n st' /\ Scheduler.is_complete (plan_of st') = true.
Proof.
  intros HS Hbody. pose proof (steady_ending n st HS) as [Hlen Hmax Hrev Hdis Hit].
  apply body_break in Hbody as (_ & Hit' & _ & Hdis' & Hrev' & Hcase).
  destruct Hcase as [(_ & Hp & _) | (Hnp & ->)].
  - split.
    + constructor.
      * rewrite Hp. unfold mark_deadlocked. simpl. by rewrite length_map.
      * rewrite Hp. unfold mark_deadlocked. simpl. apply Forall_fmap.
        eapply Forall_impl; [exact Hmax|]. intros s Hs. simpl. by case_bool_decide.
      * congruence.
      * rewrite Hdis', Hit'. done.
      * by rewrite Hit'.
    + apply settled_complete; rewrite Hp; unfold mark_deadlocked; simpl;
        apply Forall_fmap.
      * eapply Forall_impl; [exact (steady_idle _ _ HS)|].
        intros s Hs. simpl. by case_bool_decide.
      * apply Forall_forall. intros s _. simpl. by case_bool_decide.
  - split; [by constructor|].
    apply settled_complete; [exact (steady_idle _ _ HS)|].
    apply Forall_lookup. intros j s Hj. by eapply has_pending_false.
Qed.

Lemma steady_raise (n : nat) (st st' : State) (e : Fault) :
  Steady n st -> body st = Raise e st' -> Ending n st'.
Proof.
  intros HS Hbody.
  destruct HS as [HI Hlen Hmax Hidle Hcf0 Hretry Hrevs Hdiss Hpot].
  apply body_raise in Hbody
    as (i & step & _ & Hi & Hpend & _ & _ & Hp & _ & Hit & Hdis & Hrev).
  assert (Hsteps : steps (plan_of st')
                   = <[i := set_status Running step]> (steps (plan_of st))).
  { rewrite Hp. unfold started, update_step. by rewrite Hi. }
  pose proof (remaining_pending _ i step (inv_plan _ HI) Hmax Hi Hpend).
  constructor.
  - by rewrite Hsteps, length_insert.
  - rewrite Hsteps. apply Forall_insert; [done|].
    rewrite Forall_lookup in Hmax. exact (Hmax i step Hi).
  - congruence.
  - rewrite Hdis, Hit. lia.
  - rewrite Hit. lia.
Qed.

(** The loop from a steady state: however it stops, it stops in an ending
    state; and when it stops without an exception, the plan is complete. *)
Lemma while_steady (n : nat) (fuel : nat) (st : State) :
  Steady n st ->
  match while fuel (4 * Z.of_nat n) st with
  | Finished st' => Ending n st' /\ Scheduler.is_complete (plan_of st') = true
  | Faulted _ st' => Ending n st'
  | OutOfFuel => True
  end.
Proof.
  revert st. induction fuel as [|fuel IH]; intros st HS; simpl.
  all: destruct (negb _ && (iteration st <? 4 * Z.of_nat n)%Z) eqn:Hguard.
  all: try done.
  2:{ destruct (body st) as [st1|st1|e st1] eqn:Hbody.
      - apply IH. by eapply steady_continue.
      - by eapply steady_break.
      - by eapply steady_raise. }
  all: split; [by apply steady_ending|].
  all: destruct (Scheduler.is_complete (plan_of st)) eqn:Hc; [done|].
  all: simpl in Hguard; apply Z.ltb_ge in Hguard.
  all: exfalso.
  all: destruct HS as [HI Hlen Hmax Hidle Hcf0 Hretry Hrevs Hdiss Hpot].
  all: assert (Hsome : exists i s, steps (plan_of st) !! i = Some s
                                   /\ status s = Pending).
  all: try (destruct (decide (Forall (fun s => status s <> Pending)
                                (steps (plan_of st)))) as [Hall|Hex];
            [by rewrite (settled_complete _ Hidle Hall) in Hc|];
            apply not_Forall_Exists in Hex; [|apply _];
            apply Exists_exists in Hex as (s & Hin & Hs);
            apply list_elem_of_lookup_1 in Hin as [i Hi];
            exists i, s; split; [done|];
            by destruct (decide (status s = Pending))).
  all: destruct Hsome as (i & s & Hi & Hs).
  all: pose proof (remaining_pending _ i s (inv_plan _ HI) Hmax Hi Hs); lia.
Qed.

Lemma steady_initial (goal : string) (agent_tasks : list (string * TaskInfo))
    (o : @Orchestrator.Orch W) :
  Steady (length agent_tasks) (initial (create_plan_from_tasks goal agent_tasks) o).
Proof.
  assert (Hrem : forall k l, remaining (steps_from k l) = (3 * Z.of_nat (length l))%Z).
  { intros k l. revert k. induction l as [|[name info] rest IH]; intros k; [done|].
    simpl remaining. rewrite IH. unfold owed. simpl. lia. }
  constructor; simpl.
  - apply inv_initial.
  - apply steps_from_length.
  - apply Forall_lookup. intros i s Hi.
    by apply steps_from_lookup in Hi as (_ & _ & _ & ->).
  - apply Forall_lookup. intros i s Hi.
    apply steps_from_lookup in Hi as (_ & -> & _). done.
  - done.
  - intros i s Hi _ Hpos. apply steps_from_lookup in Hi as (_ & _ & Hz & _). lia.
  - done.
  - done.
  - rewrite Hrem. lia.
Qed.

Lemma max_iterations_of_created (goal : string)
    (agent_tasks : list (string * TaskInfo)) :
  max_iterations_of (create_plan_from_tasks goal agent_tasks)
  = (4 * Z.of_nat (length agent_tasks))%Z.
Proof. unfold max_iterations_of. simpl. rewrite steps_from_length. lia. Qed.

Lemma conclude_plan (goal text : string) (st st' : State) :
  conclude agents store_project elapsed_positive elapsed_1f inspect_site goal st
  = Summary text st' ->
  plan_of st' = plan_of st /\ revisions st' = revisions st
  /\ dispatches st' = dispatches st /\ iteration st' = iteration st.
Proof.
  unfold conclude.
  destruct (_visual_verification _ _ _ _) as [[[|c fx]|] w'];
    try destruct (Orchestrator.agent_of agents "coder") as [coder|];
    try (intros [= _ <-]; done).
  pose proof (call_effect "coder" coder (String c fx)
                (Orchestrator.with_world (fun _ => w') (orch st))) as (Hp & _).
  cbv zeta in Hp.
  destruct (Orchestrator.call _ _ _ _) as [[a ok|msg] o']; [|done].
  simpl in Hp. intros [= _ <-]. unfold plan_of. simpl. by rewrite Hp.
Qed.

(** X7. In a run started by [run_loop], [revise_plan] is never invoked:
    with the default budget of 3 a failing step is dispatched again at
    once, so when it becomes failed the failure counter has reached 3 and
    the gate is closed. The plan therefore keeps the number of steps it
    was built with, every budget stays 3, and the loop makes at most
    three dispatches per step, below its own bound of four passes per
    step. *)
Theorem run_loop_never_revises (fuel : nat) (goal : string)
    (agent_tasks : list (string * TaskInfo)) (o : @Orchestrator.Orch W)
    (st : State) :
  last_state
    (while fuel (max_iterations_of (create_plan_from_tasks goal agent_tasks))
       (initial (create_plan_from_tasks goal agent_tasks) o)) = Some st ->
  revisions st = []
  /\ length (steps (plan_of st)) = length agent_tasks
  /\ (forall s, s ∈ steps (plan_of st) -> max_attempts s = 3%Z)
  /\ (length (dispatches st) <= 3 * length agent_tasks)%nat
  /\ (iteration st <= 3 * Z.of_nat (length agent_tasks))%Z.
Proof.
  rewrite max_iterations_of_created. intros Hlast.
  pose proof (while_steady (length agent_tasks) fuel _
                (steady_initial goal agent_tasks o)) as Hw.
  assert (HE : Ending (length agent_tasks) st).
  { destruct (while_loop _ _ _ _ _ _ _) as [st1|e st1|];
      [destruct Hw as [Hw _] | |done]; by injection Hlast as <-. }
  destruct HE as [Hlen Hmax Hrev Hdis Hit].
  split; [done|]. split; [done|]. split; [|split; [lia | done]].
  intros s Hs. rewrite Forall_forall in Hmax. by apply Hmax.
Qed.

(** X8. A run that returns its summary has settled every step: each one
    is completed or failed, none is left pending or running. The bound of
    four passes per step never cuts a run short. *)
Theorem run_loop_settles_every_step (fuel : nat) (goal : string)
    (agent_tasks : list (string * TaskInfo)) (o : @Orchestrator.Orch W)
    (text : string) (st : State) :
  run fuel goal agent_tasks o = Summary text st ->
  Scheduler.is_complete (plan_of st) = true
  /\ (forall s, s ∈ steps (plan_of st) ->
        status s = Completed \/ status s = Failed)
  /\ length (steps (plan_of st)) = length agent_tasks.
Proof.
  unfold run_loop. rewrite max_iterations_of_created.
  pose proof (while_steady (length agent_tasks) fuel _
                (steady_initial goal agent_tasks o)) as Hw.
  destruct (while_loop _ _ _ _ _ _ _) as [st1|e st1|]; [|done..].
  destruct Hw as [[Hlen _ _ _ _] Hc]. intros Hconc.
  apply conclude_plan in Hconc as (-> & _).
  split; [done|]. split; [|done].
  intros s Hs. unfold Scheduler.is_complete in Hc. rewrite forallb_forall in Hc.
  apply list_elem_of_In in Hs. specialize (Hc s Hs).
  apply orb_true_iff in Hc as [H | H]; apply bool_decide_eq_true in H; auto.
Qed.

End RunShape.

Lemma run_loop_never_revises_witness :
  exists st,
    last_state
      (quiet_loop [("coder", failing_worker)] 8
         (Controller.max_iterations_of
            (Controller.create_plan_from_tasks "build X" [first_task; second_task]))
         (Controller.initial
            (Controller.create_plan_from_tasks "build X" [first_task; second_task])
            new_orchestrator)) = Some st
    /\ Controller.revisions st = []
    /\ length (Controller.dispatches st) = 3%nat.
Proof.
  eexists. split; [vm_compute; reflexivity|].
  match goal with |- context [Controller.revisions ?s] => set (st := s) end.
  destruct (run_loop_never_revises (W:=unit) [("coder", failing_worker)]
              (fun _ _ => EmptyString) (fun _ _ _ w => w) (fun _ => EmptyString)
              8 "build X" [first_task; second_task] new_orchestrator st) as (H & _);
    [vm_compute; reflexivity|].
  split; [exact H | reflexivity].
Defined.

Lemma run_loop_settles_every_step_witness :
  exists text st,
    quiet_run [("coder", failing_worker)] [first_task; second_task] = Summary text st
    /\ Scheduler.is_complete (Controller.plan_of st) = true.
Proof.
  eexists _, _. split; [vm_compute; reflexivity|].
  edestruct (run_loop_settles_every_step (W:=unit) [("coder", failing_worker)]
               (fun _ _ => EmptyString) (fun _ _ _ w => w) (fun _ _ _ w => w)
               (fun _ => EmptyString) (fun _ => false) (fun _ => "0.0")
               (fun _ w => (None, w))
               (Controller.enough_fuel [first_task; second_task])
               "build X" [first_task; second_task] new_orchestrator) as (H & _);
    [vm_compute; reflexivity | exact H].
Defined.

(* ===================================================================== *)
(** ** The dispatcher: routing and the prompt *)
(* ===================================================================== *)

Section DispatcherEdges.

Import Orchestrator.

Context {W : Type}.
Variable agents : list (string * @Worker W).
Variable get_context_for_prompt : string -> W -> string.
Variable store_fact : string -> string -> string -> W -> W.
Variable _gather_rich_context : ExecutionPlan -> string.

Set Default Proof Using "Type".

Abbreviation dispatch :=
  (execute_step agents get_context_for_prompt store_fact _gather_rich_context).
Abbreviation prompt_of :=
  (compose_prompt get_context_for_prompt _gather_rich_context).

Lemma startswith_empty (s : string) : Text.startswith s EmptyString = true.
Proof. by destruct s. Qed.

Lemma has_agent_lookup (k : string) :
  has_agent agents k = true <-> exists w, (k, w) ∈ agents.
Proof.
  unfold has_agent. rewrite existsb_exists. split.
  - intros ([k' w] & Hin & Heq). simpl in Heq. apply String.eqb_eq in Heq as ->.
    exists w. by apply list_elem_of_In.
  - intros [w Hin]. exists (k, w). split; [by apply list_elem_of_In|].
    simpl. apply String.eqb_refl.
Qed.

(** X9. Routing in [execute_step]. A tag whose lower-case form is a key
    of the registry goes to that key. Otherwise it goes to the first key,
    in registry order, that starts with the first three characters of
    the lower-case tag, and to [coder] when there is none. An empty tag
    therefore goes to the first registered worker, whatever it is. The
    key chosen is registered or is [coder]. *)
Theorem resolve_key_routing (tag : string) :
  let k := resolve_key agents tag in
  (has_agent agents (Text.lower tag) = true -> k = Text.lower tag)
  /\ (has_agent agents (Text.lower tag) = false ->
      (forall j key w,
         first_at (fun kv => Text.startswith (fst kv) (Text.take 3 (Text.lower tag)))
                  agents j (key, w) ->
         k = key)
      /\ ((forall key w, (key, w) ∈ agents ->
             Text.startswith key (Text.take 3 (Text.lower tag)) = false) ->
          k = "coder"))
  /\ (tag = EmptyString -> has_agent agents EmptyString = false ->
      forall key w rest, agents = (key, w) :: rest -> k = key)
  /\ (k = "coder" \/ has_agent agents k = true).
Proof.
  cbv zeta. unfold resolve_key.
  destruct (has_agent agents (Text.lower tag)) eqn:Hexact.
  { split; [done|]. split; [done|]. split; [|by right].
    intros -> Hno. change (Text.lower EmptyString) with EmptyString in Hexact.
    congruence. }
  split; [done|]. split; [|split].
  - intros _. split.
    + intros j key w Hfirst.
      assert (Hfind : List.find
                (fun kv : string * Worker =>
                   Text.startswith (fst kv) (Text.take 3 (Text.lower tag))) agents
              = Some (key, w)).
      { apply find_first_at. by exists j. }
      by rewrite Hfind.
    + intros Hnone.
      destruct (List.find _ agents) as [[key w]|] eqn:Hfind; [|done].
      apply find_some in Hfind as [Hin Hpre]. simpl in Hpre.
      apply list_elem_of_In in Hin. by rewrite (Hnone key w Hin) in Hpre.
  - intros -> _ key w rest ->.
    change (Text.take 3 (Text.lower EmptyString)) with EmptyString.
    simpl. by rewrite startswith_empty.
  - destruct (List.find _ agents) as [[key w]|] eqn:Hfind; [|by left].
    right. apply find_some in Hfind as [Hin _].
    apply has_agent_lookup. exists w. by apply list_elem_of_In.
Qed.





End DispatcherEdges.


(* ===================================================================== *)
(** ** The context handed to a step *)
(* ===================================================================== *)

Section ContextFacts.

Import Controller.

Lemma dict_set_elem (k v : string) (d : list (string * string)) (kv : string * string) :
  kv ∈ dict_set k v d -> kv ∈ d \/ kv = (k, v).
Proof.
  induction d as [|[k' v'] d IH]; simpl.
  - intros H. apply list_elem_of_singleton in H. by right.
  - destruct (String.eqb k' k).
    + intros H. apply elem_of_cons in H as [-> | H]; [by right|].
      left. by right.
    + intros H. apply elem_of_cons in H as [-> | H]; [left; by left|].
      destruct (IH H) as [Hd | ->]; [left; by right | by right].
Qed.

Lemma dict_set_has (k v : string) (d : list (string * string)) :
  (k, v) ∈ dict_set k v d.
Proof.
  induction d as [|[k' v'] d IH]; simpl; [by left|].
  destruct (String.eqb k' k); [by left | by right].
Qed.

Lemma dict_set_keeps_key (k v k0 : string) (d : list (string * string)) :
  (exists v0, (k0, v0) ∈ d) -> exists v0, (k0, v0) ∈ dict_set k v d.
Proof.
  intros [v0 Hin]. induction d as [|[k' v'] d IH]; [by inversion Hin|]. simpl.
  destruct (String.eqb k' k) eqn:Hk.
  - apply String.eqb_eq in Hk as ->.
    apply elem_of_cons in Hin as [[= -> ->] | Hin].
    + exists v. by left.
    + exists v0. by right.
  - apply elem_of_cons in Hin as [[= -> ->] | Hin].
    + exists v'. by left.
    + destruct (IH Hin) as [v1 H1]. exists v1. by right.
Qed.

(** The loop of [collect] from a dictionary [d] on. *)
Definition collect_from (keep : TaskStep -> bool) (n : nat)
    (l : list TaskStep) (d : list (string * string)) : list (string * string) :=
  fold_left
    (fun d prev_step =>
       if keep prev_step && bool_decide (status prev_step = Completed)
       then dict_set (Text.str_of_int (id prev_step))
                     (Text.take n (result prev_step)) d
       else d)
    l d.

Lemma collect_from_elem (keep : TaskStep -> bool) (n : nat) (l : list TaskStep)
    (d : list (string * string)) (key value : string) :
  (key, value) ∈ collect_from keep n l d ->
  (key, value) ∈ d
  \/ exists prev, prev ∈ l /\ keep prev = true /\ status prev = Completed
                  /\ key = Text.str_of_int (id prev)
                  /\ value = Text.take n (result prev).
Proof.
  revert d. induction l as [|s l IH]; intros d; simpl; [by left|].
  intros H. apply IH in H as [H | (prev & Hin & Hrest)].
  - destruct (keep s && bool_decide (status s = Completed)) eqn:Hs; [|by left].
    apply andb_true_iff in Hs as [Hk Hc]. apply bool_decide_eq_true in Hc.
    apply dict_set_elem in H as [H | [= -> ->]]; [by left|].
    right. exists s. split; [by left | done].
  - right. exists prev. split; [by right | done].
Qed.

Lemma collect_from_keeps_key (keep : TaskStep -> bool) (n : nat) (l : list TaskStep)
    (d : list (string * string)) (k0 : string) :
  (exists v0, (k0, v0) ∈ d) -> exists v0, (k0, v0) ∈ collect_from keep n l d.
Proof.
  revert d. induction l as [|s l IH]; intros d Hd; simpl; [done|].
  apply IH. destruct (keep s && _); [by apply dict_set_keeps_key | done].
Qed.

Lemma collect_from_has (keep : TaskStep -> bool) (n : nat) (l : list TaskStep)
    (d : list (string * string)) (prev : TaskStep) :
  prev ∈ l -> keep prev = true -> status prev = Completed ->
  exists v0, (Text.str_of_int (id prev), v0) ∈ collect_from keep n l d.
Proof.
  revert d. induction l as [|s l IH]; intros d Hin Hk Hc; [by inversion Hin|].
  simpl. apply elem_of_cons in Hin as [<- | Hin]; [|by apply IH].
  rewrite Hk, bool_decide_eq_true_2 by done. simpl.
  apply collect_from_keeps_key. eexists. apply dict_set_has.
Qed.

(** X11. The context that [run_loop] hands to a step. Every entry comes
    from a completed step of the plan and is keyed by its identifier.
    When some completed step is named among the dependencies of the
    step, the entries are exactly from such named steps, each result cut
    to 500 characters; otherwise they come from the completed steps with
    a smaller identifier, cut to 300. A completed step that is named
    always has its entry. A dependency written as an integer names no
    step here, although the scheduler waits for it. *)
Theorem required_infos_from_completed (p : ExecutionPlan) (step : TaskStep) :
  (forall key value, (key, value) ∈ required_infos p step ->
     (String.length value <= 500)%nat
     /\ exists prev,
          prev ∈ steps p /\ status prev = Completed
          /\ key = Text.str_of_int (id prev)
          /\ ((names step prev = true /\ value = Text.take 500 (result prev))
              \/ ((forall named, named ∈ steps p -> status named = Completed ->
                     names step named = false)
                  /\ (id prev < id step)%Z
                  /\ value = Text.take 300 (result prev))))
  /\ (forall prev, prev ∈ steps p -> status prev = Completed ->
        names step prev = true ->
        exists value, (Text.str_of_int (id prev), value) ∈ required_infos p step)
  /\ ((forall d, d ∈ dependencies step -> exists n, d = DepInt n) ->
      forall prev, names step prev = false).
Proof.
  unfold required_infos, collect.
  fold (collect_from (names step) 500 (steps p) []).
  fold (collect_from (fun prev_step => (id prev_step <? id step)%Z) 300 (steps p) []).
  split; [|split].
  - intros key value.
    destruct (collect_from (names step) 500 (steps p) []) as [|kv d] eqn:Hnamed.
    + intros Hin. apply collect_from_elem in Hin
        as [Hin | (prev & Hp & Hk & Hc & -> & ->)]; [by inversion Hin|].
      split; [pose proof (take_length 300 (result prev)); lia|].
      exists prev. split; [done|]. split; [done|]. split; [done|]. right.
      split; [|split; [by apply Z.ltb_lt | done]].
      intros named Hn Hcn. destruct (names step named) eqn:Hnm; [|done].
      destruct (collect_from_has (names step) 500 (steps p) [] named Hn Hnm Hcn)
        as [v0 Hv0].
      rewrite Hnamed in Hv0. by inversion Hv0.
    + rewrite <- Hnamed. intros Hin. apply collect_from_elem in Hin
        as [Hin | (prev & Hp & Hk & Hc & -> & ->)]; [by inversion Hin|].
      split; [apply take_length|].
      exists prev. split; [done|]. split; [done|]. split; [done|]. by left.
  - intros prev Hp Hc Hk.
    destruct (collect_from_has (names step) 500 (steps p) [] prev Hp Hk Hc)
      as [v0 Hv0].
    destruct (collect_from (names step) 500 (steps p) []) as [|kv d] eqn:Hnamed;
      [by inversion Hv0|].
    by exists v0.
  - intros Hints prev. unfold names.
    apply not_true_is_false. intros Hex. apply existsb_exists in Hex as (d & Hd & Hm).
    apply list_elem_of_In in Hd. destruct (Hints d Hd) as [n ->]. done.
Qed.

End ContextFacts.

(* ===================================================================== *)
(** ** Setting the outcome of a step by its identifier *)
(* ===================================================================== *)

Section PlanOpsFacts.

Import PlanOps.

Lemma update_first_at (f : TaskStep -> TaskStep) (step_id : Z)
    (l : list TaskStep) (i : nat) (s : TaskStep) :
  first_at (fun t => (id t =? step_id)%Z) l i s ->
  update_first f step_id l = <[i := f s]> l.
Proof.
  revert i. induction l as [|t l IH]; intros i (Hi & Hs & Hlt); [done|].
  destruct i as [|i]; simpl in *.
  - injection Hi as ->. by rewrite Hs.
  - rewrite (Hlt 0%nat t) by (done || lia). f_equal. apply IH.
    split; [done|]. split; [done|]. intros j u Hj Hu. apply (Hlt (S j)); [lia | done].
Qed.

Lemma update_first_missing (f : TaskStep -> TaskStep) (step_id : Z)
    (l : list TaskStep) :
  (forall t, t ∈ l -> id t <> step_id) -> update_first f step_id l = l.
Proof.
  induction l as [|t l IH]; intros Hno; [done|]. simpl.
  destruct (id t =? step_id)%Z eqn:Ht.
  - apply Z.eqb_eq in Ht. by destruct (Hno t ltac:(left)).
  - f_equal. apply IH. intros u Hu. apply Hno. by right.
Qed.

Lemma set_steps_same (p : ExecutionPlan) : set_steps (steps p) p = p.
Proof. by destruct p. Qed.

(** X12. [mark_step_done] and [mark_step_failed] rewrite the first step
    that carries the identifier, exactly as [reflect] rewrites the step
    it is given: completed with the result, or one more attempt, the
    error text, and failed at the budget or pending below it. They leave
    every other step and the reflection log alone, they do not look at
    the status the step had, and an identifier that no step carries is
    passed over without any change or error. *)
Theorem mark_step_matches_reflect (p : ExecutionPlan) (step_id : Z)
    (r e : string) :
  (forall i s,
     first_at (fun t => (id t =? step_id)%Z) (steps p) i s ->
     steps (mark_step_done step_id r p)
     = <[i := snd (Reviser.reflect_step s r true)]> (steps p)
     /\ steps (mark_step_failed step_id e p)
        = <[i := snd (Reviser.reflect_step s e false)]> (steps p)
     /\ (forall s', steps (mark_step_failed step_id e p) !! i = Some s' ->
           attempts s' = (attempts s + 1)%Z
           /\ (status s' = Failed <-> (max_attempts s <= attempts s + 1)%Z)
           /\ (status s' = Pending <-> (attempts s + 1 < max_attempts s)%Z)))
  /\ ((forall t, t ∈ steps p -> id t <> step_id) ->
      mark_step_done step_id r p = p /\ mark_step_failed step_id e p = p)
  /\ reflection_log (mark_step_done step_id r p) = reflection_log p
  /\ reflection_log (mark_step_failed step_id e p) = reflection_log p.
Proof.
  split; [|split; [|done]].
  - intros i s Hfirst.
    assert (Hfail : steps (mark_step_failed step_id e p)
                    = <[i := snd (Reviser.reflect_step s e false)]> (steps p)).
    { unfold mark_step_failed. simpl. rewrite (update_first_at _ _ _ i s Hfirst).
      f_equal. unfold Reviser.reflect_step. simpl.
      by destruct (max_attempts s <=? attempts s + 1)%Z. }
    split; [|split; [done|]].
    + unfold mark_step_done. simpl. by rewrite (update_first_at _ _ _ i s Hfirst).
    + intros s'. rewrite Hfail.
      rewrite list_lookup_insert_eq
        by (destruct Hfirst as (Hi & _); by eapply lookup_lt_Some).
      intros [= <-]. unfold Reviser.reflect_step. simpl.
      destruct (max_attempts s <=? attempts s + 1)%Z eqn:Hle; simpl.
      * apply Z.leb_le in Hle. split; [done|]. split; split; try done; lia.
      * apply Z.leb_gt in Hle. split; [done|]. split; split; try done; lia.
  - intros Hno. unfold mark_step_done, mark_step_failed.
    rewrite !update_first_missing by done. by rewrite set_steps_same.
Qed.

End PlanOpsFacts.

(* ===================================================================== *)
(** ** The text that a run returns *)
(* ===================================================================== *)

Section SummaryFacts.

Import Controller.

Context {W : Type}.
Variable agents : list (string * @Orchestrator.Worker W).
Variable get_context_for_prompt : string -> W -> string.
Variable store_fact : string -> string -> string -> W -> W.
Variable store_project : string -> string -> string -> W -> W.
Variable _gather_rich_context : ExecutionPlan -> string.
Variable elapsed_positive : W -> bool.
Variable elapsed_1f : W -> string.
Variable inspect_site : string -> W -> option string * W.

Set Default Proof Using "Type".

Abbreviation run :=
  (run_loop agents get_context_for_prompt store_fact store_project
     _gather_rich_context elapsed_positive elapsed_1f inspect_site).
Abbreviation summary_of := (summary elapsed_positive elapsed_1f).
Abbreviation progress_of := (get_progress_text elapsed_positive elapsed_1f).

Lemma occurs_in_trans (a b c : string) :
  occurs_in a b -> occurs_in b c -> occurs_in a c.
Proof.
  intros (p1 & q1 & ->) (p2 & q2 & ->).
  exists (p2 +:+ p1), (q1 +:+ q2). by rewrite !app_assoc'.
Qed.

Lemma join_sep_occurs (sep x : string) (l : list string) :
  x ∈ l -> occurs_in x (Text.join sep l).
Proof.
  induction l as [|y l IH]; [by intros H; inversion H|].
  intros Hin. simpl. destruct l as [|z l].
  - apply list_elem_of_singleton in Hin as ->. apply occurs_in_refl.
  - apply elem_of_cons in Hin as [-> | Hin].
    + apply occurs_in_app_l, occurs_in_refl.
    + do 2 apply occurs_in_app_r. by apply IH.
Qed.

Lemma join_sep_last (sep x : string) (l : list string) :
  exists pre, Text.join sep (l ++ [x]) = pre +:+ x.
Proof.
  induction l as [|y l IH]; [by exists EmptyString|].
  destruct IH as [pre Hpre]. simpl.
  destruct (l ++ [x])%list as [|z r] eqn:Hl; [by destruct l|].
  rewrite Hpre. exists (y +:+ sep +:+ pre). by rewrite !app_assoc'.
Qed.

(** The line of [get_progress_text] for one step. *)
Definition step_line (step : TaskStep) : string :=
  icon (status step) +:+ " Langkah " +:+ Text.str_of_int (id step)
  +:+ ": [" +:+ upper (agent_type step) +:+ "] "
  +:+ description step +:+ " (" +:+ status_text (status step) +:+ ")".

Lemma progress_lists_steps (p : ExecutionPlan) (w : W) (s : TaskStep) :
  s ∈ steps p -> occurs_in (step_line s) (progress_of p w).
Proof.
  intros Hs. unfold get_progress_text. cbv zeta. apply join_sep_occurs.
  assert (Hbase : step_line s
                  ∈ ("**Rencana: " +:+ goal p +:+ "**" +:+ nl) :: map step_line (steps p)).
  { right. by apply list_elem_of_fmap_2. }
  destruct (elapsed_positive w); [apply elem_of_app; by left | done].
Qed.

Lemma conclude_text (goal text : string) (st st' : @Loop W) :
  conclude agents store_project elapsed_positive elapsed_1f inspect_site goal st
  = Summary text st' ->
  exists elapsed,
    text = summary_of (plan_of st') (final_answer st') elapsed
             (Orchestrator.world (orch st')).
Proof.
  unfold conclude.
  destruct (_visual_verification _ _ _ _) as [[[|c fx]|] w'];
    try destruct (Orchestrator.agent_of agents "coder") as [coder|];
    try (intros [= <- <-]; by eexists).
  destruct (Orchestrator.call _ _ _ _) as [[a ok|msg] o']; [|done].
  intros [= <- <-]. by eexists.
Qed.

(** X13. The text that [run_loop] returns is the summary of the final
    plan. It holds the progress line of every step of the plan, with
    the identifier, the worker tag in capitals, the description and the
    final status; the count of completed steps over all steps; one
    line for each of the last five entries of the reflection log, and
    for no more than five; and, when the run has a final answer, it
    ends with that answer. *)
Theorem run_summary_lists_steps (fuel : nat) (goal : string)
    (agent_tasks : list (string * TaskInfo)) (o : @Orchestrator.Orch W)
    (text : string)
    (st : @Loop W) :
  run fuel goal agent_tasks o = Summary text st ->
  let p := plan_of st in
  (forall s, s ∈ steps p -> occurs_in (step_line s) text)
  /\ occurs_in
       ("**Hasil:** "
        +:+ Text.str_of_int (Z.of_nat (Scheduler.count_status Completed p)) +:+ "/"
        +:+ Text.str_of_int (Z.of_nat (length (steps p))) +:+ " langkah selesai dalam ")
       text
  /\ (forall entry,
        entry ∈ skipn (length (reflection_log p) - 5) (reflection_log p) ->
        occurs_in ("  - " +:+ entry) text)
  /\ (length (skipn (length (reflection_log p) - 5) (reflection_log p)) <= 5)%nat
  /\ (final_answer st <> EmptyString ->
      exists pre, text = pre +:+ "**Hasil akhir:**" +:+ nl +:+ final_answer st).
Proof.
  unfold run_loop.
  destruct (while_loop _ _ _ _ _ _ _) as [st1|e st1|]; [|done..].
  intros Hc. apply conclude_text in Hc as [elapsed Hc]. cbv zeta.
  set (p := plan_of st) in *. set (wf := Orchestrator.world (orch st)) in *.
  set (base :=
         [ progress_of p wf; nl +:+ "---" +:+ nl;
           "**Hasil:** "
           +:+ Text.str_of_int (Z.of_nat (Scheduler.count_status Completed p)) +:+ "/"
           +:+ Text.str_of_int (Z.of_nat (length (steps p)))
           +:+ " langkah selesai dalam " +:+ elapsed +:+ " detik" ]).
  set (logged :=
         match reflection_log p with
         | [] => base
         | _ :: _ =>
             (base ++ [nl +:+ "**Log refleksi:**"]
              ++ map (fun log_entry => "  - " +:+ log_entry)
                     (skipn (length (reflection_log p) - 5) (reflection_log p)))%list
         end).
  set (lines :=
         match final_answer st with
         | EmptyString => logged
         | String _ _ =>
             (logged ++ [nl +:+ nl +:+ "**Hasil akhir:**" +:+ nl +:+ final_answer st])%list
         end).
  assert (Htext : text = Text.join nl lines).
  { rewrite Hc. unfold summary. cbv zeta. fold p wf. subst lines logged base.
    by destruct (reflection_log p), (final_answer st). }
  assert (Hbase : forall x, x ∈ base -> x ∈ lines).
  { intros x Hx. subst lines.
    assert (x ∈ logged).
    { subst logged. destruct (reflection_log p); [done|]. apply elem_of_app. by left. }
    destruct (final_answer st); [done|]. apply elem_of_app. by left. }
  split; [|split; [|split; [|split]]].
  - intros s Hs. rewrite Htext.
    apply (occurs_in_trans _ (progress_of p wf)).
    + by apply progress_lists_steps.
    + apply join_sep_occurs, Hbase. by left.
  - rewrite Htext.
    apply (occurs_in_trans _
             ("**Hasil:** "
              +:+ Text.str_of_int (Z.of_nat (Scheduler.count_status Completed p)) +:+ "/"
              +:+ Text.str_of_int (Z.of_nat (length (steps p)))
              +:+ " langkah selesai dalam " +:+ elapsed +:+ " detik")).
    + exists EmptyString, (elapsed +:+ " detik").
      rewrite app_empty. by rewrite !app_assoc'.
    + apply join_sep_occurs, Hbase. right. right. by left.
  - intros entry Hin. rewrite Htext. apply join_sep_occurs. subst lines.
    assert (("  - " +:+ entry) ∈ logged).
    { subst logged. destruct (reflection_log p) as [|x l] eqn:Hlog.
      - rewrite skipn_nil in Hin. by inversion Hin.
      - apply elem_of_app. right. right.
        change ("  - " +:+ entry)
          with ((fun log_entry : string => "  - " +:+ log_entry) entry).
        by apply list_elem_of_fmap_2. }
    destruct (final_answer st); [done|]. apply elem_of_app. by left.
  - rewrite length_skipn. lia.
  - intros Hanswer. rewrite Htext. subst lines.
    destruct (final_answer st) as [|c a] eqn:Hfa; [done|].
    destruct (join_sep_last nl
                (nl +:+ nl +:+ "**Hasil akhir:**" +:+ nl +:+ String c a) logged)
      as [pre Hpre].
    rewrite Hpre. exists (pre +:+ nl +:+ nl). by rewrite !app_assoc'.
Qed.

End SummaryFacts.

Lemma run_summary_lists_steps_witness :
  exists text st,
    quiet_run [("coder", succeeding_worker)] [first_task] = Summary text st
    /\ occurs_in "[OK] Langkah 1: [CODER] write a.py (completed)" text.
Proof.
  eexists _, _. split; [vm_compute; reflexivity|].
  edestruct (run_summary_lists_steps (W:=unit) [("coder", succeeding_worker)]
               (fun _ _ => EmptyString) (fun _ _ _ w => w) (fun _ _ _ w => w)
               (fun _ => EmptyString) (fun _ => false) (fun _ => "0.0")
               (fun _ w => (None, w))
               (Controller.enough_fuel [first_task])
               "build X" [first_task] new_orchestrator) as (H & _);
    [vm_compute; reflexivity|].
  apply (H (set_result "done" (set_status Completed
              (new_step 1 "write a.py" "coder" 3 [])))).
  vm_compute. by left.
Defined.

(* ===================================================================== *)
(** ** The records that a run keeps *)
(* ===================================================================== *)

Section DispatchMemory.

Import Orchestrator.

Context {W : Type}.
Variable agents : list (string * @Worker W).
Variable get_context_for_prompt : string -> W -> string.
Variable store_fact : string -> string -> string -> W -> W.
Variable _gather_rich_context : ExecutionPlan -> string.

Set Default Proof Using "Type".

Abbreviation dispatch :=
  (execute_step agents get_context_for_prompt store_fact _gather_rich_context).

(** What one dispatch adds to the execution memory. *)
Lemma execute_step_memory (i : nat) (step : TaskStep)
    (infos : list (string * string)) (o : @Orch W) :
  let k := resolve_key agents (agent_type step) in
  let r := dispatch i step infos o in
  exists added,
    execution_memory (snd r) = execution_memory o ++ added
    /\ (length added <= 2)%nat
    /\ Forall (fun e => step_id e = id step /\ agent e = k) added
    /\ (forall e, fst r = inl e -> added = [])
    /\ (forall a, fst r = inr (a, true) ->
          exists pre retry,
            added = pre ++ [mkEntry (id step) k true (Text.take 200 a) retry]).
Proof.
  intros k r. subst r. unfold execute_step. fold k.
  set (o0 := with_plan (update_step i (set_status Running)) o).
  destruct (agent_of agents k) as [worker|].
  2:{ exists []. simpl. rewrite app_nil_r. repeat split; try done; lia. }
  set (prompt := compose_prompt get_context_for_prompt _gather_rich_context step infos o0).
  destruct (steps (plan o0)) as [|s0 others] eqn:Hsteps0.
  { exists []. simpl. rewrite app_nil_r. repeat split; try done; lia. }
  pose proof (call_effect k worker prompt o0) as H1. cbv zeta in H1.
  destruct (call k worker prompt o0) as [out1 o1]. simpl in H1.
  destruct H1 as (_ & Hm1 & _).
  change (execution_memory o0) with (execution_memory o) in Hm1.
  destruct out1 as [a ok | msg].
  2:{ exists []. simpl. rewrite app_nil_r. repeat split; try done; lia. }
  set (e1 := mkEntry (id step) k ok (Text.take 200 a) false).
  assert (Hfin : forall a' ok' o2 added,
            execution_memory o2 = execution_memory o ++ added ->
            (length added <= 2)%nat ->
            Forall (fun e => step_id e = id step /\ agent e = k) added ->
            (ok' = true ->
             exists pre retry,
               added = pre ++ [mkEntry (id step) k true (Text.take 200 a') retry]) ->
            exists added',
              execution_memory (snd (finish store_fact step k a' ok' o2))
              = execution_memory o ++ added'
              /\ (length added' <= 2)%nat
              /\ Forall (fun e => step_id e = id step /\ agent e = k) added'
              /\ (forall e, fst (finish store_fact step k a' ok' o2) = inl e ->
                    added' = [])
              /\ (forall a0, fst (finish store_fact step k a' ok' o2) = inr (a0, true) ->
                    exists pre retry,
                      added' = pre ++ [mkEntry (id step) k true (Text.take 200 a0) retry])).
  { intros a' ok' o2 added Hm Hlen Hall Hlast.
    pose proof (finish_effect store_fact step k a' ok' o2) as (Hres & _ & Hmf & _).
    exists added. rewrite Hmf, Hres. repeat split; try done.
    intros a0 [= <- ->]. by apply Hlast. }
  assert (He1 : execution_memory (remember e1 o1) = execution_memory o ++ [e1]).
  { simpl. by rewrite Hm1. }
  assert (Hlast1 : ok = true ->
            exists pre retry,
              [e1] = pre ++ [mkEntry (id step) k true (Text.take 200 a) retry]).
  { intros ->. by exists [], false. }
  destruct (negb ok && String.eqb k "coder") eqn:Hretry.
  2:{ apply (Hfin a ok (remember e1 o1) [e1]); try done; [simpl; lia|].
      by repeat constructor. }
  pose proof (handle_effect agents step a (remember e1 o1)) as Hh. cbv zeta in Hh.
  destruct (_handle_install_failure_with_browsing agents step a (remember e1 o1))
    as [fix_ o2]. simpl in Hh.
  destruct Hh as (_ & Hm2 & _). simpl in Hm2. rewrite Hm1 in Hm2.
  destruct fix_ as [[|ch fix_]|]; cbv beta iota.
  1,3: apply (Hfin a ok o2 [e1]); try done; [simpl; lia | by repeat constructor].
  pose proof (call_effect k worker (String ch fix_) o2) as H3. cbv zeta in H3.
  destruct (call k worker (String ch fix_) o2) as [out2 o3]. simpl in H3.
  destruct H3 as (_ & Hm3 & _). rewrite Hm2 in Hm3.
  destruct out2 as [a2 ok2 | msg2].
  - set (e2 := mkEntry (id step) k ok2 (Text.take 200 a2) true).
    apply (Hfin a2 ok2 (remember e2 o3) [e1; e2]).
    + simpl. rewrite Hm3. by rewrite <- app_assoc.
    + simpl; lia.
    + by repeat constructor.
    + intros ->. by exists [e1], true.
  - exists [e1]. simpl. split; [done|]. split; [lia|].
    split; [by repeat constructor|]. split; [done|]. by intros a0 [= _ ?].
Qed.

End DispatchMemory.

Section RunLedger.

Import Controller.

Context {W : Type}.
Variable agents : list (string * @Orchestrator.Worker W).
Variable get_context_for_prompt : string -> W -> string.
Variable store_fact : string -> string -> string -> W -> W.
Variable store_project : string -> string -> string -> W -> W.
Variable _gather_rich_context : ExecutionPlan -> string.
Variable elapsed_positive : W -> bool.
Variable elapsed_1f : W -> string.
Variable inspect_site : string -> W -> option string * W.

Set Default Proof Using "Type".

Abbreviation body :=
  (loop_body agents get_context_for_prompt store_fact _gather_rich_context).
Abbreviation while :=
  (while_loop agents get_context_for_prompt store_fact _gather_rich_context).
Abbreviation run :=
  (run_loop agents get_context_for_prompt store_fact store_project
     _gather_rich_context elapsed_positive elapsed_1f inspect_site).
Abbreviation State := (@Loop W).
(** The execution memory of the orchestrator in a loop state. *)
Definition memory_of (st : State) : list MemoryEntry :=
  Orchestrator.execution_memory (orch st).

(** What a pass that dispatches a step does to the records of the run. *)
Lemma body_continue_ledger (st st' : State) :
  body st = Continue st' ->
  exists i step step' result ok,
    Pass st st' i step step' result ok
    /\ final_answer st' = (if ok then result else final_answer st)
    /\ work_results st'
       = dict_set (Text.str_of_int (id step')) result (work_results st)
    /\ exists added,
         memory_of st' = memory_of st ++ added
         /\ (length added <= 2)%nat
         /\ Forall (fun e => step_id e = id step) added.
Proof.
  unfold loop_body.
  destruct (Scheduler.next_index (plan_of st)) as [[i step]|] eqn:Hnext.
  2:{ destruct (has_pending (plan_of st)); discriminate. }
  pose proof (next_index_lookup _ _ _ Hnext) as (Hi & Hready & _).
  apply ready_test_true in Hready as [Hpend _].
  pose proof (execute_step_plan agents get_context_for_prompt store_fact
                _gather_rich_context i step
                (required_infos (plan_of st) step) (orch st)) as Hp1.
  pose proof (execute_step_memory agents get_context_for_prompt store_fact
                _gather_rich_context i step
                (required_infos (plan_of st) step) (orch st)) as Hmem.
  cbv zeta in Hmem.
  destruct (Orchestrator.execute_step _ _ _ _ _ _ _ _) as [[e|[result ok]] o1];
    [discriminate|].
  simpl in Hp1, Hmem. fold (plan_of st) in Hp1.
  destruct Hmem as (added & Hm & Hlen & Hall & _).
  assert (Hsteps1 : steps (Orchestrator.plan o1)
                    = <[i := set_status Running step]> (steps (plan_of st))).
  { rewrite Hp1. unfold update_step. by rewrite Hi. }
  assert (Hlt : (i < length (steps (plan_of st)))%nat) by by eapply lookup_lt_Some.
  set (line := fst (Reviser.reflect_step (set_status Running step) result ok)).
  set (step' := snd (Reviser.reflect_step (set_status Running step) result ok)).
  set (p2 := log_reflection line
               (set_steps (<[i := step']> (steps (plan_of st))) (plan_of st))).
  assert (Hp2 : snd (Reviser.reflect i result ok (Orchestrator.plan o1)) = p2).
  { unfold Reviser.reflect. rewrite Hsteps1.
    rewrite list_lookup_insert_eq by done.
    subst p2 line step'.
    destruct (Reviser.reflect_step _ _ _) as [r s']. simpl.
    rewrite insert_insert_same. rewrite Hp1. unfold update_step. by rewrite Hi. }
  assert (Hstep' : default step (steps p2 !! i) = step').
  { subst p2. simpl. by rewrite list_lookup_insert_eq. }
  unfold Orchestrator.with_plan. simpl. rewrite !Hp2, !Hstep'.
  intros [= <-].
  exists i, step, step', result, ok.
  split; [|split; [done|split; [done|]]].
  - constructor; try done; simpl.
    + unfold plan_of; simpl. by destruct (negb ok && _ && _).
    + exists (Orchestrator.plan o1), p2. by repeat split.
  - exists added. unfold memory_of. simpl.
    split; [|split; [done|]].
    + by destruct (negb ok && _ && _).
    + eapply Forall_impl; [exact Hall|]. by intros e0 [He0 _].
Qed.

Lemma body_break_ledger (st st' : State) :
  body st = Break st' ->
  memory_of st' = memory_of st /\ final_answer st' = final_answer st
  /\ work_results st' = work_results st.
Proof.
  unfold loop_body.
  destruct (Scheduler.next_index (plan_of st)) as [[i step]|].
  { destruct (Orchestrator.execute_step _ _ _ _ _ _ _ _) as [[e|[result ok]] o1];
      discriminate. }
  by destruct (has_pending (plan_of st)); intros [= <-].
Qed.

Lemma body_raise_ledger (st st' : State) (e : Fault) :
  body st = Raise e st' ->
  memory_of st' = memory_of st /\ final_answer st' = final_answer st
  /\ work_results st' = work_results st.
Proof.
  unfold loop_body.
  destruct (Scheduler.next_index (plan_of st)) as [[i step]|].
  2:{ destruct (has_pending (plan_of st)); discriminate. }
  pose proof (execute_step_memory agents get_context_for_prompt store_fact
                _gather_rich_context i step
                (required_infos (plan_of st) step) (orch st)) as Hmem.
  cbv zeta in Hmem.
  destruct (Orchestrator.execute_step _ _ _ _ _ _ _ _) as [[e'|[result ok]] o1];
    [|discriminate].
  simpl in Hmem. destruct Hmem as (added & Hm & _ & _ & Hnil & _).
  rewrite (Hnil e' eq_refl), app_nil_r in Hm.
  intros [= <- <-]. by unfold memory_of.
Qed.

Lemma dict_set_other (k v k0 v0 : string) (d : list (string * string)) :
  k0 <> k -> (k0, v0) ∈ d -> (k0, v0) ∈ dict_set k v d.
Proof.
  intros Hne. induction d as [|[k1 v1] d IH]; [by intros H; inversion H|].
  intros Hin. simpl. destruct (String.eqb k1 k) eqn:Hk.
  - apply String.eqb_eq in Hk as ->.
    apply elem_of_cons in Hin as [[= ? ?] | Hin]; [done | by right].
  - apply elem_of_cons in Hin as [[= -> ->] | Hin]; [by left|].
    right. by apply IH.
Qed.

(** The records of a run of a plan of [n] steps on an orchestrator
    whose execution memory was [prior]: the memory holds [prior] and,
    after it, at most two entries for each dispatch, each of a step of
    the plan; the final answer is the result of a completed step, or is
    empty while no step is completed; the result of every completed step
    is filed under its identifier. *)
Record Ledger (prior : list MemoryEntry) (n : nat) (st : State) : Prop := {
  ledger_memory :
    exists added,
      memory_of st = prior ++ added
      /\ (length added <= 2 * length (dispatches st))%nat
      /\ Forall (fun e => (1 <= step_id e <= Z.of_nat n)%Z) added;
  ledger_answer :
    (final_answer st = EmptyString
     /\ Forall (fun s => status s <> Completed) (steps (plan_of st)))
    \/ (exists i s, steps (plan_of st) !! i = Some s
                    /\ status s = Completed /\ result s = final_answer st);
  ledger_results :
    forall i s, steps (plan_of st) !! i = Some s -> status s = Completed ->
      (Text.str_of_int (id s), result s) ∈ work_results st
}.

Lemma ledger_continue (prior : list MemoryEntry) (n : nat) (st st' : State) :
  Steady n st -> Ledger prior n st -> body st = Continue st' ->
  Ledger prior n st'.
Proof.
  intros HS [(added0 & Hm0 & Hcount & Hids) Hans Hres] Hbody.
  pose proof (steady_continue agents get_context_for_prompt store_fact
                _gather_rich_context n st st' HS Hbody) as HS'.
  apply body_continue_ledger in Hbody
    as (i & step & step' & res & ok & HP & Hfa & Hwr & added & Hm & Hlen & Hall).
  destruct HP as [Hnext Hi Hpend Hrefl Hplan _ Hit Hcf Hdis _].
  cbv zeta in Hplan.
  set (l := steps (plan_of st)) in *.
  assert (Hilt : (i < length l)%nat) by by eapply lookup_lt_Some.
  assert (Hsteps : steps (plan_of st') = <[i := step']> l).
  { destruct (maybe_revised
                (negb ok && bool_decide (status step' = Failed)
                 && (consecutive_failures st' <? 3)%Z)
                step'
                (log_reflection
                   (fst (Reviser.reflect_step (set_status Running step) res ok))
                   (set_steps (<[i:=step']> l) (plan_of st))))
      as (more & Hsteps & _).
    rewrite <- Hplan in Hsteps. simpl in Hsteps.
    pose proof (steady_length _ _ HS') as Hn'.
    pose proof (steady_length _ _ HS) as Hn. fold l in Hn.
    rewrite Hsteps, length_app, length_insert in Hn'.
    destruct more; [by rewrite app_nil_r in Hsteps | simpl in Hn'; lia]. }
  pose proof (inv_numbered _ (steady_inv _ _ HS)) as Hnum.
  pose proof (reflect_step_id (set_status Running step) res ok) as (Hid & _).
  simpl in Hid. rewrite <- Hrefl in Hid.
  assert (Hidstep : id step = (Z.of_nat i + 1)%Z) by by apply Hnum.
  assert (Hdone : status step' = Completed -> ok = true /\ result step' = res).
  { rewrite Hrefl. destruct ok; [done|]. unfold Reviser.reflect_step. simpl.
    by destruct (max_attempts step <=? attempts step + 1)%Z. }
  constructor.
  - exists (added0 ++ added). split; [by rewrite Hm, Hm0, app_assoc|]. split.
    + rewrite Hdis, !length_app. simpl. lia.
    + apply Forall_app. split; [done|].
      eapply Forall_impl; [exact Hall|]. intros e0 He0. simpl in He0.
      rewrite He0, Hidstep. pose proof (steady_length _ _ HS) as Hn.
      fold l in Hn. lia.
  - rewrite Hsteps, Hfa. destruct ok.
    + right. exists i, step'. split; [by apply list_lookup_insert_eq|].
      by rewrite Hrefl.
    + destruct Hans as [[Hempty Hnone] | (j & s & Hj & Hs & Hr)].
      * left. split; [done|]. apply Forall_insert; [done|].
        intros Hc. by destruct (Hdone Hc).
      * right. exists j, s. split; [|done].
        rewrite list_lookup_insert_ne; [done|]. intros ->. fold l in Hj. congruence.
  - intros j s. rewrite Hsteps, Hwr. destruct (decide (i = j)) as [<- | Hne].
    + rewrite list_lookup_insert_eq by done. intros [= <-] Hc.
      destruct (Hdone Hc) as [_ ->]. apply dict_set_has.
    + rewrite list_lookup_insert_ne by done. intros Hj Hc.
      apply dict_set_other; [|by apply (Hres j)].
      intros Heq. apply str_of_int_inj in Heq. rewrite Hid in Heq.
      apply Hne. symmetry. by eapply (numbered_unique (plan_of st)).
Qed.

Lemma ledger_break (prior : list MemoryEntry) (n : nat) (st st' : State) :
  Ledger prior n st -> body st = Break st' -> Ledger prior n st'.
Proof.
  intros [(added0 & Hm0 & Hcount & Hids) Hans Hres] Hbody.
  pose proof (body_break_ledger _ _ Hbody) as (Hm & Hfa & Hwr).
  apply (body_break agents get_context_for_prompt store_fact _gather_rich_context)
    in Hbody as (_ & _ & _ & Hdis & _ & Hcase).
  destruct Hcase as [(_ & Hp & _) | (_ & ->)];
    [|constructor; [by exists added0 | done | done]].
  assert (Hkeep : forall j s, steps (plan_of st) !! j = Some s -> status s = Completed ->
                    steps (plan_of st') !! j = Some s).
  { intros j s Hj Hs. rewrite Hp, (mark_deadlocked_lookup _ _ _ Hj).
    rewrite bool_decide_eq_false_2; [done | congruence]. }
  constructor.
  - exists added0. by rewrite Hm, Hdis.
  - rewrite Hfa. destruct Hans as [[Hempty Hnone] | (j & s & Hj & Hs & Hr)].
    + left. split; [done|]. rewrite Hp. unfold mark_deadlocked. simpl.
      apply Forall_fmap. eapply Forall_impl; [exact Hnone|].
      intros s Hs. simpl. by case_bool_decide.
    + right. exists j, s. split; [by apply Hkeep | done].
  - intros j s'. rewrite Hp, Hwr. unfold mark_deadlocked. simpl.
    rewrite list_lookup_fmap.
    destruct (steps (plan_of st) !! j) as [s|] eqn:Hj; [|done].
    simpl. intros [= <-]. case_bool_decide; [done|]. by apply (Hres j).
Qed.

Lemma ledger_raise (prior : list MemoryEntry) (n : nat) (st st' : State)
    (e : Fault) :
  Ledger prior n st -> body st = Raise e st' -> Ledger prior n st'.
Proof.
  intros [(added0 & Hm0 & Hcount & Hids) Hans Hres] Hbody.
  pose proof (body_raise_ledger _ _ _ Hbody) as (Hm & Hfa & Hwr).
  apply (body_raise agents get_context_for_prompt store_fact _gather_rich_context)
    in Hbody as (i & step & _ & Hi & Hpend & _ & _ & Hp & _ & _ & Hdis & _).
  assert (Hsteps : steps (plan_of st')
                   = <[i := set_status Running step]> (steps (plan_of st))).
  { rewrite Hp. unfold started, update_step. by rewrite Hi. }
  constructor.
  - exists added0. by rewrite Hm, Hdis.
  - rewrite Hfa, Hsteps. destruct Hans as [[Hempty Hnone] | (j & s & Hj & Hs & Hr)].
    + left. split; [done|]. by apply Forall_insert.
    + right. exists j, s. split; [|done].
      rewrite list_lookup_insert_ne; [done|]. intros ->. congruence.
  - intros j s. rewrite Hsteps, Hwr. destruct (decide (i = j)) as [<- | Hne].
    + rewrite list_lookup_insert_eq by by eapply lookup_lt_Some. by intros [= <-].
    + rewrite list_lookup_insert_ne by done. apply Hres.
Qed.

Lemma while_ledger (prior : list MemoryEntry) (n : nat) (fuel : nat)
    (max_iterations : Z) (st st' : State) :
  Steady n st -> Ledger prior n st ->
  last_state (while fuel max_iterations st) = Some st' -> Ledger prior n st'.
Proof.
  revert st. induction fuel as [|fuel IH]; intros st HS HL; simpl.
  - destruct (negb _ && _); [done | by intros [= <-]].
  - destruct (negb _ && _); [|by intros [= <-]].
    destruct (body st) as [st1|st1|e st1] eqn:Hbody; simpl.
    + apply IH; [by eapply steady_continue | by eapply ledger_continue].
    + intros [= <-]. by eapply ledger_break.
    + intros [= <-]. by eapply ledger_raise.
Qed.

Lemma ledger_initial (goal : string) (agent_tasks : list (string * TaskInfo))
    (o : @Orchestrator.Orch W) :
  Ledger (Orchestrator.execution_memory o) (length agent_tasks)
    (initial (create_plan_from_tasks goal agent_tasks) o).
Proof.
  constructor; simpl.
  - exists []. unfold memory_of. simpl. rewrite app_nil_r.
    split; [done|]. split; [lia | constructor].
  - left. split; [done|]. apply Forall_lookup. intros i s Hi.
    apply steps_from_lookup in Hi as (_ & -> & _). done.
  - intros i s Hi Hc. apply steps_from_lookup in Hi as (_ & Hp & _). congruence.
Qed.

(** X14. The execution memory of a run. [run_loop] does not clear the
    execution memory: a run on an orchestrator that has run before keeps
    the entries that were there, in front. Over a whole run of [n] tasks
    the memory receives, after them, at most two entries for each
    dispatch that was made, hence at most [6 * n], and every entry that
    the run adds carries the identifier of a step of the plan. *)
Theorem run_memory_bounded (fuel : nat) (goal : string)
    (agent_tasks : list (string * TaskInfo)) (o : @Orchestrator.Orch W)
    (st : State) :
  last_state
    (while fuel (max_iterations_of (create_plan_from_tasks goal agent_tasks))
       (initial (create_plan_from_tasks goal agent_tasks) o)) = Some st ->
  exists added,
    memory_of st = Orchestrator.execution_memory o ++ added
    /\ (length added <= 2 * length (dispatches st))%nat
    /\ (length added <= 6 * length agent_tasks)%nat
    /\ (forall e, e ∈ added ->
          exists i s, steps (plan_of st) !! i = Some s /\ id s = step_id e).
Proof.
  intros Hlast.
  pose proof (while_ledger _ (length agent_tasks) fuel _ _ st
                (steady_initial goal agent_tasks o)
                (ledger_initial goal agent_tasks o) Hlast)
    as [(added & Hmem & Hcount & Hids) _ _].
  assert (HI : Inv st).
  { eapply (while_invariant agents get_context_for_prompt store_fact
              _gather_rich_context Inv); [| | | |exact Hlast].
    - apply inv_continue.
    - apply inv_break.
    - intros st1 st2 e. apply inv_raise.
    - apply inv_initial. }
  pose proof (while_steady agents get_context_for_prompt store_fact
                _gather_rich_context (length agent_tasks) fuel _
                (steady_initial goal agent_tasks o)) as Hw.
  rewrite max_iterations_of_created in Hlast.
  assert (HE : Ending (length agent_tasks) st).
  { destruct (while_loop _ _ _ _ _ _ _) as [st1|e st1|];
      [destruct Hw as [Hw _] | |done]; by injection Hlast as <-. }
  destruct HE as [Hlen _ _ Hdis Hit].
  exists added. split; [done|]. split; [done|]. split; [lia|].
  intros e He. rewrite Forall_forall in Hids. specialize (Hids e He).
  assert (Hpos : (Z.to_nat (step_id e - 1) < length (steps (plan_of st)))%nat) by lia.
  apply lookup_lt_is_Some_2 in Hpos as [s Hs].
  exists (Z.to_nat (step_id e - 1)), s. split; [done|].
  rewrite (inv_numbered _ HI _ _ Hs). lia.
Qed.

(** X15. The results of a run. When the loop stops, the result of every
    completed step is filed in [work_results] under the identifier of
    the step, and the final answer is the result of a completed step;
    when no step was completed the final answer is empty. *)
Theorem run_results_filed (fuel : nat) (goal : string)
    (agent_tasks : list (string * TaskInfo)) (o : @Orchestrator.Orch W)
    (st : State) :
  last_state
    (while fuel (max_iterations_of (create_plan_from_tasks goal agent_tasks))
       (initial (create_plan_from_tasks goal agent_tasks) o)) = Some st ->
  (forall s, s ∈ steps (plan_of st) -> status s = Completed ->
     (Text.str_of_int (id s), result s) ∈ work_results st)
  /\ ((forall s, s ∈ steps (plan_of st) -> status s <> Completed) ->
      final_answer st = EmptyString)
  /\ ((exists s, s ∈ steps (plan_of st) /\ status s = Completed) ->
      exists s, s ∈ steps (plan_of st) /\ status s = Completed
                /\ result s = final_answer st).
Proof.
  intros Hlast.
  pose proof (while_ledger _ (length agent_tasks) fuel _ _ st
                (steady_initial goal agent_tasks o)
                (ledger_initial goal agent_tasks o) Hlast) as [_ Hans Hres].
  split; [|split].
  - intros s Hs Hc. apply list_elem_of_lookup_1 in Hs as [i Hi]. by apply (Hres i).
  - intros Hnone. destruct Hans as [[Hempty _] | (j & s & Hj & Hs & _)]; [done|].
    destruct (Hnone s); [by eapply list_elem_of_lookup_2 | done].
  - intros (s0 & Hs0 & Hc0). destruct Hans as [[_ Hnone] | (j & s & Hj & Hs & Hr)].
    + rewrite Forall_forall in Hnone. by destruct (Hnone s0 Hs0).
    + exists s. split; [by eapply list_elem_of_lookup_2 | done].
Qed.

End RunLedger.

(** An orchestrator that has run before: its execution memory holds an
    entry of the earlier run. *)
Definition used_orchestrator : @Orchestrator.Orch unit :=
  Orchestrator.mkOrch (mkPlan "earlier" [] 0 false [])
    [mkEntry 9 "web" true "found" false] [] tt.

Lemma run_memory_bounded_witness :
  exists st,
    last_state
      (quiet_loop [("coder", failing_worker)] 8
         (Controller.max_iterations_of
            (Controller.create_plan_from_tasks "build X" [first_task; second_task]))
         (Controller.initial
            (Controller.create_plan_from_tasks "build X" [first_task; second_task])
            used_orchestrator)) = Some st
    /\ length (memory_of st) = 4%nat
    /\ exists added,
         memory_of st = mkEntry 9 "web" true "found" false :: added
         /\ (length added <= 2 * length (Controller.dispatches st))%nat.
Proof.
  eexists. split; [vm_compute; reflexivity|]. split; [reflexivity|].
  match goal with |- context [Controller.dispatches ?s] => set (st := s) end.
  destruct (run_memory_bounded (W:=unit) [("coder", failing_worker)]
              (fun _ _ => EmptyString) (fun _ _ _ w => w) (fun _ => EmptyString)
              8 "build X" [first_task; second_task] used_orchestrator st)
    as (added & Hm & Hc & _);
    [vm_compute; reflexivity|].
  exists added. split; [exact Hm | exact Hc].
Defined.

Lemma run_results_filed_witness :
  exists st,
    last_state
      (quiet_loop [("coder", succeeding_worker)] 8
         (Controller.max_iterations_of
            (Controller.create_plan_from_tasks "build X" [first_task; second_task]))
         (Controller.initial
            (Controller.create_plan_from_tasks "build X" [first_task; second_task])
            new_orchestrator)) = Some st
    /\ ("2", "done") ∈ Controller.work_results st
    /\ Controller.final_answer st = "done".
Proof.
  eexists. split; [vm_compute; reflexivity|].
  match goal with |- context [Controller.work_results ?s] => set (st := s) end.
  destruct (run_results_filed (W:=unit) [("coder", succeeding_worker)]
              (fun _ _ => EmptyString) (fun _ _ _ w => w) (fun _ => EmptyString)
              8 "build X" [first_task; second_task] new_orchestrator st) as (H & _);
    [vm_compute; reflexivity|].
  split; [|reflexivity].
  apply (H (set_result "done" (set_status Completed
              (new_step 2 "write b.py" "coder" 3 [DepStr "1"])))).
  - vm_compute. right. by left.
  - reflexivity.
Defined.

(* ===================================================================== *)
(** ** The code worker: installation and the correction dialogue *)
(* ===================================================================== *)

Section CoderFacts.

Import SelfCorrection.

Context {W : Type}.
Variable llm_request : list (string * string) -> W -> string * W.
Variable execute_modules :
  string -> gset string -> W
  -> (bool * string) * list (string * string) * gset string * W.
Variable install_package : string -> W -> bool * W.

Set Default Proof Using "Type".

Abbreviation Coder := (@Agent W).
Abbreviation auto_install := (_auto_install_from_error install_package).
Abbreviation correct :=
  (correct_from llm_request execute_modules install_package).
Abbreviation self_correct :=
  (_self_correct_execution llm_request execute_modules install_package).

(** X16. [_auto_install_from_error] returns true only after one
    successful installation of the package that the table gives for the
    module named in the error text, a module that was not recorded as
    installed; the module is then recorded, so that a second call on the
    same error text installs nothing and returns false. A call that
    returns false records nothing, and the set of recorded modules never
    shrinks. *)
Theorem auto_install_never_repeats (error_text : string) (a : Coder) :
  let r := auto_install error_text a in
  (installed_packages a ⊆ installed_packages (snd r))
  /\ (fst r = true ->
      exists m,
        Patterns.search_quoted_module error_text = Some m
        /\ (Text.before_dot m ∉ installed_packages a)
        /\ installed_packages (snd r)
           = {[Text.before_dot m]} ∪ installed_packages a
        /\ trace (snd r)
           = trace a ++ [Pip (pkg_name_of (Text.before_dot m)) true;
                         AutoInstall error_text true]
        /\ auto_install error_text (snd r)
           = (false, emit (AutoInstall error_text false) (snd r)))
  /\ (fst r = false -> installed_packages (snd r) = installed_packages a)
  /\ (Patterns.search_quoted_module error_text = None ->
      r = (false, emit (AutoInstall error_text false) a)).
Proof.
  cbv zeta. unfold _auto_install_from_error.
  destruct (Patterns.search_quoted_module error_text) as [m|] eqn:Hm; simpl.
  2:{ split; [done|]. split; [done|]. done. }
  case_bool_decide as Hin; simpl.
  { split; [done|]. split; [done|]. done. }
  destruct (install_package _ _) as [ok w]. destruct ok; simpl.
  - split; [apply union_subseteq_r|]. split; [|done]. intros _. exists m.
    split; [done|]. split; [done|]. split; [done|].
    split; [by rewrite <- app_assoc|].
    rewrite bool_decide_eq_true_2; [done|].
    apply elem_of_union_l. by apply elem_of_singleton.
  - split; [done|]. split; [done|]. done.
Qed.

(** A round of the loop: the correction prompt that the loop pushed, the
    answer of the model, and the entries that the executor pushed when
    the answer was executed. *)
Definition Round : Type := string * string * list (string * string).

(** What the rounds leave in the conversation memory, in order: for
    each round the prompt under the role [user], then the entries of the
    executor. *)
Definition dialogue (rounds : list Round) : list (string * string) :=
  concat (map (fun r : Round => ("user", fst (fst r)) :: snd r) rounds).

Lemma quiet_filter (tr : list Event) :
  quiet tr -> List.filter is_request tr = [].
Proof.
  induction 1 as [|e tr [He _] _ IH]; [done|]. simpl. by rewrite He.
Qed.

(** The rounds of the loop entered with the counter [n]. *)
Lemma correct_from_rounds (fuel : nat) (n : Z) (fb ans : string) (a a' : Coder)
    (res : bool * string * string) :
  correct fuel n fb ans a = Some (res, a') ->
  exists (rounds : list Round) tr,
    memory a' = memory a ++ dialogue rounds
    /\ trace a' = trace a ++ tr
    /\ List.filter is_request tr
       = map (fun r : Round => Request (snd (fst r))) rounds
    /\ (forall k prompt answer pushed,
          rounds !! k = Some (prompt, answer, pushed) ->
          (exists fbk info,
             prompt = _build_self_correction_prompt fbk (n + Z.of_nat k + 1)
                        (self_correction_max a) info)
          /\ (Text.str_in "```" answer = false -> pushed = [])
          /\ (Text.str_in "```" answer = true ->
              exists pk w,
                pushed = snd (fst (fst (execute_modules answer pk w)))))
    /\ (forall prompt answer pushed,
          rounds !! 0%nat = Some (prompt, answer, pushed) ->
          exists info,
            prompt = _build_self_correction_prompt fb (n + 1)
                       (self_correction_max a) info).
Proof.
  revert n fb ans a. induction fuel as [|fuel IH]; intros n fb ans a;
    cbn [correct_from];
    destruct (n <? self_correction_max a)%Z eqn:Hlt.
  1: done.
  1,3: intros [= <- <-]; exists [], []; unfold dialogue; simpl;
       rewrite !app_nil_r;
       split; [done|]; split; [done|]; split; [done|];
       split; intros *; first [by rewrite lookup_nil | done].
  pose proof (remediate_effect install_package fb a) as Hr. cbv zeta in Hr.
  destruct (remediate install_package fb a) as [info a1]. simpl in Hr.
  destruct Hr as (Hmax1 & _ & Hmem1 & tr_r & Htr1 & Hshape).
  apply remedy_trace_quiet in Hshape as [Hquiet _].
  set (P := _build_self_correction_prompt fb (n + 1) (self_correction_max a1) info).
  set (a2 := push "user" P a1).
  destruct (llm_request (memory a2) (world a2)) as [answer w].
  set (a3 := emit (Request answer) (set_world w a2)).
  assert (Hmax3 : self_correction_max a3 = self_correction_max a) by done.
  assert (Hmem3 : memory a3 = memory a ++ [("user", P)]).
  { simpl. by rewrite Hmem1. }
  assert (Htr3 : trace a3 = trace a ++ tr_r ++ [Request answer]).
  { simpl. rewrite Htr1. by rewrite <- app_assoc. }
  assert (Hfil : List.filter is_request (tr_r ++ [Request answer])
                 = [Request answer]).
  { by rewrite List.filter_app, (quiet_filter _ Hquiet). }
  assert (HP : exists fbk info0,
            P = _build_self_correction_prompt fbk (n + Z.of_nat 0 + 1)
                  (self_correction_max a) info0).
  { exists fb, info. unfold P. rewrite Hmax1. f_equal. lia. }
  assert (HP0 : exists info0,
            P = _build_self_correction_prompt fb (n + 1)
                  (self_correction_max a) info0).
  { exists info. unfold P. by rewrite Hmax1. }
  assert (Hrec : forall pushed fb' ans' (a4 : Coder) tr4,
            self_correction_max a4 = self_correction_max a ->
            memory a4 = memory a3 ++ pushed -> trace a4 = trace a3 ++ tr4 ->
            List.filter is_request tr4 = [] ->
            (Text.str_in "```" answer = false -> pushed = []) ->
            (Text.str_in "```" answer = true ->
             exists pk w0,
               pushed = snd (fst (fst (execute_modules answer pk w0)))) ->
            correct fuel (n + 1) fb' ans' a4 = Some (res, a') ->
            exists (rounds : list Round) tr,
              memory a' = memory a ++ dialogue rounds
              /\ trace a' = trace a ++ tr
              /\ List.filter is_request tr
                 = map (fun r : Round => Request (snd (fst r))) rounds
              /\ (forall k prompt answer0 pushed0,
                    rounds !! k = Some (prompt, answer0, pushed0) ->
                    (exists fbk info0,
                       prompt = _build_self_correction_prompt fbk
                                  (n + Z.of_nat k + 1)
                                  (self_correction_max a) info0)
                    /\ (Text.str_in "```" answer0 = false -> pushed0 = [])
                    /\ (Text.str_in "```" answer0 = true ->
                        exists pk w0,
                          pushed0
                          = snd (fst (fst (execute_modules answer0 pk w0)))))
              /\ (forall prompt answer0 pushed0,
                    rounds !! 0%nat = Some (prompt, answer0, pushed0) ->
                    exists info0,
                      prompt = _build_self_correction_prompt fb (n + 1)
                                 (self_correction_max a) info0)).
  { intros pushed fb' ans' a4 tr4 Hmax4 Hmem4 Htr4 Hreq4 Hno Hyes Hres.
    apply IH in Hres as (rounds' & tr' & Hm & Ht & Hfl & Hall & _).
    exists ((P, answer, pushed) :: rounds'),
      ((tr_r ++ [Request answer]) ++ tr4 ++ tr').
    split.
    { rewrite Hm, Hmem4, Hmem3. unfold dialogue. simpl.
      by rewrite <- !app_assoc. }
    split; [rewrite Ht, Htr4, Htr3; by rewrite <- !app_assoc|].
    split.
    { rewrite (List.filter_app _ (tr_r ++ [Request answer])), Hfil.
      by rewrite List.filter_app, Hreq4, Hfl. }
    split.
    - intros [|k] prompt answer0 pushed0; simpl.
      + by intros [= <- <- <-].
      + intros Hk.
        destruct (Hall k prompt answer0 pushed0 Hk) as ((fbk & info0 & Hp) & Hn & Hy).
        split; [|done]. exists fbk, info0. rewrite Hp, Hmax4. f_equal. lia.
    - by intros prompt answer0 pushed0 [= <- <- <-]. }
  destruct (negb (Text.str_in "```" answer)) eqn:Hcode.
  - apply negb_true_iff in Hcode. intros Hres.
    apply (Hrec [] fb ans a3 []); try done; try by rewrite app_nil_r.
    intros Hy. congruence.
  - apply negb_false_iff in Hcode.
    destruct (execute_modules answer (installed_packages a3) (world a3))
      as [[[[es feedback] pushed] pk] w'] eqn:Hexec.
    set (a4 := emit (Execute answer es feedback)
                 (set_installed pk (set_world w' (push_all pushed a3)))).
    assert (Hpushed : exists pk0 w0,
              pushed = snd (fst (fst (execute_modules answer pk0 w0)))).
    { exists (installed_packages a3), (world a3). by rewrite Hexec. }
    destruct (es && negb (Coder._has_error_in_output (Some feedback))).
    + intros [= <- <-].
      exists [(P, answer, pushed)],
        ((tr_r ++ [Request answer]) ++ [Execute answer es feedback]).
      split.
      { simpl. rewrite Hmem1. unfold dialogue. simpl. rewrite app_nil_r.
        by rewrite <- app_assoc. }
      split; [simpl; rewrite Htr1; by rewrite <- !app_assoc|].
      split; [by rewrite List.filter_app, Hfil|].
      split.
      * intros [|k] prompt answer0 pushed0; simpl; [|by rewrite lookup_nil].
        intros [= <- <- <-]. split; [done|]. split; [congruence | done].
      * by intros prompt answer0 pushed0 [= <- <- <-].
    + intros Hres.
      apply (Hrec pushed feedback answer a4 [Execute answer es feedback]);
        try done.
      intros Hn. congruence.
Qed.

(** X17. The dialogue of [_self_correct_execution], for any budget
    [self_correction_max]. The loop returns; it makes at most as many
    regeneration requests as the budget, and exactly that many when it
    fails; a budget of zero or less returns failure at once with the
    original answer and feedback and changes nothing. The conversation
    memory grows round by round, one round for each request, in order:
    the loop itself pushes exactly one correction prompt, under the role
    [user], before the request, numbered k of the budget, and the first
    one is built from the feedback the loop was started with; what
    follows the prompt of a round in the memory is what the executor
    pushed while it ran the answer of that round, and nothing when the
    answer holds no code block. *)
Theorem self_correction_dialogue (original_answer error_feedback : string)
    (a : Coder) :
  exists ok out fbk a' tr (rounds : list Round),
    self_correct original_answer error_feedback a = Some ((ok, out, fbk), a')
    /\ trace a' = trace a ++ tr
    /\ memory a' = memory a ++ dialogue rounds
    /\ List.filter is_request tr
       = map (fun r : Round => Request (snd (fst r))) rounds
    /\ length rounds = requests tr
    /\ (requests tr <= Z.to_nat (self_correction_max a))%nat
    /\ (ok = false -> requests tr = Z.to_nat (self_correction_max a))
    /\ ((self_correction_max a <= 0)%Z ->
        ok = false /\ out = original_answer /\ fbk = error_feedback /\ a' = a)
    /\ (forall k prompt answer pushed,
          rounds !! k = Some (prompt, answer, pushed) ->
          (exists fb info,
             prompt = _build_self_correction_prompt fb (Z.of_nat k + 1)
                        (self_correction_max a) info)
          /\ (Text.str_in "```" answer = false -> pushed = [])
          /\ (Text.str_in "```" answer = true ->
              exists pk w,
                pushed = snd (fst (fst (execute_modules answer pk w)))))
    /\ (forall prompt answer pushed,
          rounds !! 0%nat = Some (prompt, answer, pushed) ->
          exists info,
            prompt = _build_self_correction_prompt error_feedback 1
                       (self_correction_max a) info).
Proof.
  unfold _self_correct_execution.
  destruct (correct_from_spec llm_request execute_modules install_package
              (Z.to_nat (self_correction_max a)) 0 error_feedback original_answer a)
    as (ok & out & fbk & a' & tr & Hres & Htr & _ & Hfail & Hgood); [lia|].
  destruct (correct_from_rounds _ _ _ _ _ _ _ Hres)
    as (rounds & tr' & Hmem & Htr' & Hfil & Hall & Hzero).
  assert (tr' = tr) as -> by (apply (app_inv_head (trace a)); congruence).
  exists ok, out, fbk, a', tr, rounds.
  rewrite Z.sub_0_r in Hfail, Hgood.
  split; [done|]. split; [done|]. split; [done|]. split; [done|].
  split; [unfold requests; by rewrite Hfil, length_map|].
  split; [|split; [|split; [|split]]].
  - destruct ok.
    + by destruct (Hgood eq_refl) as (tr0 & _ & _ & _ & Hle).
    + destruct (Hfail eq_refl) as (-> & _). lia.
  - intros Hok. by destruct (Hfail Hok).
  - intros Hle. revert Hres.
    replace (Z.to_nat (self_correction_max a)) with 0%nat by lia.
    cbn [correct_from].
    assert ((0 <? self_correction_max a)%Z = false) as -> by (apply Z.ltb_ge; lia).
    by intros [= <- <- <- <-].
  - intros k prompt answer pushed Hk.
    destruct (Hall k prompt answer pushed Hk) as ((fb & info & Hp) & Hn & Hy).
    split; [|done]. exists fb, info. by rewrite Hp.
  - intros prompt answer pushed Hk.
    destruct (Hzero prompt answer pushed Hk) as (info & Hp).
    exists info. by rewrite Hp.
Qed.

End CoderFacts.

(* ===================================================================== *)
(** ** The attempts of the code worker *)
(* ===================================================================== *)

Section ProcessFacts.

Import SelfCorrection Process.

Context {W : Type}.
Variable llm_request : list (string * string) -> W -> (string * string) * W.
Variable execute_modules :
  string -> gset string -> W
  -> (bool * string) * list (string * string) * gset string * W.
Variable install_package : string -> W -> bool * W.
Variable stop : W -> bool.
Variable _verify_saved_files : string -> W -> string.
Variable remove_blocks : string -> string.
Variables system release python_version work_dir : string.
Variable templates : list (string * string).

Set Default Proof Using "Type".

Abbreviation loop :=
  (attempts_loop llm_request execute_modules install_package stop
     _verify_saved_files remove_blocks).
Abbreviation process_of :=
  (process llm_request execute_modules install_package stop
     _verify_saved_files remove_blocks system release python_version work_dir
     templates).
Abbreviation sys_prompt :=
  (add_sys_info_prompt system release python_version work_dir templates).
Abbreviation Worker := (@Proc W).

Lemma lower_app (a b : string) :
  Text.lower (a +:+ b) = Text.lower a +:+ Text.lower b.
Proof.
  induction a as [|c a IH]; [done|].
  rewrite app_String. unfold Text.lower; fold Text.lower.
  by rewrite IH, app_String.
Qed.

(** The text that [add_sys_info_prompt] adds ends with a fixed line in
    which one of the words occurs. *)
Lemma keyword_in_sys_prompt (prompt : string) :
  existsb (fun kw => Text.str_in kw (Text.lower (sys_prompt prompt))) code_keywords
  = true.
Proof.
  apply existsb_exists. exists "buat ". split; [right; by left|].
  apply str_in_spec. unfold add_sys_info_prompt. cbv zeta.
  rewrite !lower_app.
  repeat match goal with
         | |- occurs_in _ (_ +:+ _) => apply occurs_in_app_r
         end.
  apply str_in_spec. vm_compute. reflexivity.
Qed.

Definition is_asked (t : Turn) : bool :=
  match t with Asked _ => true | _ => false end.
Definition is_ran (t : Turn) : bool :=
  match t with Ran _ _ _ => true | _ => false end.
Definition is_corrected (t : Turn) : bool :=
  match t with Corrected _ => true | _ => false end.

(** A pass that ends with the order to write code or with a debug
    prompt uses up one attempt. *)
Definition is_retry (t : Turn) : bool :=
  match t with Ordered | Debugged _ => true | _ => false end.

Definition count (f : Turn -> bool) (ts : list Turn) : nat :=
  length (List.filter f ts).

Lemma count_app (f : Turn -> bool) (t1 t2 : list Turn) :
  count f (t1 ++ t2) = (count f t1 + count f t2)%nat.
Proof. unfold count. by rewrite List.filter_app, length_app. Qed.

Lemma after_loop_spec (attempt : Z) (answer : string) (reasoning : option string)
    (p : Worker) :
  let r := after_loop attempt answer reasoning p in
  turns (snd r) = turns p
  /\ (attempt = 7%Z -> forall x, reasoning = Some x -> fst r = Answered apology x)
  /\ (attempt <> 7%Z ->
      last_answer (snd r) = answer
      /\ ((exists x, reasoning = Some x /\ fst r = Answered answer x)
          \/ (reasoning = None /\ fst r = UnboundLocalError "reasoning"))).
Proof.
  unfold after_loop, max_attempts. cbv zeta.
  destruct (attempt =? 7)%Z eqn:Heq.
  - apply Z.eqb_eq in Heq. destruct reasoning; simpl.
    + split; [done|]. split; [by intros _ x [= ->] | done].
    + split; [done|]. split; [by intros _ x [=] | done].
  - apply Z.eqb_neq in Heq. destruct reasoning; simpl.
    + split; [done|]. split; [done|]. intros _. split; [done|]. left. by eexists.
    + split; [done|]. split; [done|]. intros _. split; [done|]. by right.
Qed.

Lemma correct_when_spec (trigger : bool) (st : bool * string * string) (p : Worker) :
  exists st' p' ts,
    correct_when llm_request execute_modules install_package trigger st p
    = Some (st', p')
    /\ turns p' = turns p ++ ts
    /\ (count is_corrected ts <= 1)%nat
    /\ count is_asked ts = 0%nat /\ count is_ran ts = 0%nat
    /\ count is_retry ts = 0%nat
    /\ (trigger = false -> st' = st /\ p' = p).
Proof.
  destruct st as [[es answer] feedback]. unfold correct_when.
  destruct trigger.
  - unfold _self_correct_execution.
    destruct (correct_from_spec (llm_answer llm_request) execute_modules install_package
                (Z.to_nat (self_correction_max (coder p))) 0 feedback answer (coder p))
      as (ok & out & fbk & a' & tr & Hres & _); [lia|].
    rewrite Hres. eexists _, _, [Corrected ok]. by repeat split.
  - exists (es, answer, feedback), p, []. rewrite app_nil_r. repeat split; try done.
    unfold count. simpl. lia.
Qed.

(** The loop entered with the counter [attempt]: it returns, and its
    passes are bounded as the counter tells. *)
Lemma attempts_loop_spec (fuel : nat) (original_prompt : string)
    (attempt no_code_retries : Z) (answer : string) (reasoning : option string)
    (p : Worker) :
  (0 <= attempt <= 7)%Z ->
  (Z.to_nat (7 - attempt) <= fuel)%nat ->
  (reasoning = None -> (attempt < 7)%Z) ->
  exists reply p' ts,
    loop fuel original_prompt attempt no_code_retries answer reasoning p
    = Some (reply, p')
    /\ turns p' = turns p ++ ts
    /\ (count is_asked ts <= Z.to_nat (7 - attempt))%nat
    /\ (count is_ran ts <= count is_asked ts)%nat
    /\ (count is_corrected ts <= 2 * count is_ran ts)%nat
    /\ (count is_retry ts <= count is_asked ts)%nat
    /\ ((attempt + Z.of_nat (count is_retry ts) = 7)%Z ->
        exists r, reply = Answered apology r)
    /\ ((attempt + Z.of_nat (count is_retry ts) < 7)%Z ->
        (reply = UnboundLocalError "reasoning" /\ reasoning = None /\ ts = [])
        \/ exists r, reply = Answered (last_answer p') r).
Proof.
  revert attempt no_code_retries answer reasoning p.
  induction fuel as [|fuel IH];
    intros attempt ncr answer reasoning p Hrange Hfuel Hbound;
    cbn [attempts_loop]; unfold max_attempts;
    destruct ((attempt <? 7)%Z && negb (stop (world (coder p)))) eqn:Hguard.
  1: apply andb_true_iff in Hguard as [Hlt _]; apply Z.ltb_lt in Hlt; lia.
  1,3: pose proof (after_loop_spec attempt answer reasoning p) as Ha;
       cbv zeta in Ha;
       destruct (after_loop attempt answer reasoning p) as [reply p'];
       simpl in Ha; destruct Ha as (Hturns & Hseven & Hother);
       exists reply, p', []; rewrite app_nil_r;
       split; [done|]; split; [done|];
       split; [unfold count; simpl; lia|];
       split; [done|]; split; [unfold count; simpl; lia|]; split; [done|];
       unfold count; simpl; rewrite Z.add_0_r;
       (split;
        [intros ->; destruct reasoning as [x|]; [exists x; by apply Hseven|];
         specialize (Hbound eq_refl); lia
        |intros Hlt; destruct (Hother ltac:(lia)) as (Hlast & [(x & _ & ->) | (-> & ->)]);
         [right; exists x; by rewrite Hlast | by left]]).
  apply andb_true_iff in Hguard as [Hlt _]. apply Z.ltb_lt in Hlt.
  destruct (llm_request (memory (coder p)) (world (coder p))) as [[ans r] w].
  set (p1 := note (Asked ans) (with_coder (set_world w (coder p)) p)).
  assert (Hp1 : turns p1 = turns p ++ [Asked ans]) by done.
  destruct (Text.str_in clarify_trigger ans).
  { exists (Answered ans r), (set_last ans p1), [Asked ans].
    split; [done|]. split; [done|]. unfold count; simpl.
    split; [lia|]. split; [lia|]. split; [lia|]. split; [lia|].
    split; [lia|]. intros _. right. by exists r. }
  destruct (negb (Text.str_in "```" ans)).
  { destruct ((ncr <? 3)%Z && existsb _ code_keywords).
    - set (p2 := note Ordered (with_coder (push "user" code_order (coder p1)) p1)).
      destruct (IH (attempt + 1)%Z (ncr + 1)%Z ans (Some r) p2)
        as (reply & p' & ts & Hres & Hturns & Hasks & Hran & Hcor & Hret & Hseven & Hless);
        [lia | lia | done |].
      exists reply, p', ([Asked ans; Ordered] ++ ts).
      split; [done|].
      split; [rewrite Hturns; simpl; rewrite <- !app_assoc; done|].
      rewrite !count_app.
      change (count is_asked [Asked ans; Ordered]) with 1%nat.
      change (count is_ran [Asked ans; Ordered]) with 0%nat.
      change (count is_corrected [Asked ans; Ordered]) with 0%nat.
      change (count is_retry [Asked ans; Ordered]) with 1%nat.
      split; [lia|]. split; [lia|]. split; [lia|]. split; [lia|].
      split.
      + intros H7. apply Hseven. lia.
      + intros Hl. destruct (Hless ltac:(lia)) as [(_ & [=] & _) | Hr]. by right.
    - pose proof (after_loop_spec attempt ans (Some r) (set_last ans p1)) as Ha.
      cbv zeta in Ha.
      destruct (after_loop attempt ans (Some r) (set_last ans p1)) as [reply p'].
      simpl in Ha. destruct Ha as (Hturns & _ & Hother).
      destruct (Hother ltac:(lia)) as (Hlast & [(x & [= <-] & ->) | ([=] & _)]).
      exists (Answered ans r), p', [Asked ans].
      split; [done|]. split; [by rewrite Hturns|]. unfold count; simpl.
      split; [lia|]. split; [lia|]. split; [lia|]. split; [lia|].
      split; [lia|]. intros _. right. exists r. by rewrite Hlast. }
  destruct (execute_modules ans (installed_packages (coder p1)) (world (coder p1)))
    as [[[[es fb] pushed] pk] w'].
  set (p2 := note (Ran ans es fb)
               (with_coder
                  (set_installed pk (set_world w' (push_all pushed (coder p1))))
                  p1)).
  assert (Hp2 : turns p2 = turns p ++ [Asked ans; Ran ans es fb]).
  { simpl. by rewrite <- app_assoc. }
  destruct (correct_when_spec (es && Coder._has_error_in_output (Some fb))
              (es, ans, fb) p2)
    as ([[es1 ans1] fb1] & p3 & c1 & -> & Hp3 & Hc1 & Ha1 & Hr1 & Ht1 & _).
  destruct (correct_when_spec
              (negb es1 && negb (Coder._has_error_in_output (Some fb1)))
              (es1, ans1, fb1) p3)
    as ([[es2 ans2] fb2] & p4 & c2 & -> & Hp4 & Hc2 & Ha2 & Hr2 & Ht2 & _).
  set (final :=
         match (if es2 then _verify_saved_files ans2 (world (coder p4))
                else EmptyString) with
         | EmptyString => remove_blocks ans2
         | String _ _ =>
             remove_blocks ans2 +:+ nl
             +:+ (if es2 then _verify_saved_files ans2 (world (coder p4))
                  else EmptyString)
         end).
  set (head := [Asked ans; Ran ans es fb] ++ c1 ++ c2).
  assert (Hp4' : turns p4 = turns p ++ head).
  { rewrite Hp4, Hp3, Hp2. unfold head. by rewrite <- !app_assoc. }
  assert (Hhead_a : count is_asked head = 1%nat).
  { unfold head. rewrite !count_app, Ha1, Ha2. done. }
  assert (Hhead_r : count is_ran head = 1%nat).
  { unfold head. rewrite !count_app, Hr1, Hr2. done. }
  assert (Hhead_t : count is_retry head = 0%nat).
  { unfold head. rewrite !count_app, Ht1, Ht2. done. }
  assert (Hhead_c : (count is_corrected head <= 2)%nat).
  { unfold head. rewrite !count_app. unfold count at 1. simpl. lia. }
  destruct es2.
  - pose proof (after_loop_spec attempt final (Some r) (set_last final p4)) as Ha.
    cbv zeta in Ha.
    destruct (after_loop attempt final (Some r) (set_last final p4)) as [reply p'].
    simpl in Ha. destruct Ha as (Hturns & _ & Hother).
    destruct (Hother ltac:(lia)) as (Hlast & [(x & [= <-] & ->) | ([=] & _)]).
    exists (Answered final r), p', head.
    split; [done|]. split; [by rewrite Hturns|].
    rewrite Hhead_a, Hhead_r, Hhead_t.
    split; [lia|]. split; [lia|]. split; [lia|]. split; [lia|].
    split; [lia|]. intros _. right. exists r. by rewrite Hlast.
  - set (p5 := note (Debugged (attempt + 1))
                 (with_coder
                    (push "user" (_build_debug_prompt fb2 (attempt + 1) 7)
                       (coder (set_last final p4)))
                    (set_last final p4))).
    destruct (IH (attempt + 1)%Z 0%Z final (Some r) p5)
      as (reply & p' & ts & Hres & Hturns & Hasks & Hran & Hcor & Hret & Hseven & Hless);
      [lia | lia | done |].
    exists reply, p', (head ++ [Debugged (attempt + 1)] ++ ts).
    split; [done|].
    assert (Hp5 : turns p5 = turns p4 ++ [Debugged (attempt + 1)]) by done.
    split; [by rewrite Hturns, Hp5, Hp4', <- !app_assoc|].
    rewrite !count_app, Hhead_a, Hhead_r, Hhead_t.
    change (count is_asked [Debugged (attempt + 1)]) with 0%nat.
    change (count is_ran [Debugged (attempt + 1)]) with 0%nat.
    change (count is_corrected [Debugged (attempt + 1)]) with 0%nat.
    change (count is_retry [Debugged (attempt + 1)]) with 1%nat.
    split; [lia|]. split; [lia|]. split; [lia|]. split; [lia|].
    split.
    + intros H7. apply Hseven. lia.
    + intros Hl. destruct (Hless ltac:(lia)) as [(_ & [=] & _) | Hr]. by right.
Qed.

Lemma loop_stopped (fuel : nat) (original_prompt : string)
    (attempt no_code_retries : Z) (answer : string) (reasoning : option string)
    (p : Worker) :
  stop (world (coder p)) = true ->
  loop fuel original_prompt attempt no_code_retries answer reasoning p
  = Some (after_loop attempt answer reasoning p).
Proof.
  intros Hstop. destruct fuel; cbn [attempts_loop]; by rewrite Hstop, andb_false_r.
Qed.

Lemma loop_clarified (fuel : nat) (original_prompt : string)
    (attempt no_code_retries : Z) (answer : string) (reasoning : option string)
    (p : Worker) (ans r : string) (w : W) :
  (attempt < 7)%Z ->
  stop (world (coder p)) = false ->
  llm_request (memory (coder p)) (world (coder p)) = ((ans, r), w) ->
  Text.str_in clarify_trigger ans = true ->
  loop (S fuel) original_prompt attempt no_code_retries answer reasoning p
  = Some (Answered ans r,
          set_last ans (note (Asked ans) (with_coder (set_world w (coder p)) p))).
Proof.
  intros Hlt Hstop Hllm Hclar. cbn [attempts_loop]. unfold max_attempts.
  apply Z.ltb_lt in Hlt. rewrite Hlt, Hstop, Hllm.
  change (true && negb false) with true. cbv beta iota. by rewrite Hclar.
Qed.

(** X18. The keyword test of [process] is true whatever the prompt
    says: the prompt that is tested is the one that
    [add_sys_info_prompt] has extended, and the text it adds ends with
    a line in which one of the words occurs. So an answer that holds
    neither the clarification trigger nor a code block is not returned
    while fewer than three orders in a row were sent: the order to write
    code is pushed to the memory, the attempt is used up and the model
    is asked again. *)
Theorem no_code_answer_is_sent_back (fuel : nat) (prompt : string)
    (attempt no_code_retries : Z) (answer0 : string) (reasoning0 : option string)
    (p : Worker) (ans r : string) (w : W) :
  (attempt < 7)%Z ->
  stop (world (coder p)) = false ->
  (no_code_retries < 3)%Z ->
  llm_request (memory (coder p)) (world (coder p)) = ((ans, r), w) ->
  Text.str_in clarify_trigger ans = false ->
  Text.str_in "```" ans = false ->
  existsb (fun kw => Text.str_in kw (Text.lower (sys_prompt prompt))) code_keywords
  = true
  /\ loop (S fuel) (sys_prompt prompt) attempt no_code_retries answer0 reasoning0 p
     = loop fuel (sys_prompt prompt) (attempt + 1) (no_code_retries + 1) ans (Some r)
         (note Ordered
            (with_coder
               (push "user" code_order (set_world w (coder p)))
               (note (Asked ans) (with_coder (set_world w (coder p)) p)))).
Proof.
  intros Hlt Hstop Hncr Hllm Hclar Hcode.
  split; [apply keyword_in_sys_prompt|].
  cbn [attempts_loop]. unfold max_attempts.
  apply Z.ltb_lt in Hlt, Hncr. rewrite Hlt, Hstop, Hllm.
  change (true && negb false) with true. cbv beta iota.
  rewrite Hclar, Hcode, Hncr, keyword_in_sys_prompt. done.
Qed.

(** X19. [process] returns: its loop makes at most seven requests to
    the language model of its own, runs the blocks of an answer at most
    once for each request and starts [_self_correct_execution] at most
    twice after each run. The apology is the reply exactly when seven
    passes in a row ended with the order to write code or with a debug
    prompt; otherwise the reply is the text left in [last_answer], or
    the exception for the unassigned [reasoning] when no request was
    made at all. *)
Theorem process_returns_within_seven (prompt : string) (p : Worker) :
  exists reply p' ts,
    process_of prompt p = Some (reply, p')
    /\ turns p' = turns p ++ ts
    /\ (count is_asked ts <= 7)%nat
    /\ (count is_ran ts <= count is_asked ts)%nat
    /\ (count is_corrected ts <= 2 * count is_ran ts)%nat
    /\ (count is_retry ts <= count is_asked ts)%nat
    /\ (count is_retry ts = 7%nat -> exists r, reply = Answered apology r)
    /\ ((count is_retry ts < 7)%nat ->
        (reply = UnboundLocalError "reasoning" /\ ts = [])
        \/ exists r, reply = Answered (last_answer p') r).
Proof.
  unfold process.
  destruct (attempts_loop_spec (Z.to_nat max_attempts) (sys_prompt prompt) 0 0
              EmptyString None
              (with_coder (push "user" (sys_prompt prompt) (coder p)) p))
    as (reply & p' & ts & Hres & Hturns & Hasks & Hran & Hcor & Hret & Hseven & Hless);
    [lia | unfold max_attempts; lia | lia |].
  exists reply, p', ts. split; [done|]. split; [done|].
  split; [lia|]. split; [done|]. split; [done|]. split; [done|]. split.
  - intros H7. apply Hseven. lia.
  - intros Hl. destruct (Hless ltac:(lia)) as [(Hr & _ & Hts) | Hr]; [by left | by right].
Qed.

(** X20. When the stop flag is already set as [process] starts, the
    loop is not entered: the extended prompt has been pushed to the
    memory, no request is made, and the final [return answer, reasoning]
    reads [reasoning], which was never assigned: the call ends with
    [UnboundLocalError], not with an answer. *)
Theorem process_stopped_at_entry_raises (prompt : string) (p : Worker) :
  stop (world (coder p)) = true ->
  process_of prompt p
  = Some (UnboundLocalError "reasoning",
          set_last EmptyString
            (with_coder (push "user" (sys_prompt prompt) (coder p)) p)).
Proof.
  intros Hstop. unfold process. by rewrite loop_stopped.
Qed.

(** X21. An answer that holds the clarification trigger is returned as
    it is, with its reasoning, at the first request: nothing is
    executed, nothing is installed or corrected, and the only text
    pushed to the memory is the extended prompt. *)
Theorem process_clarification_returned (prompt : string) (p : Worker)
    (ans r : string) (w : W) :
  stop (world (coder p)) = false ->
  llm_request (memory (coder p) ++ [("user", sys_prompt prompt)]) (world (coder p))
  = ((ans, r), w) ->
  Text.str_in clarify_trigger ans = true ->
  exists p',
    process_of prompt p = Some (Answered ans r, p')
    /\ last_answer p' = ans
    /\ turns p' = turns p ++ [Asked ans]
    /\ memory (coder p') = memory (coder p) ++ [("user", sys_prompt prompt)]
    /\ trace (coder p') = trace (coder p)
    /\ installed_packages (coder p') = installed_packages (coder p).
Proof.
  intros Hstop Hllm Hclar. unfold process.
  change (Z.to_nat max_attempts) with 7%nat.
  eexists. split.
  - by apply loop_clarified.
  - by repeat split.
Qed.

End ProcessFacts.

(** A worker whose model answers in plain words and is never stopped. *)
Definition plain_model : list (string * string) -> unit -> (string * string) * unit :=
  fun _ w => (("Sure, happy to help.", "because"), w).

Definition asking_model : list (string * string) -> unit -> (string * string) * unit :=
  fun _ w => (("REQUEST_CLARIFICATION: which language?", "unclear"), w).

Definition idle_executor : string -> gset string -> unit
    -> (bool * string) * list (string * string) * gset string * unit :=
  fun _ pk w => ((true, EmptyString), [], pk, w).

Definition fresh_worker : @Process.Proc unit :=
  Process.mkProc (SelfCorrection.mkAgent ∅ None 3 [] [] tt) EmptyString [].

Lemma no_code_answer_is_sent_back_witness :
  Process.attempts_loop plain_model idle_executor (fun _ w => (false, w))
    (fun _ => false) (fun _ _ => EmptyString) (fun s => s) 1
    (Process.add_sys_info_prompt "Linux" "6" "3.11" "/work" [] "hello")
    0 0 EmptyString None fresh_worker
  = Process.attempts_loop plain_model idle_executor (fun _ w => (false, w))
      (fun _ => false) (fun _ _ => EmptyString) (fun s => s) 0
      (Process.add_sys_info_prompt "Linux" "6" "3.11" "/work" [] "hello")
      1 1 "Sure, happy to help." (Some "because")
      (Process.note Process.Ordered
         (Process.with_coder
            (SelfCorrection.push "user" Process.code_order
               (SelfCorrection.set_world tt (Process.coder fresh_worker)))
            (Process.note (Process.Asked "Sure, happy to help.")
               (Process.with_coder
                  (SelfCorrection.set_world tt (Process.coder fresh_worker))
                  fresh_worker)))).
Proof.
  apply (no_code_answer_is_sent_back plain_model idle_executor
           (fun _ w => (false, w)) (fun _ => false) (fun _ _ => EmptyString)
           (fun s => s) "Linux" "6" "3.11" "/work" [] 0 "hello" 0 0 EmptyString None
           fresh_worker "Sure, happy to help." "because" tt);
    first [lia | reflexivity].
Defined.

Lemma process_stopped_at_entry_raises_witness :
  exists p',
    Process.process plain_model idle_executor (fun _ w => (false, w))
      (fun _ => true) (fun _ _ => EmptyString) (fun s => s)
      "Linux" "6" "3.11" "/work" [] "hello" fresh_worker
    = Some (Process.UnboundLocalError "reasoning", p').
Proof.
  eexists.
  apply (process_stopped_at_entry_raises plain_model idle_executor
           (fun _ w => (false, w)) (fun _ => true) (fun _ _ => EmptyString)
           (fun s => s) "Linux" "6" "3.11" "/work" [] "hello" fresh_worker).
  reflexivity.
Defined.

Lemma process_clarification_returned_witness :
  exists p',
    Process.process asking_model idle_executor (fun _ w => (false, w))
      (fun _ => false) (fun _ _ => EmptyString) (fun s => s)
      "Linux" "6" "3.11" "/work" [] "hello" fresh_worker
    = Some (Process.Answered "REQUEST_CLARIFICATION: which language?" "unclear", p')
    /\ Process.turns p' = [Process.Asked "REQUEST_CLARIFICATION: which language?"].
Proof.
  destruct (process_clarification_returned asking_model idle_executor
              (fun _ w => (false, w)) (fun _ => false) (fun _ _ => EmptyString)
              (fun s => s) "Linux" "6" "3.11" "/work" [] "hello" fresh_worker
              "REQUEST_CLARIFICATION: which language?" "unclear" tt)
    as (p' & Hres & _ & Hturns & _); [reflexivity | reflexivity | reflexivity |].
  exists p'. split; [exact Hres | exact Hturns].
Defined.

(* ===================================================================== *)
(** ** Running the blocks of an answer *)
(* ===================================================================== *)

Section ExecutorFacts.

Import SelfCorrection Executor.

Context {W : Type}.
Variable load_exec_block : string -> string -> option (list string) * option string.
Variable save_block : string -> list string -> string -> W -> W.
Variable tool_execute : string -> string -> W -> string * W.
Variable interpreter_feedback : string -> string -> string.
Variable execution_failure_check : string -> string -> bool.
Variable has_sandbox : bool.
Variable sandbox_run : string -> string -> W -> (bool * string) * W.
Variable install_package : string -> W -> bool * W.
Variable _verify_saved_files : string -> W -> string.

Set Default Proof Using "Type".

Abbreviation run_block :=
  (execute_block tool_execute interpreter_feedback execution_failure_check
     has_sandbox sandbox_run install_package).
Abbreviation run_blocks :=
  (execute_blocks tool_execute interpreter_feedback execution_failure_check
     has_sandbox sandbox_run install_package).
Abbreviation run_tools :=
  (execute_tools load_exec_block save_block tool_execute interpreter_feedback
     execution_failure_check has_sandbox sandbox_run install_package).
Abbreviation run_answer :=
  (execute_modules_with_sandbox load_exec_block save_block tool_execute
     interpreter_feedback execution_failure_check has_sandbox sandbox_run
     install_package _verify_saved_files).
Abbreviation Runner := (@Exec W).

(** The tool [name] runs its blocks in the sandbox. *)
Definition in_sandbox (name : string) : bool := has_sandbox && sandboxed name.

Lemma auto_install_true (error_text : string) (a : @Agent W) :
  let r := _auto_install_from_error install_package error_text a in
  memory (snd r) = memory a
  /\ (fst r = true ->
      exists pkg,
        trace (snd r) = trace a ++ [Pip pkg true; AutoInstall error_text true]).
Proof.
  cbv zeta. unfold _auto_install_from_error.
  destruct (Patterns.search_quoted_module error_text) as [m|]; simpl; [|done].
  case_bool_decide; simpl; [done|].
  destruct (install_package _ _) as [ok w]. destruct ok; simpl; [|done].
  split; [done|]. intros _. eexists. by rewrite <- app_assoc.
Qed.

(** The actions of one block: one run by the tool, or one run in the
    sandbox, or two runs in the sandbox around a successful installation
    of the module that the first run missed. *)
Definition block_actions (name code : string) (res : bool * string)
    (tr : list Event) (acts : list Action) : Prop :=
  (in_sandbox name = false /\ acts = [ToolRun name code (fst res) (snd res)]
   /\ tr = [])
  \/ (in_sandbox name = true
      /\ acts = [SandboxRun name code (fst res) (snd res)]
      /\ forall pkg, Pip pkg true ∉ tr)
  \/ (in_sandbox name = true
      /\ exists text pkg,
           acts = [SandboxRun name code false text;
                   SandboxRun name code (fst res) (snd res)]
           /\ Text.str_in "No module named" text = true
           /\ tr = [Pip pkg true; AutoInstall text true]).

Lemma execute_block_effect (name code : string) (e : Runner) :
  let r := run_block name code e in
  blocks_result (snd r) = blocks_result e
  /\ success_flag (snd r) = success_flag e
  /\ memory (agent (snd r)) = memory (agent e)
  /\ exists acts tr,
       actions (snd r) = actions e ++ acts
       /\ trace (agent (snd r)) = trace (agent e) ++ tr
       /\ block_actions name code (fst r) tr acts.
Proof.
  cbv zeta. unfold execute_block, sandbox_execute.
  destruct (sandboxed name) eqn:Hs; [destruct has_sandbox eqn:Hb|]; simpl.
  2,3: destruct (tool_execute name code (world (agent e))) as [output w]; simpl;
       split; [done|]; split; [done|]; split; [done|];
       eexists _, []; split; [reflexivity|]; split; [by rewrite app_nil_r|];
       left; unfold in_sandbox; rewrite ?Hs, ?Hb, ?andb_false_r; by simpl.
  assert (Hin : in_sandbox name = true) by (unfold in_sandbox; by rewrite Hs, Hb).
  destruct (sandbox_run code name (world (agent e))) as [[ok text] w]. simpl.
  destruct (negb ok && Text.str_in "No module named" text) eqn:Hmiss.
  2:{ simpl. split; [done|]. split; [done|]. split; [done|].
      eexists _, []. split; [reflexivity|]. split; [by rewrite app_nil_r|].
      right. left. split; [done|]. split; [done|]. intros pkg H. inversion H. }
  apply andb_true_iff in Hmiss as [Hok Hmiss]. apply negb_true_iff in Hok as ->.
  pose proof (auto_install_true text (set_world w (agent e))) as Hi. cbv zeta in Hi.
  pose proof (auto_install_effect install_package text (set_world w (agent e))) as He.
  cbv zeta in He.
  destruct (_auto_install_from_error install_package text (set_world w (agent e)))
    as [installed a]. simpl in Hi, He.
  destruct Hi as (Hmem & Htrue). destruct He as (_ & _ & _ & pips & Htr & Hpips).
  destruct installed; simpl.
  - destruct (Htrue eq_refl) as (pkg & Htrace).
    destruct (sandbox_run code name (world a)) as [[ok2 text2] w2]. simpl.
    split; [done|]. split; [done|]. split; [done|].
    eexists _, _. split; [by rewrite <- app_assoc|]. split; [exact Htrace|].
    right. right. split; [done|]. by exists text, pkg.
  - split; [done|]. split; [done|]. split; [done|].
    eexists _, _. split; [done|]. split; [exact Htr|].
    right. left. split; [done|]. split; [done|].
    intros pkg Hin'. apply elem_of_app in Hin' as [Hin' | Hin'].
    + destruct Hpips as [-> | [pkg' ->]]; [by inversion Hin'|].
      apply list_elem_of_singleton in Hin'. discriminate.
    + apply list_elem_of_singleton in Hin'. discriminate.
Qed.

(** The block [code] is one that the tool [name] found in the answer
    and did not merely save. *)
Definition runs (answer name code : string) : Prop :=
  exists blocks,
    fst (load_exec_block name answer) = Some blocks /\ code ∈ blocks
    /\ (_is_save_only_language name = true ->
        snd (load_exec_block name answer) = None).

(** What the routine may do for the answer. *)
Definition allowed (answer : string) (a : Action) : Prop :=
  match a with
  | Saved name file =>
      snd (load_exec_block name answer) = Some file
      /\ is_Some (fst (load_exec_block name answer))
  | SandboxRun name code _ _ => in_sandbox name = true /\ runs answer name code
  | ToolRun name code _ _ => in_sandbox name = false /\ runs answer name code
  end.

(** A stretch of the routine from [e] to [e']: [ok] is false when the
    routine has returned from inside the stretch, with the feedback
    [text]. *)
Definition segment (answer : string) (e : Runner) (ok : bool) (text : string)
    (e' : Runner) : Prop :=
  exists rs acts,
    blocks_result e' = blocks_result e ++ rs
    /\ actions e' = actions e ++ acts
    /\ Forall (allowed answer) acts
    /\ (ok = true ->
        Forall (fun r => success r = true) rs
        /\ success_flag e' = success_flag e)
    /\ (ok = false ->
        exists rs0 r0,
          rs = rs0 ++ [r0]
          /\ Forall (fun r => success r = true) rs0
          /\ success r0 = false /\ feedback r0 = text
          /\ success_flag e' = false
          /\ last (memory (agent e')) = Some ("user", text)).

Lemma segment_refl (answer : string) (e : Runner) (text : string) :
  segment answer e true text e.
Proof.
  exists [], []. rewrite !app_nil_r. split; [done|]. split; [done|].
  split; [constructor|]. split; [done | discriminate].
Qed.

Lemma segment_trans (answer : string) (e e1 e2 : Runner) (ok : bool)
    (t1 text : string) :
  segment answer e true t1 e1 -> segment answer e1 ok text e2 ->
  segment answer e ok text e2.
Proof.
  intros (rs1 & a1 & Hr1 & Ha1 & Hal1 & Hok1 & _)
         (rs2 & a2 & Hr2 & Ha2 & Hal2 & Hok2 & Hbad2).
  destruct (Hok1 eq_refl) as [Hall1 Hflag1].
  exists (rs1 ++ rs2), (a1 ++ a2).
  split; [by rewrite Hr2, Hr1, <- app_assoc|].
  split; [by rewrite Ha2, Ha1, <- app_assoc|].
  split; [by apply Forall_app|]. split.
  - intros Hok. destruct (Hok2 Hok) as [Hall2 Hflag2].
    split; [by apply Forall_app | congruence].
  - intros Hok. destruct (Hbad2 Hok) as (rs0 & r0 & -> & Hall0 & Hrest).
    exists (rs1 ++ rs0), r0. split; [by rewrite <- app_assoc|].
    split; [by apply Forall_app | done].
Qed.

Lemma segment_pushed (answer : string) (e : Runner) (text t : string) :
  segment answer e true t (with_agent (push "user" text (agent e)) e).
Proof.
  exists [], []. simpl. rewrite !app_nil_r. split; [done|]. split; [done|].
  split; [constructor|]. split; [done | discriminate].
Qed.

Lemma execute_blocks_effect (answer name : string) (path : option string)
    (blocks all : list string) (text : string) (e : Runner) :
  fst (load_exec_block name answer) = Some all ->
  (_is_save_only_language name = true -> snd (load_exec_block name answer) = None) ->
  (forall code, code ∈ blocks -> code ∈ all) ->
  forall ok text' e',
    run_blocks name path blocks text e = (ok, text', e') ->
    segment answer e ok text' e'
    /\ (ok = true -> memory (agent e') = memory (agent e)).
Proof.
  intros Hload Hsave. revert text e.
  induction blocks as [|code rest IH]; intros text e Hsub ok text' e'; simpl.
  - intros [= <- <- <-]. split; [apply segment_refl | done].
  - pose proof (execute_block_effect name code e) as Hb. cbv zeta in Hb.
    destruct (execute_block _ _ _ _ _ _ name code e) as [[ok1 t1] e1].
    simpl in Hb. destruct Hb as (Hres & Hflag & Hmem & acts & tr & Hacts & _ & Hshape).
    assert (Hruns : runs answer name code).
    { exists all. split; [done|]. split; [apply Hsub; by left | done]. }
    assert (Hallowed : Forall (allowed answer) acts).
    { destruct Hshape as [(Hin & -> & _) | [(Hin & -> & _) | (Hin & t0 & pkg & -> & _)]];
        by repeat constructor. }
    set (r1 := mkResult code t1 ok1 name path).
    destruct ok1.
    + intros Hrest. apply IH in Hrest as [Hseg Hm];
        [|intros c Hc; apply Hsub; by right].
      split.
      * apply (segment_trans answer e (record r1 e1) e' ok EmptyString text');
          [|exact Hseg].
        exists [r1], acts. simpl. rewrite Hres.
        split; [done|]. split; [done|]. split; [done|].
        split; [|discriminate]. intros _. split; [by repeat constructor | done].
      * intros Hok. rewrite (Hm Hok). simpl. done.
    + intros [= <- <- <-]. split; [|discriminate].
      exists [r1], acts. simpl. rewrite Hres.
      split; [done|]. split; [done|]. split; [done|].
      split; [discriminate|]. intros _. exists [], r1.
      split; [done|]. split; [constructor|]. split; [done|]. split; [done|].
      split; [done|]. apply last_snoc.
Qed.

Lemma execute_tools_effect (answer : string) (names : list string)
    (text : string) (saved_files : list string) (e : Runner) :
  forall ok text' saved' e',
    run_tools answer names text saved_files e = (ok, text', saved', e') ->
    segment answer e ok text' e'.
Proof.
  revert text saved_files e.
  induction names as [|name rest IH]; intros text saved_files e ok text' saved' e';
    cbn [execute_tools].
  - intros [= <- <- <- <-]. apply segment_refl.
  - destruct (load_exec_block name answer) as [[blocks|] path] eqn:Hload;
      [|apply IH].
    set (e1 := match path with
               | Some file =>
                   act (Saved name file)
                     (with_agent
                        (set_world (save_block name blocks file (world (agent e)))
                           (agent e)) e)
               | None => e
               end).
    set (saved1 := match path with
                   | Some file => (saved_files ++ [file])%list
                   | None => saved_files
                   end).
    assert (Hsaved : segment answer e true EmptyString e1).
    { subst e1. destruct path as [file|]; [|apply segment_refl].
      exists [], [Saved name file]. simpl. rewrite app_nil_r.
      split; [done|]. split; [done|].
      split; [constructor; [|constructor]; simpl; by rewrite Hload|].
      split; [done | discriminate]. }
    replace (match path with
             | Some file =>
                 ((saved_files ++ [file])%list,
                  act (Saved name file)
                    (with_agent
                       (set_world (save_block name blocks file (world (agent e)))
                          (agent e)) e))
             | None => (saved_files, e)
             end) with (saved1, e1) by (subst saved1 e1; by destruct path).
    destruct (if _is_save_only_language name then path else None) as [file|] eqn:Hso.
    + intros Hrest. apply IH in Hrest.
      eapply segment_trans; [exact Hsaved|].
      eapply (segment_trans _ _ _ _ _ EmptyString); [|exact Hrest].
      eexists [_], []. simpl. rewrite app_nil_r.
      split; [reflexivity|]. split; [done|]. split; [constructor|].
      split; [|discriminate]. intros _. split; [by repeat constructor | done].
    + assert (Hsave : _is_save_only_language name = true ->
                      snd (load_exec_block name answer) = None).
      { intros Hs. rewrite Hs in Hso. by rewrite Hload. }
      destruct (execute_blocks _ _ _ _ _ _ name path blocks EmptyString e1)
        as [[ok1 t1] e2] eqn:Hblocks.
      apply (execute_blocks_effect answer name path blocks blocks) in Hblocks
        as [Hseg _]; [|by rewrite Hload | done | done].
      destruct ok1.
      * intros Hrest. apply IH in Hrest.
        eapply segment_trans; [exact Hsaved|].
        eapply segment_trans; [exact Hseg|].
        eapply segment_trans; [apply (segment_pushed answer e2 t1 EmptyString)|].
        exact Hrest.
      * intros [= <- <- <- <-].
        eapply segment_trans; [exact Hsaved | exact Hseg].
Qed.

Lemma execute_tools_app (answer : string) (n1 n2 : list string)
    (text : string) (saved_files : list string) (e : Runner) :
  run_tools answer (n1 ++ n2) text saved_files e
  = match run_tools answer n1 text saved_files e with
    | (true, t1, saved1, e1) => run_tools answer n2 t1 saved1 e1
    | (false, t1, saved1, e1) => (false, t1, saved1, e1)
    end.
Proof.
  revert text saved_files e.
  induction n1 as [|name rest IH]; intros text saved_files e; [done|].
  cbn [execute_tools app].
  destruct (load_exec_block name answer) as [[blocks|] path]; [|apply IH].
  destruct (match path with
            | Some file => _
            | None => (saved_files, e)
            end) as [saved1 e1].
  destruct (if _is_save_only_language name then path else None); [apply IH|].
  destruct (execute_blocks _ _ _ _ _ _ name path blocks EmptyString e1)
    as [[ok1 t1] e2].
  destruct ok1; [apply IH | done].
Qed.

(** X22. The feedback that [execute_modules_with_sandbox] returns with
    success is not the output of the blocks it ran: the local [feedback]
    is emptied at the start of the pass of every tool, and the last tool
    of the registry is the file finder. When the answer holds no block
    for the file finder, the feedback returned with success is empty, or
    is the text of the file verification alone; the output of a
    [python] or [bash] block is pushed to the memory but is not
    returned. *)
Theorem success_feedback_is_of_last_tool (answer : string) (e e' : Runner)
    (text : string) :
  run_answer answer e = ((true, text), e') ->
  fst (load_exec_block "file_finder" (announced answer)) = None ->
  text = EmptyString
  \/ text = _verify_saved_files (announced answer) (world (agent e')).
Proof.
  unfold execute_modules_with_sandbox. intros Hrun Hfinder. revert Hrun.
  change tool_names
    with ([ "bash"; "python"; "c"; "go"; "java"; "html"; "css"; "javascript";
            "typescript"; "sql" ] ++ [ "file_finder" ])%list.
  rewrite execute_tools_app.
  destruct (execute_tools _ _ _ _ _ _ _ _ (announced answer)
              [ "bash"; "python"; "c"; "go"; "java"; "html"; "css"; "javascript";
                "typescript"; "sql" ] EmptyString [] (set_flag true e))
    as [[[ok1 t1] saved1] e1].
  destruct ok1; [|discriminate].
  cbn [execute_tools].
  destruct (load_exec_block "file_finder" (announced answer)) as [[blocks|] path];
    [discriminate|].
  destruct saved1 as [|file saved1]; [intros [= <- <-]; by left|].
  destruct (_verify_saved_files (announced answer) (world (agent e1)))
    as [|c v] eqn:Hv.
  - intros [= <- <-]. by left.
  - intros [= <- <-]. right. by rewrite Hv.
Qed.

(** X23. [execute_modules_with_sandbox] stops at the first block that
    fails. The results it appends to [blocks_result] are all successes
    when it returns success; when it returns failure they are successes
    but for the last one, which is the failed block, whose feedback is
    the feedback returned and the last text pushed to the memory. The
    flag [self.success] ends as the success that is returned. *)
Theorem run_answer_stops_at_first_failure (answer : string) (e : Runner) :
  let r :=
    execute_modules_with_sandbox load_exec_block save_block tool_execute
      interpreter_feedback execution_failure_check has_sandbox sandbox_run
      install_package _verify_saved_files answer e in
  exists rs,
    blocks_result (snd r) = blocks_result e ++ rs
    /\ success_flag (snd r) = fst (fst r)
    /\ (fst (fst r) = true -> Forall (fun x => success x = true) rs)
    /\ (fst (fst r) = false ->
        exists rs0 r0,
          rs = rs0 ++ [r0]
          /\ Forall (fun x => success x = true) rs0
          /\ success r0 = false
          /\ feedback r0 = snd (fst r)
          /\ last (memory (agent (snd r))) = Some ("user", snd (fst r))).
Proof.
  cbv zeta. unfold execute_modules_with_sandbox.
  destruct (execute_tools _ _ _ _ _ _ _ _ (announced answer) tool_names
              EmptyString [] (set_flag true e))
    as [[[ok t1] saved1] e1] eqn:Htools.
  apply execute_tools_effect in Htools
    as (rs & acts & Hrs & _ & _ & Hgood & Hbad).
  simpl in Hrs.
  destruct ok.
  - destruct (Hgood eq_refl) as [Hall Hflag]. simpl in Hflag.
    exists rs.
    destruct saved1 as [|file saved1];
      [|destruct (_verify_saved_files (announced answer) (world (agent e1)))];
      simpl; by repeat split.
  - destruct (Hbad eq_refl) as (rs0 & r0 & -> & Hall & Hfail & Hfb & Hflag & Hlast).
    exists (rs0 ++ [r0]). simpl. split; [done|]. split; [done|].
    split; [discriminate|]. intros _. by exists rs0, r0.
Qed.

(** X24. What [execute_modules_with_sandbox] does with the blocks.
    Every file it saves is at the path that the tool gave for the
    answer. A block is run only if its tool found it in the answer, and
    never when the tool is one of the save-only languages and gave a
    path. The blocks of [python] and [bash] are run in the sandbox when
    there is one, and by their tool only when there is none; the blocks
    of the other tools are never run in the sandbox. One block is run
    once, or twice in the sandbox when the first run failed with a
    missing module that was then installed with success. *)
Theorem run_answer_actions (answer : string) (e : Runner) :
  (exists acts,
     actions (snd (run_answer answer e)) = actions e ++ acts
     /\ (forall name file, Saved name file ∈ acts ->
           snd (load_exec_block name (announced answer)) = Some file)
     /\ (forall name code ok text, SandboxRun name code ok text ∈ acts ->
           has_sandbox = true /\ sandboxed name = true
           /\ runs (announced answer) name code)
     /\ (forall name code ok text, ToolRun name code ok text ∈ acts ->
           (has_sandbox = false \/ sandboxed name = false)
           /\ runs (announced answer) name code))
  /\ (forall name code e0,
        exists acts tr,
          actions (snd (run_block name code e0)) = actions e0 ++ acts
          /\ trace (agent (snd (run_block name code e0)))
             = trace (agent e0) ++ tr
          /\ block_actions name code (fst (run_block name code e0)) tr acts).
Proof.
  split.
  - unfold execute_modules_with_sandbox.
    destruct (execute_tools _ _ _ _ _ _ _ _ (announced answer) tool_names
                EmptyString [] (set_flag true e))
      as [[[ok t1] saved1] e1] eqn:Htools.
    apply execute_tools_effect in Htools as (rs & acts & _ & Hacts & Hall & _).
    simpl in Hacts. rewrite Forall_forall in Hall.
    exists acts. split.
    { destruct ok; [|done].
      destruct saved1 as [|file saved1]; [done|].
      by destruct (_verify_saved_files (announced answer) (world (agent e1))). }
    split; [|split].
    + intros name file Hin. by destruct (Hall _ Hin).
    + intros name code ok' text Hin. destruct (Hall _ Hin) as [Hs Hr].
      apply andb_true_iff in Hs as [Hb Hs]. done.
    + intros name code ok' text Hin. destruct (Hall _ Hin) as [Hs Hr].
      apply andb_false_iff in Hs. done.
  - intros name code e0.
    pose proof (execute_block_effect name code e0) as Hb. cbv zeta in Hb.
    destruct Hb as (_ & _ & _ & acts & tr & Hacts & Htr & Hshape).
    by exists acts, tr.
Qed.

End ExecutorFacts.

(** A registry in which only the [python] tool finds a block, and a
    sandbox whose run succeeds with a traceback in its output. *)
Definition python_only (name answer : string)
    : option (list string) * option string :=
  if String.eqb name "python" then (Some ["print(1)"], None) else (None, None).

Definition noisy_sandbox (code language : string) (w : unit)
    : (bool * string) * unit :=
  ((true, "Traceback (most recent call last): boom"), w).

Definition fresh_runner : @Executor.Exec unit :=
  Executor.mkExec (SelfCorrection.mkAgent ∅ None 3 [] [] tt) false [] [].

Lemma success_feedback_is_of_last_tool_witness :
  exists e',
    Executor.execute_modules_with_sandbox python_only (fun _ _ _ w => w)
      (fun _ _ w => (EmptyString, w)) (fun _ o => o) (fun _ _ => false)
      true noisy_sandbox (fun _ w => (false, w)) (fun _ _ => EmptyString)
      "run it" fresh_runner
    = ((true, EmptyString), e')
    /\ SelfCorrection.memory (Executor.agent e')
       = [("user", "Traceback (most recent call last): boom")].
Proof.
  eexists. split; [vm_compute; reflexivity|].
  match goal with |- context [Executor.agent ?x] => set (e' := x) end.
  destruct (success_feedback_is_of_last_tool python_only (fun _ _ _ w => w)
              (fun _ _ w => (EmptyString, w)) (fun _ o => o) (fun _ _ => false)
              true noisy_sandbox (fun _ w => (false, w)) (fun _ _ => EmptyString)
              "run it" fresh_runner e' EmptyString) as [_ | _];
    [vm_compute; reflexivity | reflexivity | reflexivity | reflexivity].
Defined.

(* ===================================================================== *)
(** ** The board game of the work directory *)
(* ===================================================================== *)

Section GameFacts.

Import Game.

Lemma position_eqb_eq (a b : Position) : position_eqb a b = true -> a = b.
Proof.
  destruct a as [x y], b as [x' y']. unfold position_eqb. simpl.
  intros H. apply andb_true_iff in H as [Hx Hy].
  apply Z.eqb_eq in Hx, Hy. by subst.
Qed.

Lemma check_snake_same (p q : Position) : check_snake p = Some q -> q = p.
Proof.
  unfold check_snake. intros H. apply find_some in H as [_ H].
  symmetry. by apply position_eqb_eq.
Qed.

Lemma check_ladder_same (p q : Position) : check_ladder p = Some q -> q = p.
Proof.
  unfold check_ladder. intros H. apply find_some in H as [_ H].
  symmetry. by apply position_eqb_eq.
Qed.

Lemma move_player_min (p : Position) (roll : Z) :
  move_player p roll = (Z.min (fst p + roll) 400, snd p).
Proof.
  unfold move_player. simpl.
  destruct (400 <? fst p + roll)%Z eqn:H.
  - apply Z.ltb_lt in H. by rewrite Z.min_r by lia.
  - apply Z.ltb_ge in H. by rewrite Z.min_l by lia.
Qed.

(** One pass of the loop leaves the player where [move_player] put it. *)
Lemma game_loop_step (roll : Z) (rest : list Z) (p : Position) (out : list string) :
  exists out',
    game_loop (roll :: rest) p out
    = if (fst (move_player p roll) =? 400)%Z
      then Some (move_player p roll, rest, out')
      else game_loop rest (move_player p roll) out'.
Proof.
  cbn [game_loop].
  destruct (check_snake (move_player p roll)) as [s|] eqn:Hs.
  - apply check_snake_same in Hs as ->.
    destruct (check_ladder (move_player p roll)) as [l|] eqn:Hl.
    + apply check_ladder_same in Hl as ->.
      destruct (fst (move_player p roll) =? 400)%Z; by eexists.
    + destruct (fst (move_player p roll) =? 400)%Z; by eexists.
  - destruct (check_ladder (move_player p roll)) as [l|] eqn:Hl.
    + apply check_ladder_same in Hl as ->.
      destruct (fst (move_player p roll) =? 400)%Z; by eexists.
    + destruct (fst (move_player p roll) =? 400)%Z; by eexists.
Qed.

(** X25. The game. A snake or a ladder never moves the player:
    [check_snake] and [check_ladder] give back the position they were
    asked about, or nothing. With rolls between 1 and 6 the loop ends,
    at the horizontal position 400 and at the height the player started
    from, after at least one roll, after no more rolls than the distance
    to 400 (or one), and after no fewer than a sixth of that distance;
    the position reached is the one that the moves alone give. *)
Theorem game_loop_reaches_goal (rolls : list Z) (p : Position) (out : list string) :
  Forall (fun roll => (1 <= roll <= 6)%Z) rolls ->
  (1 <= length rolls)%nat ->
  (Z.to_nat (400 - fst p) <= length rolls)%nat ->
  (forall q r, check_snake q = Some r \/ check_ladder q = Some r -> r = q)
  /\ exists used rest out',
       game_loop rolls p out = Some ((400%Z, snd p), rest, out')
       /\ rolls = (used ++ rest)%list
       /\ fold_left move_player used p = (400%Z, snd p)
       /\ (1 <= length used)%nat
       /\ (length used <= Nat.max 1 (Z.to_nat (400 - fst p)))%nat
       /\ (400 - fst p <= 6 * Z.of_nat (length used))%Z.
Proof.
  intros Hrolls Hone Hlen. split.
  { intros q r [H | H]; [by apply check_snake_same | by apply check_ladder_same]. }
  revert p out Hone Hlen.
  induction Hrolls as [|roll rest Hroll _ IH]; intros p out Hone Hlen;
    [simpl in Hone; lia|].
  destruct (game_loop_step roll rest p out) as [out1 ->].
  rewrite move_player_min. simpl fst. simpl in Hlen.
  destruct (Z.min (fst p + roll) 400 =? 400)%Z eqn:Hx.
  - apply Z.eqb_eq in Hx. exists [roll], rest, out1. rewrite Hx.
    split; [done|]. split; [done|].
    split; [simpl; by rewrite move_player_min, Hx|].
    simpl. lia.
  - apply Z.eqb_neq in Hx.
    destruct (IH (Z.min (fst p + roll) 400, snd p) out1)
      as (used & rest' & out' & Hres & Hsplit & Hfold & Hmin & Hmax & Hsix);
      [simpl; lia | simpl; lia |].
    simpl in Hres, Hfold, Hmax, Hsix.
    exists (roll :: used), rest', out'.
    split; [done|]. split; [by rewrite Hsplit|].
    split; [simpl; by rewrite move_player_min|].
    simpl. lia.
Qed.

End GameFacts.

Lemma game_loop_reaches_goal_witness :
  exists rest out',
    Game.game_loop [1; 5]%Z (398, 7)%Z [] = Some ((400, 7)%Z, rest, out').
Proof.
  destruct (game_loop_reaches_goal [1; 5]%Z (398, 7)%Z [])
    as (_ & used & rest & out' & H & _);
    [repeat constructor; lia | simpl; lia | simpl; lia |].
  exists rest, out'. exact H.
Defined.

(* ===================================================================== *)
(** ** The prompt of the browse-assisted retry *)
(* ===================================================================== *)

Section BrowseFix.

Import Orchestrator.

Context {W : Type}.
Variable agents : list (string * @Worker W).

Set Default Proof Using "Type".

Abbreviation handle := (_handle_install_failure_with_browsing agents).

(** [s] ends with [suffix]. *)
Definition ends_with (s suffix : string) : Prop :=
  exists head, s = head +:+ suffix.

Lemma ends_with_refl (s : string) : ends_with s s.
Proof. by exists EmptyString. Qed.

Lemma ends_with_app_r (a b suffix : string) :
  ends_with b suffix -> ends_with (a +:+ b) suffix.
Proof. intros [head ->]. exists (a +:+ head). by rewrite app_assoc'. Qed.

Lemma fold_commands (l : list string) (init : string) :
  exists tail,
    fold_left (fun acc cmd => acc +:+ "  - " +:+ cmd +:+ nl) l init
    = init +:+ tail.
Proof.
  revert init. induction l as [|cmd l IH]; intros init; simpl.
  - exists EmptyString. induction init as [|c s IHs]; [done|].
    by rewrite app_String, <- IHs.
  - destruct (IH (init +:+ "  - " +:+ cmd +:+ nl)) as [tail ->].
    exists (("  - " +:+ cmd +:+ nl) +:+ tail). by rewrite !app_assoc'.
Qed.

(** X26. The prompt of the browse-assisted retry. Without a worker
    under the key [web], or for a text without the signature,
    [_handle_install_failure_with_browsing] gives nothing and invokes
    nobody. When it gives a prompt, the web worker was invoked once,
    with the query that names the package, and returned a text that is
    not empty; the prompt names the package between quotes, quotes the
    first 800 characters of what the worker returned (itself cut to
    1500), and ends with the description of the step, so that it is
    never empty. *)
Theorem browse_fix_prompt (step : TaskStep) (text : string) (o : @Orch W) :
  let r := handle step text o in
  (agent_of agents "web" = None -> r = (None, o))
  /\ (has_signature text = false -> r = (None, o))
  /\ (forall prompt, fst r = Some prompt ->
        ends_with prompt (nl +:+ description step)
        /\ exists package answer ok,
             invoked (snd r)
             = invoked o
               ++ [mkInvocation "web"
                     ("install " +:+ package +:+ " python pip Linux Ubuntu error fix")
                     (Returned answer ok)]
             /\ answer <> EmptyString
             /\ occurs_in ("'" +:+ package +:+ "'") prompt
             /\ occurs_in (Text.take 800 (Text.take 1500 answer)) prompt).
Proof.
  cbv zeta. unfold _handle_install_failure_with_browsing.
  destruct (negb _ && negb _ && negb _) eqn:Hsig.
  { split; [done|]. split; [done|]. by intros prompt [=]. }
  assert (Hs : has_signature text = true).
  { unfold has_signature.
    destruct (Text.str_in "no module named" _), (Text.str_in "pip install" _),
      (Text.str_in "modulenotfounderror" _); simpl in *; congruence. }
  assert (Hnone : forall o' : @Orch W,
            o' = o ->
            (agent_of agents "web" = None -> (@None string, o') = (None, o))
            /\ (has_signature text = false -> (@None string, o') = (None, o))
            /\ (forall prompt, fst (@None string, o') = Some prompt ->
                  ends_with prompt (nl +:+ description step)
                  /\ exists package answer ok,
                       invoked (snd (@None string, o'))
                       = invoked o
                         ++ [mkInvocation "web"
                               ("install " +:+ package
                                +:+ " python pip Linux Ubuntu error fix")
                               (Returned answer ok)]
                       /\ answer <> EmptyString
                       /\ occurs_in ("'" +:+ package +:+ "'") prompt
                       /\ occurs_in (Text.take 800 (Text.take 1500 answer)) prompt)).
  { intros o' ->. split; [done|]. split; [done|]. by intros prompt [=]. }
  destruct (match Patterns.search_module_nocase text with
            | Some m => Some m
            | None => Patterns.search_pip_install text
            end) as [package|]; [|by apply Hnone].
  unfold _coder_browse_for_install.
  destruct (agent_of agents "web") as [browser|]; [|by apply Hnone].
  clear Hnone. unfold call.
  destruct (browser _ (world o)) as [[answer ok|msg] w].
  2:{ split; [done|]. split; [by rewrite Hs|]. by intros prompt [=]. }
  destruct answer as [|c answer].
  { split; [done|]. split; [by rewrite Hs|]. by intros prompt [=]. }
  change (Text.take 1500 (String c answer))
    with (String c (Text.take 1499 answer)).
  cbv beta iota.
  set (br := String c (Text.take 1499 answer)).
  split; [done|]. split; [by rewrite Hs|].
  destruct (Text.findall Patterns.pip_command br
            ++ Text.findall Patterns.apt_command br)%list
    as [|cmd cmds]; cbv beta iota; intros prompt [= <-].
  - split; [repeat (first [apply ends_with_refl | apply ends_with_app_r])|].
    exists package, (String c answer), ok. split; [done|]. split; [done|]. split.
    + exists "Info dari web tentang ",
        (":" +:+ nl +:+ Text.take 800 br +:+ nl +:+ nl
         +:+ "Gunakan informasi ini untuk memperbaiki instalasi, lalu ulangi tugas:"
         +:+ nl +:+ description step).
      by rewrite !app_assoc'.
    + change (Text.take 1500 (String c answer)) with br.
      do 4 apply occurs_in_app_r. apply occurs_in_app_l, occurs_in_refl.
  - match goal with
    | |- context [fold_left ?f ?l ?i] =>
        destruct (fold_commands l i) as [tail Htail]; rewrite Htail
    end.
    split; [repeat (first [apply ends_with_refl | apply ends_with_app_r])|].
    exists package, (String c answer), ok. split; [done|]. split; [done|].
    rewrite !app_assoc'. split.
    + exists "Berdasarkan pencarian web, berikut cara install ". eexists.
      rewrite !app_assoc'. reflexivity.
    + change (Text.take 1500 (String c answer)) with br.
      repeat (first [apply occurs_in_app_l, occurs_in_refl
                    | apply occurs_in_app_r]).
Qed.

End BrowseFix.

(* ===================================================================== *)
(** ** The debug prompt *)
(* ===================================================================== *)

Lemma str_in_weaken (small big s : string) :
  occurs_in small big -> Text.str_in big s = true -> Text.str_in small s = true.
Proof.
  intros Hsb Hbig. apply str_in_spec. apply str_in_spec in Hbig.
  by apply (occurs_in_trans small big s).
Qed.

(** X27. The debug prompt of [process]. It is headed by the number of
    the attempt over the budget, quotes the feedback in full, and ends
    with the last of the six instructions. The hint for a port in use
    comes first: a feedback that says [address already in use] and
    names a port gets that hint, so the hint of the fourth test is left
    to feedback that does not hold the word [port]. *)
Theorem debug_prompt_quotes_feedback (feedback : string) (attempt budget : Z) :
  let prompt := Process._build_debug_prompt feedback attempt budget in
  occurs_in feedback prompt
  /\ occurs_in ("(percobaan " +:+ Text.str_of_int attempt +:+ "/"
                +:+ Text.str_of_int budget +:+ ")") prompt
  /\ ends_with prompt
       "6. INGAT: TANPA app.run(), TANPA Tkinter, TANPA server start"
  /\ (Text.str_in "port" (Text.lower feedback) = true ->
      Text.str_in "address already in use" (Text.lower feedback) = true ->
      occurs_in "HINT: Error 'port in use' karena kamu menjalankan server."
        prompt).
Proof.
  cbv zeta. unfold Process._build_debug_prompt. cbv zeta.
  split; [|split; [|split]].
  - match goal with
    | |- context [if ?c then ?a else ?b] => generalize (if c then a else b)
    end.
    intros hints.
    repeat (first [apply occurs_in_app_l, occurs_in_refl | apply occurs_in_app_r]).
  - match goal with
    | |- context [if ?c then ?a else ?b] => generalize (if c then a else b)
    end.
    intros hints. exists "🔧 AUTONOMOUS DEBUG MODE ". eexists.
    rewrite !app_assoc'. reflexivity.
  - repeat (first [apply ends_with_refl | apply ends_with_app_r]).
  - intros Hport Hbusy.
    assert (Halready : Text.str_in "already" (Text.lower feedback) = true).
    { apply (str_in_weaken "already" "address already in use"); [|done].
      by exists "address ", " in use". }
    rewrite Hport, Halready, orb_true_r. simpl andb. cbv iota.
    apply (occurs_in_trans _
             "⛔ HINT: Error 'port in use' karena kamu menjalankan server.").
    { exists "⛔ ", EmptyString. reflexivity. }
    rewrite !app_assoc'.
    repeat (first [apply occurs_in_app_l, occurs_in_refl | apply occurs_in_app_r]).
Qed.

(* ===================================================================== *)
(** ** The digest of the finished steps *)
(* ===================================================================== *)

Section DigestFacts.

Import Digest.

(** The steps that the digest reads: completed, with a result. *)
Definition digested (step : TaskStep) : bool :=
  bool_decide (status step = Completed)
  && match result step with EmptyString => false | _ => true end.

Lemma gather_parts (l : list TaskStep)
    (parts files urls : list string) :
  fst (fst (gather l (parts, files, urls)))
  = (parts ++ map step_digest (List.filter digested l))%list.
Proof.
  revert parts files urls. induction l as [|s l IH]; intros parts files urls.
  - simpl. by rewrite app_nil_r.
  - cbn [gather List.filter]. unfold digested at 1.
    destruct (bool_decide (status s = Completed)); simpl.
    + destruct (result s); simpl; [apply IH|].
      rewrite IH. by rewrite <- app_assoc.
    + apply IH.
Qed.

(** X28. The digest that [execute_step] puts in front of a prompt. It
    is empty exactly when no step is completed with a result that is
    not empty, so it is empty for a plan that [create_plan_from_tasks]
    has just built. Otherwise it opens with its heading, holds the entry
    of every completed step with a result (the identifier, the worker
    tag in capitals, the description cut to 100 characters and the
    result cut to 300), and closes with its footing. *)
Theorem rich_context_of_completed (p : ExecutionPlan) :
  (_gather_rich_context p = EmptyString
   <-> forall s, s ∈ steps p -> digested s = false)
  /\ (forall s, s ∈ steps p -> digested s = true ->
        occurs_in (step_digest s) (_gather_rich_context p)
        /\ Text.startswith (_gather_rich_context p)
             ("=== KONTEKS PROYEK ===" +:+ nl) = true
        /\ ends_with (_gather_rich_context p)
             (nl +:+ "=== END KONTEKS ===" +:+ nl))
  /\ (forall goal agent_tasks,
        _gather_rich_context (Controller.create_plan_from_tasks goal agent_tasks)
        = EmptyString).
Proof.
  assert (Hshape : forall q : ExecutionPlan,
            (List.filter digested (steps q) = []
             /\ _gather_rich_context q = EmptyString)
            \/ (List.filter digested (steps q) <> []
                /\ exists middle,
                     _gather_rich_context q
                     = ("=== KONTEKS PROYEK ===" +:+ nl)
                       +:+ Text.join nl (map step_digest
                                           (List.filter digested (steps q)))
                       +:+ middle +:+ nl +:+ "=== END KONTEKS ===" +:+ nl)).
  { intros q. unfold _gather_rich_context.
    pose proof (gather_parts (steps q) [] [] []) as Hparts.
    destruct (gather (steps q) ([], [], [])) as [[parts files] urls].
    simpl in Hparts. subst parts.
    destruct (map step_digest (List.filter digested (steps q))) as [|d ds] eqn:Hmap.
    - left. split; [|done]. by destruct (List.filter digested (steps q)).
    - right. split; [intros Hnil; by rewrite Hnil in Hmap|].
      destruct files as [|f fs], urls as [|u us].
      + exists EmptyString. by rewrite !app_assoc'.
      + exists (nl +:+ nl +:+ "--- URL/Resource yang ditemukan ---" +:+ nl
                +:+ Text.join nl (map (fun x => "  • " +:+ x)
                                      (firstn 10 (unique (u :: us))))).
        by rewrite !app_assoc'.
      + exists (nl +:+ nl +:+ "--- File yang sudah dibuat ---" +:+ nl
                +:+ Text.join nl (map (fun x => "  • " +:+ x)
                                      (firstn 20 (unique (f :: fs))))).
        by rewrite !app_assoc'.
      + exists ((nl +:+ nl +:+ "--- File yang sudah dibuat ---" +:+ nl
                 +:+ Text.join nl (map (fun x => "  • " +:+ x)
                                       (firstn 20 (unique (f :: fs)))))
                +:+ nl +:+ nl +:+ "--- URL/Resource yang ditemukan ---" +:+ nl
                +:+ Text.join nl (map (fun x => "  • " +:+ x)
                                      (firstn 10 (unique (u :: us))))).
        by rewrite !app_assoc'. }
  assert (Hnone : forall q : ExecutionPlan,
            List.filter digested (steps q) = []
            <-> forall s, s ∈ steps q -> digested s = false).
  { intros q. split.
    - intros Hnil s Hs. apply not_true_is_false. intros Hd.
      assert (Hin : In s (List.filter digested (steps q))).
      { apply filter_In. split; [by apply list_elem_of_In | done]. }
      by rewrite Hnil in Hin.
    - intros Hall. destruct (List.filter digested (steps q)) as [|s l] eqn:Hf; [done|].
      assert (Hin : In s (List.filter digested (steps q))) by (rewrite Hf; by left).
      apply filter_In in Hin as [Hin Hd]. apply list_elem_of_In in Hin.
      rewrite (Hall s Hin) in Hd. discriminate. }
  split; [|split].
  - destruct (Hshape p) as [[Hnil Hempty] | [Hsome (middle & Hfull)]].
    + rewrite Hempty. split; [intros _; by apply (proj1 (Hnone p)) | done].
    + split.
      * rewrite Hfull. intros Habs. exfalso. revert Habs.
        rewrite app_assoc'. by rewrite app_String.
      * intros Hall. by destruct (Hsome (proj2 (Hnone p) Hall)).
  - intros s Hs Hd.
    destruct (Hshape p) as [[Hnil Hempty] | [Hsome (middle & Hfull)]].
    { pose proof (proj1 (Hnone p) Hnil) as Hall.
      rewrite (Hall s Hs) in Hd. discriminate. }
    rewrite Hfull. split; [|split].
    + apply occurs_in_app_r, occurs_in_app_l. apply join_sep_occurs.
      apply list_elem_of_In, in_map, filter_In. split; [by apply list_elem_of_In | done].
    + unfold Text.startswith. apply prefix_split. eexists. by rewrite app_assoc'.
    + repeat (first [apply ends_with_refl | apply ends_with_app_r]).
  - intros goal agent_tasks.
    destruct (Hshape (Controller.create_plan_from_tasks goal agent_tasks))
      as [[_ Hempty] | [Hsome _]]; [done|].
    exfalso. apply Hsome. apply (proj2 (Hnone _)). intros s Hs.
    apply list_elem_of_lookup_1 in Hs as [i Hi]. simpl in Hi.
    apply steps_from_lookup in Hi as (_ & Hst & _).
    unfold digested. by rewrite Hst.
Qed.

End DigestFacts.
